(** * Geographic entity resolution and caching engine: a shallow embedding

    The development follows three source units of the repository:

    - the state index manager and the optimized loader
      ([improved_index_manager_nor_opt.ts]): the module-level
      [stateIndexCache], [loadStateIndexes], [loadStateCSV],
      [normalizeZipCode], [normalizeCountyCode], [getRedfinId],
      [clearStateCache], [getRelevantRedfinIds] and
      [filterRedfinByRelevantIds];
    - the column selections ([data_column_selections_tract_opt]):
      [normalizeCountyId];
    - the unified data service ([unified-data-service.ts]):
      [buildUnifiedLookup], [getStateName], [getCitiesInState], the
      classification of [getStats] and the substitute data of
      [initializeMockData].

    Beyond these, the development covers the other functions of the
    three units that can be modelled without the network layer: the CSV
    parser of [loadStateCSV], [getTractsInZip], [getZipsInCounty],
    [checkStateCoverage], the loader's filters, [buildOptimizedUrls] and
    [matchDataSmart]; [isEssentialColumn], [getDatabaseMatchingFields],
    [matchFeatureToData] and [matchTractFeatureToData]; [initialize],
    the queries, [getDataLoadingInfo] and [getStats] of the service.

    Conventions of the embedding.

    - A JavaScript string is a [string]; each [ascii] stands for one
      UTF-16 code unit in the range U+0000..U+00FF, so [String.length]
      is the [.length] of the source.
    - A JavaScript number that takes part in [toString]/[parseInt] is an
      integer or [NaN] ([JS.number]); fractions and infinities are
      outside the model, and the model is exact for the safe integers
      only (up to 2^53 - 1 in absolute value): a statement that depends
      on printing and reading back a number assumes [safeInteger].
      Coordinates and areas, which the code only stores and copies, are
      binary64 floats.
    - A table written as an object literal is looked up by its own
      keys; a statement about a lookup with an arbitrary key assumes
      that the key is not a name every object inherits
      ([inheritedNames]).
    - The flat records are typed as the parser delivers them: the zip
      code of a record is a value, a text in the substitute data and a
      number in a parsed file.
    - A [Map] read only through [has]/[get] is a [gmap]; the [Map] whose
      [values()] order is observable is an insertion-ordered association
      list with the in-place update of [Map.prototype.set].
    - A function that can throw returns a [JS.result]. *)

From Stdlib Require Import ZArith String Ascii List Bool Lia DecimalString DecimalPos.
From Stdlib Require Uint63.
From Stdlib Require Import Floats.PrimFloat.
From stdpp Require Import gmap strings list fin_maps.

Local Open Scope string_scope.
Local Open Scope Z_scope.
Local Open Scope list_scope.

(** ** JavaScript strings and values *)

Module JS.

(** *** Results of code that may throw *)

Inductive result (A : Type) : Type :=
| Ok (a : A)
| Throw.
Arguments Ok {A} a.
Arguments Throw {A}.

Definition bind {A B} (r : result A) (k : A → result B) : result B :=
  match r with
  | Ok a => k a
  | Throw => Throw
  end.

(** [a || b] on booleans where either operand may throw: [b] is
    evaluated only when [a] is [false]. *)
Definition orElse (a b : result bool) : result bool :=
  bind a (λ x, if x then Ok true else b).

(** [Array.prototype.find] with a callback that may throw: rows are
    visited in order, the first row on which the callback is true is
    returned, and an exception of the callback ends the scan. *)
Fixpoint find {A} (p : A → result bool) (l : list A) : result (option A) :=
  match l with
  | [] => Ok None
  | x :: l' =>
      match p x with
      | Throw => Throw
      | Ok true => Ok (Some x)
      | Ok false => find p l'
      end
  end.

(** *** Characters *)

Definition code (c : ascii) : N := N_of_ascii c.

(** [\d] of a regular expression without the unicode flag. *)
Definition isDigit (c : ascii) : bool :=
  ((48 <=? code c) && (code c <=? 57))%N.

(** White space and line terminators removed by [trim] and skipped by
    [parseInt], among the code units below U+0100. *)
Definition isWhiteSpace (c : ascii) : bool :=
  let n := code c in
  ((n =? 9) || (n =? 10) || (n =? 11) || (n =? 12) || (n =? 13)
   || (n =? 32) || (n =? 160))%N.

Definition lowerChar (c : ascii) : ascii :=
  let n := code c in
  if ((65 <=? n) && (n <=? 90))%N then ascii_of_N (n + 32)
  else if ((192 <=? n) && (n <=? 222) && negb (n =? 215))%N
       then ascii_of_N (n + 32)
  else c.

(** *** Strings *)

Fixpoint toLowerCase (s : string) : string :=
  match s with
  | EmptyString => EmptyString
  | String c s' => String (lowerChar c) (toLowerCase s')
  end.

(** [s.replace(/\D/g, '')] *)
Fixpoint stripNonDigits (s : string) : string :=
  match s with
  | EmptyString => EmptyString
  | String c s' =>
      if isDigit c then String c (stripNonDigits s') else stripNonDigits s'
  end.

Fixpoint trimStart (s : string) : string :=
  match s with
  | EmptyString => EmptyString
  | String c s' => if isWhiteSpace c then trimStart s' else s
  end.

Fixpoint trimEnd (s : string) : string :=
  match s with
  | EmptyString => EmptyString
  | String c s' =>
      match trimEnd s' with
      | EmptyString => if isWhiteSpace c then EmptyString else String c EmptyString
      | r => String c r
      end
  end.

Definition trim (s : string) : string := trimEnd (trimStart s).

Fixpoint repeatChar (c : ascii) (n : nat) : string :=
  match n with
  | O => EmptyString
  | S n' => String c (repeatChar c n')
  end.

(** [s.padStart(n, '0')] *)
Definition padStart0 (n : nat) (s : string) : string :=
  repeatChar "0" (n - String.length s) +:+ s.

Fixpoint startsWith (p s : string) : bool :=
  match p, s with
  | EmptyString, _ => true
  | String a p', String b s' => if Ascii.eqb a b then startsWith p' s' else false
  | String _ _, EmptyString => false
  end.

(** [s.includes(sub)] *)
Fixpoint includes (sub s : string) : bool :=
  startsWith sub s
  || match s with
     | EmptyString => false
     | String _ s' => includes sub s'
     end.

(** [s.split(sep)] for a non-empty separator.  [cur] is the segment
    being read and [skip] the number of separator characters still to
    be passed over. *)
Fixpoint splitFrom (sep s cur : string) (skip : nat) : list string :=
  match s with
  | EmptyString => [cur]
  | String c s' =>
      match skip with
      | S k => splitFrom sep s' cur k
      | O =>
          if startsWith sep s
          then cur :: splitFrom sep s' EmptyString (String.length sep - 1)
          else splitFrom sep s' (cur +:+ String c EmptyString) O
      end
  end.

Definition split (sep s : string) : list string :=
  splitFrom sep s EmptyString O.

(** [s.slice(-n)]: the last [n] characters. *)
Definition sliceLast (n : nat) (s : string) : string :=
  String.substring (String.length s - n) n s.

(** [s.substring(i)] *)
Definition substringFrom (i : nat) (s : string) : string :=
  String.substring i (String.length s - i) s.

(** *** Numbers *)

(** A number that is [NaN] or an integer.  The type is exact for the
    safe integers, up to 2^53 - 1 in absolute value: there a binary64
    number holds the integer itself, [toString] prints it in plain
    decimal and [parseInt] reads it without rounding.  Beyond them the
    source rounds, and from 1e21 it prints with an exponent; a statement
    whose truth depends on the range says so. *)
Inductive number : Type :=
| NaN
| Int (z : Z).

Definition numberToString (n : number) : string :=
  match n with
  | NaN => "NaN"
  | Int z => NilZero.string_of_int (Z.to_int z)
  end.

Definition digitValue (radix : Z) (c : ascii) : option Z :=
  let n := Z.of_N (code c) in
  let v :=
    if (48 <=? n) && (n <=? 57) then Some (n - 48)
    else if (97 <=? n) && (n <=? 122) then Some (n - 87)
    else if (65 <=? n) && (n <=? 90) then Some (n - 55)
    else None in
  match v with
  | Some d => if d <? radix then Some d else None
  | None => None
  end.

(** The longest prefix of radix digits, read left to right; [None]
    when there is no digit at all. *)
Fixpoint readDigits (radix : Z) (s : string) (acc : option Z) : option Z :=
  match s with
  | EmptyString => acc
  | String c s' =>
      match digitValue radix c with
      | Some d => readDigits radix s' (Some (radix * default 0 acc + d))
      | None => acc
      end
  end.

(** [parseInt(s)] without a radix argument: leading white space, an
    optional sign, an optional [0x]/[0X] prefix selecting radix 16. *)
Definition parseIntString (s : string) : number :=
  let s1 := trimStart s in
  let '(sign, s2) :=
    match s1 with
    | String "-" r => (-1, r)
    | String "+" r => (1, r)
    | _ => (1, s1)
    end in
  let '(radix, s3) :=
    match s2 with
    | String "0" (String "x" r) => (16, r)
    | String "0" (String "X" r) => (16, r)
    | _ => (10, s2)
    end in
  match readDigits radix s3 None with
  | Some v => Int (sign * v)
  | None => NaN
  end.

(** *** Values *)

Inductive value : Type :=
| Undefined
| Null
| Bool (b : bool)
| Num (n : number)
| Str (s : string).

Definition truthy (v : value) : bool :=
  match v with
  | Undefined | Null => false
  | Bool b => b
  | Num NaN => false
  | Num (Int z) => negb (z =? 0)
  | Str s => negb (String.eqb s "")
  end.

Definition numberEq (a b : number) : bool :=
  match a, b with
  | Int x, Int y => x =? y
  | _, _ => false
  end.

(** [a === b] *)
Definition strictEq (a b : value) : bool :=
  match a, b with
  | Undefined, Undefined => true
  | Null, Null => true
  | Bool x, Bool y => Bool.eqb x y
  | Num x, Num y => numberEq x y
  | Str x, Str y => String.eqb x y
  | _, _ => false
  end.

(** SameValueZero on numbers, the comparison of
    [Array.prototype.includes] and of [Set]: [NaN] equals itself. *)
Definition sameNumber (a b : number) : bool :=
  match a, b with
  | NaN, NaN => true
  | Int x, Int y => x =? y
  | _, _ => false
  end.

Definition arrayIncludes (l : list number) (n : number) : bool :=
  existsb (sameNumber n) l.

(** SameValueZero on values, the comparison of the keys of a [Map]:
    values of different types are never the same key. *)
Definition sameValueZero (a b : value) : bool :=
  match a, b with
  | Num x, Num y => sameNumber x y
  | _, _ => strictEq a b
  end.

(** [v.toString()]; calling a method on [undefined] or [null] throws. *)
Definition toString (v : value) : result string :=
  match v with
  | Undefined | Null => Throw
  | Bool true => Ok "true"
  | Bool false => Ok "false"
  | Num n => Ok (numberToString n)
  | Str s => Ok s
  end.

(** The abstract operation ToString, applied by [parseInt] to its
    argument: it never throws on the values of the model. *)
Definition coerceToString (v : value) : string :=
  match v with
  | Undefined => "undefined"
  | Null => "null"
  | Bool true => "true"
  | Bool false => "false"
  | Num n => numberToString n
  | Str s => s
  end.

Definition parseInt (v : value) : number := parseIntString (coerceToString v).

(** [a || b] on values. *)
Definition orValue (a b : value) : value := if truthy a then a else b.

(** An object read as a map from property names to values; a missing
    property reads as [undefined]. *)
Definition get (o : gmap string value) (k : string) : value :=
  default Undefined (o !! k).

(** [Array.prototype.filter] with a callback that may throw: the rows
    are visited in order and an exception of the callback ends the
    scan. *)
Fixpoint filterM {A} (p : A → result bool) (l : list A) : result (list A) :=
  match l with
  | [] => Ok []
  | x :: l' =>
      bind (p x) (λ keep,
      bind (filterM p l') (λ rest,
      Ok (if keep then x :: rest else rest)))
  end.

(** [v !== undefined && v !== null && v !== ''] *)
Definition present (v : value) : bool :=
  match v with
  | Undefined | Null => false
  | Str s => negb (String.eqb s "")
  | _ => true
  end.

(** [v !== undefined && v !== null] *)
Definition notNullish (v : value) : bool :=
  match v with
  | Undefined | Null => false
  | _ => true
  end.

(** [v?.toString()]: [None] stands for [undefined]. *)
Definition optToString (v : value) : option string :=
  if notNullish v then Some (coerceToString v) else None.


End JS.

(** ** The state index manager and the index-driven payload reducer *)

Module IndexManager.
Import JS.

Definition BASE_URL : string :=
  "https://pub-349a836622034df3a45c179d98e8328a.r2.dev".

(** A row of an index file or of a raw dataset: a flat object. *)
Abbreviation Row := (gmap string value).

(** The value type of [stateIndexCache]. *)
Record StateIndexCacheEntry : Type := {
  counties : list Row;
  zips : list Row;
  tracts : list Row;
  loadTime : Z
}.

(** *** The host: network and clock *)

Record Response : Type := {
  ok : bool;
  status : Z;
  text : result string      (* [Throw]: reading the body rejects *)
}.

Inductive FetchOutcome : Type :=
| Rejected                   (* the promise of [fetch] rejects *)
| Resolved (r : Response).

(** What the environment answers: the outcome of the [n]-th request
    of the process, which may depend on the address, and the [n]-th
    reading of [performance.now()]. *)
Record Host : Type := {
  fetch : nat → string → FetchOutcome;
  performance_now : nat → Z
}.

(** The state the module's functions act on: the module-level cache,
    the addresses requested so far (oldest first) and the number of
    clock readings. *)
Record World : Type := {
  stateIndexCache : gmap string StateIndexCacheEntry;
  requests : list string;
  clockReads : nat
}.

Definition now (h : Host) (w : World) : Z * World :=
  (performance_now h (clockReads w),
   {| stateIndexCache := stateIndexCache w;
      requests := requests w;
      clockReads := S (clockReads w) |}).

Definition request (h : Host) (url : string) (w : World) : FetchOutcome * World :=
  (fetch h (length (requests w)) url,
   {| stateIndexCache := stateIndexCache w;
      requests := requests w ++ [url];
      clockReads := clockReads w |}).

Definition cacheSet (k : string) (e : StateIndexCacheEntry) (w : World) : World :=
  {| stateIndexCache := <[k := e]> (stateIndexCache w);
     requests := requests w;
     clockReads := clockReads w |}.

(** *** loadStateCSV *)

Definition newline : string := String "010"%char EmptyString.

Definition csvUrl (stateAbbrev level : string) : string :=
  BASE_URL +:+ "/index/csv/" +:+ stateAbbrev +:+ "/" +:+ level +:+ ".csv".

Definition isNumericHeader (header : string) : bool :=
  includes "zipcode" header || includes "table_id" header
  || includes "fips" header || String.eqb header "GEOID".

(** The value stored under [header] for the cell at its index;
    [cell] is [None] when the line has fewer cells. *)
Definition parseCell (header : string) (cell : option string) : value :=
  let value := match cell with
               | Some c => trim c
               | None => ""
               end in
  if isNumericHeader header
  then (if negb (String.eqb value "") then Num (parseIntString value) else Null)
  else Str value.

Fixpoint fillRecord (headers : list string) (index : nat)
    (values : list string) (record : Row) : Row :=
  match headers with
  | [] => record
  | header :: rest =>
      fillRecord rest (S index) values
        (<[header := parseCell header (values !! index)]> record)
  end.

Definition parseLine (headers : list string) (line : string) : Row :=
  fillRecord headers O (split "," line) ∅.

(** The body of the [try] after a successful response: with no
    non-blank line, [lines[0]] is [undefined] and [.split] throws. *)
Definition parseCSV (csvText : string) : result (list Row) :=
  let lines :=
    List.filter (λ line, negb (String.eqb (trim line) ""))
                (split newline csvText) in
  match lines with
  | [] => Throw
  | first :: rest =>
      let headers := List.map trim (split "," first) in
      Ok (List.map (parseLine headers) rest)
  end.

Definition loadStateCSV_try (o : FetchOutcome) : result (list Row) :=
  match o with
  | Rejected => Throw
  | Resolved r =>
      if negb (ok r) then Ok []
      else bind (text r) parseCSV
  end.

(** [try { body } catch { return handler }] *)
Definition tryCatch {A} (body : result A) (handler : A) : result A :=
  match body with
  | Ok a => Ok a
  | Throw => Ok handler
  end.

Definition loadStateCSV (h : Host) (stateAbbrev level : string) (w : World)
    : result (list Row) * World :=
  let '(outcome, w1) := request h (csvUrl stateAbbrev level) w in
  (tryCatch (loadStateCSV_try outcome) [], w1).

(** *** loadStateIndexes

    The three loads of [Promise.all] issue their requests in the order
    county, zip, tract before any of them resumes.  The [level]
    argument is not read. *)
Definition loadStateIndexes (h : Host) (stateAbbrev : string)
    (level : option string) (w : World) : bool * World :=
  match stateIndexCache w !! stateAbbrev with
  | Some _ => (true, w)
  | None =>
      let '(startTime, w1) := now h w in
      let '(rc, w2) := loadStateCSV h stateAbbrev "county" w1 in
      let '(rz, w3) := loadStateCSV h stateAbbrev "zip" w2 in
      let '(rt, w4) := loadStateCSV h stateAbbrev "tract" w3 in
      match rc, rz, rt with
      | Ok counties, Ok zips, Ok tracts =>
          let '(t1, w5) := now h w4 in
          let w6 := cacheSet stateAbbrev
                      {| counties := counties; zips := zips; tracts := tracts;
                         loadTime := t1 - startTime |} w5 in
          let '(_, w7) := now h w6 in
          (true, w7)
      | _, _, _ => (false, w4)
      end
  end.

(** *** clearStateCache

    [stateAbbrev] is [None] when the argument is omitted; the guard
    [if (stateAbbrev)] tests truthiness. *)
Definition clearStateCache (stateAbbrev : option string) (w : World) : World :=
  match stateAbbrev with
  | Some s =>
      if truthy (Str s)
      then {| stateIndexCache := delete s (stateIndexCache w);
              requests := requests w; clockReads := clockReads w |}
      else {| stateIndexCache := ∅;
              requests := requests w; clockReads := clockReads w |}
  | None =>
      {| stateIndexCache := ∅;
         requests := requests w; clockReads := clockReads w |}
  end.

(** *** Normalization

    Past the guard the argument is neither [undefined] nor [null], so
    its [toString()] is defined and agrees with [coerceToString]. *)
Definition normalizeZipCode (zip : value) : string :=
  if negb (truthy zip) && negb (strictEq zip (Num (Int 0))) then ""
  else
    let zipStr := trim (coerceToString zip) in
    let cleanZip := stripNonDigits zipStr in
    padStart0 5 cleanZip.

Definition normalizeCountyCode (county : value) : string :=
  if negb (truthy county) && negb (strictEq county (Num (Int 0))) then ""
  else
    let countyStr := trim (coerceToString county) in
    let cleanCounty := stripNonDigits countyStr in
    if (String.length cleanCounty =? 5)%nat then sliceLast 3 cleanCounty
    else padStart0 3 cleanCounty.

(** *** getRedfinId *)

(** [v?.toString() === area] *)
Definition optToStringIs (v : value) (area : string) : bool :=
  match v with
  | Undefined | Null => false
  | _ => String.eqb (coerceToString v) area
  end.

(** [v?.toLowerCase().includes(area.toLowerCase())]: [undefined] on a
    missing name, a [TypeError] on a name that is not a string. *)
Definition optNameIncludes (v : value) (area : string) : result bool :=
  match v with
  | Undefined | Null => Ok false
  | Str s => Ok (includes (toLowerCase area) (toLowerCase s))
  | _ => Throw
  end.

Definition zipExact (area : string) (row : Row) : result bool :=
  Ok (optToStringIs (get row "ZIPCODE") area
      || strictEq (get row "ZIPCODE") (Num (parseIntString area))
      || optToStringIs (get row "zipcode") area
      || optToStringIs (get row "zip_code") area).

Definition zipNormalized (area : string) (row : Row) : result bool :=
  Ok (String.eqb (normalizeZipCode (get row "ZIPCODE"))
                 (normalizeZipCode (Str area))).

(** Strategy 1 *)
Definition countyByGeoid (area : string) (row : Row) : result bool :=
  Ok (strictEq (get row "GEOID") (Str area)
      || strictEq (get row "GEOID") (Str area)).

(** Strategy 2 *)
Definition countyByFredFips (area : string) (row : Row) : result bool :=
  Ok (strictEq (get row "fred_county_fips") (Str area)
      || strictEq (get row "fred_county_fips") (Str area)).

(** Strategy 3 *)
Definition countyByName (area : string) (row : Row) : result bool :=
  orElse (optNameIncludes (get row "NAME") area)
    (orElse (optNameIncludes (get row "NAMELSAD") area)
            (optNameIncludes (get row "region") area)).

(** Strategy 4 *)
Definition countyNormalized (area : string) (row : Row) : result bool :=
  Ok (String.eqb
        (normalizeCountyCode (orValue (get row "COUNTYFP") (get row "GEOID")))
        (normalizeCountyCode (Str area))).

Definition tableIdOf (row : Row) : value := Num (parseInt (get row "table_id")).

Definition getRedfinIdZip (stateData : StateIndexCacheEntry) (area : string)
    : result (option value) :=
  bind (find (zipExact area) (zips stateData)) (λ exact,
  bind (match exact with
        | Some r => Ok (Some r)
        | None => find (zipNormalized area) (zips stateData)
        end) (λ zipRecord,
  match zipRecord with
  | Some r =>
      if truthy (get r "redfin_tableid_zip")
      then Ok (Some (Num (parseInt (get r "redfin_tableid_zip"))))
      else Ok None
  | None => Ok None
  end)).

Definition getRedfinIdCounty (stateData : StateIndexCacheEntry) (area : string)
    : result (option value) :=
  bind (find (countyByGeoid area) (counties stateData)) (λ r1,
  match r1 with
  | Some r => Ok (Some (tableIdOf r))
  | None =>
  bind (find (countyByFredFips area) (counties stateData)) (λ r2,
  match r2 with
  | Some r => Ok (Some (tableIdOf r))
  | None =>
  bind (find (countyByName area) (counties stateData)) (λ r3,
  match r3 with
  | Some r => Ok (Some (tableIdOf r))
  | None =>
  bind (find (countyNormalized area) (counties stateData)) (λ r4,
  match r4 with
  | Some r => Ok (Some (tableIdOf r))
  | None => Ok None
  end)
  end)
  end)
  end).

(** A branch yields [Some v] when it executes a [return v] and [None]
    when control falls through to the statements after it. *)
Definition getRedfinId (stateAbbrev area level : string) (w : World)
    : result value :=
  match stateIndexCache w !! stateAbbrev with
  | None => Ok Null
  | Some stateData =>
      bind (if String.eqb level "zip"
            then getRedfinIdZip stateData area else Ok None) (λ viaZip,
      match viaZip with
      | Some v => Ok v
      | None =>
      bind (if String.eqb level "county"
            then getRedfinIdCounty stateData area else Ok None) (λ viaCounty,
      match viaCounty with
      | Some v => Ok v
      | None => Ok Null
      end)
      end)
  end.

(** *** The payload reducer *)

Record Feature : Type := { properties : gmap string value }.

(** [Set.prototype.add] on a set kept in insertion order. *)
Definition setAdd (n : number) (s : list number) : list number :=
  if arrayIncludes s n then s else (s ++ [n])%list.

(** One iteration of the loop of [getRelevantRedfinIds]. *)
Definition collectFeature (stateAbbrev level : string) (w : World)
    (relevantIds : list number) (feature : Feature) : result (list number) :=
  let props := properties feature in
  let lookup (key : value) (lvl : string) :=
    if truthy key
    then bind (getRedfinId stateAbbrev (coerceToString key) lvl w) (λ redfinId,
         match redfinId with
         | Num n => if truthy redfinId then Ok (setAdd n relevantIds)
                    else Ok relevantIds
         | _ => Ok relevantIds
         end)
    else Ok relevantIds in
  if String.eqb level "zip"
  then lookup (orValue (get props "ZIPCODE")
                 (orValue (get props "zipcode") (get props "zip_code"))) "zip"
  else if String.eqb level "county"
  then lookup (orValue (get props "GEOID")
                 (orValue (get props "COUNTYFP") (get props "county_fips"))) "county"
  else Ok relevantIds.

Fixpoint collectFeatures (stateAbbrev level : string) (w : World)
    (relevantIds : list number) (features : list Feature) : result (list number) :=
  match features with
  | [] => Ok relevantIds
  | feature :: rest =>
      bind (collectFeature stateAbbrev level w relevantIds feature) (λ ids,
      collectFeatures stateAbbrev level w ids rest)
  end.

Definition getRelevantRedfinIds (h : Host) (stateAbbrev level : string)
    (geoJsonFeatures : list Feature) (w : World) : result (list number) * World :=
  let '(_, w1) := loadStateIndexes h stateAbbrev None w in
  (collectFeatures stateAbbrev level w1 [] (take 50 geoJsonFeatures), w1).

Definition filterRedfinByRelevantIds (redfinData : list Row)
    (relevantIds : list number) : list Row :=
  if (length relevantIds =? 0)%nat then redfinData
  else List.filter
         (λ record, arrayIncludes relevantIds (parseInt (get record "table_id")))
         redfinData.

(** *** Geographic relationships *)

Definition getTractsInZip (stateAbbrev zipcode : string) (w : World) : list Row :=
  match stateIndexCache w !! stateAbbrev with
  | None => []
  | Some stateData =>
      List.filter
        (λ row, strictEq (get row "zip_code_clean") (Str zipcode)
                || strictEq (get row "zipcode") (Str zipcode)
                || strictEq (get row "ZIPCODE") (Str zipcode))
        (tracts stateData)
  end.

Definition getZipsInCounty (stateAbbrev countyName : string) (w : World)
    : result (list Row) :=
  match stateIndexCache w !! stateAbbrev with
  | None => Ok []
  | Some stateData =>
      filterM
        (λ row, orElse (optNameIncludes (get row "redfin_county_name") countyName)
                       (optNameIncludes (get row "county_name") countyName))
        (zips stateData)
  end.

(** *** Coverage *)

(** An array length as a number. *)
Definition lengthNumber (n : nat) : float :=
  PrimFloat.of_uint63 (Uint63.of_Z (Z.of_nat n)).

(** [total > 0 ? (part / total) * 100 : 0] *)
Definition percentOf (part total : nat) : float :=
  if (0 <? total)%nat
  then PrimFloat.mul (PrimFloat.div (lengthNumber part) (lengthNumber total)) 100%float
  else 0%float.

(** [v && v !== '' && v !== 'null'] as a condition. *)
Definition hasRedfinId (v : value) : bool :=
  truthy v && negb (strictEq v (Str "")) && negb (strictEq v (Str "null")).

(** The summaries that [checkStateCoverage] returns, one shape per
    branch. *)
Inductive Coverage : Type :=
| NotLoaded (reason : string)
| ZipCoverage (available : bool) (total withRedfin : nat) (redfinPercent : float)
    (quality : string)
| CountyCoverage (available : bool) (total withRedfin : nat) (redfinPercent : float)
| TractCoverage (available : bool) (total : nat).

Definition checkStateCoverage (stateAbbrev level : string) (w : World) : Coverage :=
  match stateIndexCache w !! stateAbbrev with
  | None => NotLoaded "Indexes not loaded - call loadStateIndexes first"
  | Some stateData =>
      if String.eqb level "zip" then
        let totalZips := length (zips stateData) in
        let zipsWithRedfin :=
          length (List.filter (λ row, hasRedfinId (get row "redfin_tableid_zip"))
                              (zips stateData)) in
        let redfinPercent := percentOf zipsWithRedfin totalZips in
        ZipCoverage (0 <? totalZips)%nat totalZips zipsWithRedfin redfinPercent
          (if PrimFloat.ltb 60%float redfinPercent then "excellent"
           else if PrimFloat.ltb 30%float redfinPercent then "good"
           else "limited")
      else if String.eqb level "county" then
        let totalCounties := length (counties stateData) in
        let countiesWithRedfin :=
          length (List.filter (λ row, hasRedfinId (get row "table_id"))
                              (counties stateData)) in
        CountyCoverage (0 <? totalCounties)%nat totalCounties countiesWithRedfin
          (percentOf countiesWithRedfin totalCounties)
      else
        TractCoverage (0 <? length (tracts stateData))%nat (length (tracts stateData))
  end.

End IndexManager.

(** ** Column selections: county identifier variations *)

Module ColumnSelections.
Import JS.

(** [[...new Set(variations)]]: first occurrences, in order. *)
Fixpoint uniqueInto (seen l : list string) : list string :=
  match l with
  | [] => seen
  | x :: l' =>
      if bool_decide (x ∈ seen) then uniqueInto seen l'
      else uniqueInto (seen ++ [x])%list l'
  end.

(** [addStatePrefix] is [None] when the argument is omitted.  Past the
    guard [id] is truthy, so its [toString()] is defined. *)
Definition normalizeCountyId (id : value) (addStatePrefix : option string)
    : list string :=
  if negb (truthy id) then []
  else
    let idStr := trim (coerceToString id) in
    let v0 := [idStr] in
    let v1 :=
      match addStatePrefix with
      | Some p =>
          if (String.length idStr =? 3)%nat && truthy (Str p)
          then (v0 ++ [p +:+ idStr])%list else v0
      | None => v0
      end in
    let v2 := if (String.length idStr =? 4)%nat
              then (v1 ++ ["0" +:+ idStr])%list else v1 in
    let v3 := if (String.length idStr =? 5)%nat
              then (v2 ++ [substringFrom 1 idStr])%list else v2 in
    uniqueInto [] v3.

(** *** Column tables

    A table indexed by a level or a source is a function of the index
    text; [None] stands for a missing property.  Names inherited from
    [Object.prototype] are not index texts of the model. *)


Definition CENSUS_MAP_SELECTIONS : list string :=
  [ "population_total";
    "housing_median_value"; "housing_ownership_rate"; "housing_occupancy_rate";
    "rental_median_rent";
    "employment_unemployment_rate"; "employment_labor_force_participation";
    "poverty_rate";
    "income_median" ].

Definition TRACT_MAP_SELECTIONS : list string :=
  [ "demographic_profile"; "population_description"; "predominant_race";
    "predominant_race_pct";
    "housing_occupancy_rate"; "vacancy_description"; "primary_building_type";
    "home_value_description";
    "income_level"; "unemployment_summary"; "poverty_summary"; "affordability";
    "employment_sector_summary";
    "rent_level"; "rental_2br"; "rental_3br";
    "education_level" ].

Definition REDFIN_MAP_SELECTIONS : list string :=
  [ "median_sale_price"; "median_list_price"; "median_ppsf";
    "homes_sold"; "pending_sales";
    "inventory"; "new_listings"; "median_dom";
    "avg_sale_to_list"; "months_of_supply" ].

Definition FRED_MAP_SELECTIONS : list string :=
  [ "gdp"; "per_capita_personal_income"; "people_poverty";
    "labor_participation"; "ump";
    "house_price_index"; "homeownership_rate";
    "bld_perm_units";
    "affordability_index" ].


Definition DATA_SOURCE_MAPPING (source : string) : option (list string) :=
  if String.eqb source "census" then Some CENSUS_MAP_SELECTIONS
  else if String.eqb source "redfin" then Some REDFIN_MAP_SELECTIONS
  else if String.eqb source "fred" then Some FRED_MAP_SELECTIONS
  else if String.eqb source "tract" then Some TRACT_MAP_SELECTIONS
  else None.


Definition getColumnsForDataSource (source : string) : list string :=
  default [] (DATA_SOURCE_MAPPING source).

(** [l.includes(x)] on texts. *)
Definition includesText (l : list string) (x : string) : bool :=
  existsb (String.eqb x) l.


(** *** Matching rules *)

Record MatchingRule : Type := {
  featureFields : list string;
  dataFields : list string
}.

Definition rule (f d : list string) : option MatchingRule :=
  Some {| featureFields := f; dataFields := d |}.

Definition zipRules (database : string) : option MatchingRule :=
  if String.eqb database "census"
  then rule ["ZIPCODE"; "GEOID"; "zip_code"] ["zip"; "zipcode"; "ZIPCODE"]
  else if String.eqb database "redfin"
  then rule ["redfin_tableid_zip"; "redfin_table_id_county"] ["table_id"]
  else if String.eqb database "fred"
  then rule ["state_county_code"; "STATE_FIPS"; "state_code"] ["state_fips"; "state_code"]
  else None.

Definition countyRules (database : string) : option MatchingRule :=
  if String.eqb database "census"
  then rule ["GEOID"; "COUNTYFP"; "NAMELSAD"] ["county"; "county_name"]
  else if String.eqb database "redfin"
  then rule ["redfin_table_id_county"; "table_id"; "region"] ["table_id"; "region"]
  else if String.eqb database "fred"
  then rule ["fred_county_fips"; "GEOID"; "NAMELSAD"]
            ["county_fips"; "fips_code"; "county_name"]
  else None.

Definition stateRules (database : string) : option MatchingRule :=
  if String.eqb database "census"
  then rule ["STUSPS"; "STATE"; "NAME"] ["state"; "state_name"; "state_fips"]
  else if String.eqb database "redfin"
  then rule ["state_code"; "STATE"] ["state_code"; "state"]
  else if String.eqb database "fred"
  then rule ["STATE_FIPS"; "STUSPS"] ["state_fips"; "state_code"]
  else None.

Definition tractRules (database : string) : option MatchingRule :=
  if String.eqb database "census"
  then rule ["geoid_tract_20_clean"; "GEOID"; "tract_str"; "TRACTCE"] ["GEOID"; "tract"]
  else if String.eqb database "redfin"
  then rule ["redfin_table_id_county"; "redfin_tableid_zip"] ["table_id"]
  else if String.eqb database "fred"
  then rule ["county_code_str"; "STATE_FIPS"; "state_code_str"]
            ["county_fips"; "state_fips"]
  else None.

(** [patterns[level]?.[database] || { featureFields: [], dataFields: [] }],
    for a level and a source that are not names the tables inherit
    ([Props.inheritedNames]): under such a name the source finds a
    function or an object instead of a rule, and [matchFeatureToData]
    throws on it. *)
Definition getDatabaseMatchingFields (level database : string) : MatchingRule :=
  let found :=
    if String.eqb level "zip" then zipRules database
    else if String.eqb level "county" then countyRules database
    else if String.eqb level "state" then stateRules database
    else if String.eqb level "tract" then tractRules database
    else None in
  default {| featureFields := []; dataFields := [] |} found.

(** The identifiers of a feature for a list of fields: the values that
    are set and not the empty text, as trimmed texts. *)
Definition featureIdsOf (fields : list string) (props : gmap string value)
    : list string :=
  List.map (λ id, trim (coerceToString id))
    (List.filter present (List.map (get props) fields)).

(** The test of one (feature id, data field) pair on a row in
    [matchFeatureToData]. *)
Definition pairMatches (level database : string) (row : gmap string value)
    (featureId dataField : string) : bool :=
  let dataValue := get row dataField in
  if notNullish dataValue then
    if String.eqb level "county" && String.eqb database "census"
       && String.eqb dataField "county"
    then
      let fullGeoId := coerceToString (get row "state")
                       +:+ padStart0 3 (coerceToString dataValue) in
      String.eqb fullGeoId featureId
    else String.eqb (trim (coerceToString dataValue)) featureId
  else false.

Definition rowMatches (level database : string) (rules : MatchingRule)
    (featureIds : list string) (row : gmap string value) : bool :=
  existsb (λ featureId,
             existsb (pairMatches level database row featureId) (dataFields rules))
          featureIds.

Definition matchFeatureToData (feature : IndexManager.Feature)
    (dataRecords : list (gmap string value)) (level database : string)
    : option (gmap string value) :=
  let matchingRules := getDatabaseMatchingFields level database in
  let props := IndexManager.properties feature in
  let featureIds := featureIdsOf (featureFields matchingRules) props in
  if (length featureIds =? 0)%nat then None
  else List.find (rowMatches level database matchingRules featureIds) dataRecords.

(** *** Tract features *)

Fixpoint firstPresent (fields : list string) (props : gmap string value)
    : option string :=
  match fields with
  | [] => None
  | field :: rest =>
      let value := get props field in
      if present value then Some (trim (coerceToString value))
      else firstPresent rest props
  end.

Definition extractTractFeatureId (feature : IndexManager.Feature) : option string :=
  let props := IndexManager.properties feature in
  match firstPresent ["geoid_tract_20_clean"; "GEOID"; "geoid"; "TRACTCE"; "tract_id"]
                     props with
  | Some id => Some id
  | None =>
      if truthy (get props "state") && truthy (get props "county")
         && truthy (get props "tract")
      then Some (padStart0 2 (coerceToString (get props "state"))
                 +:+ padStart0 3 (coerceToString (get props "county"))
                 +:+ padStart0 6 (coerceToString (get props "tract")))
      else None
  end.

(** The fallback test of [matchTractFeatureToData]. *)
Definition tractPartsMatch (props row : gmap string value) : bool :=
  if truthy (get row "state") && truthy (get row "county") && truthy (get row "tract")
     && truthy (get props "state") && truthy (get props "county")
     && truthy (get props "tract")
  then String.eqb (coerceToString (get row "state")) (coerceToString (get props "state"))
       && String.eqb (coerceToString (get row "county")) (coerceToString (get props "county"))
       && String.eqb (coerceToString (get row "tract")) (coerceToString (get props "tract"))
  else false.

Definition matchTractFeatureToData (feature : IndexManager.Feature)
    (dataRows : list (gmap string value)) : option (gmap string value) :=
  let props := IndexManager.properties feature in
  if (length dataRows =? 0)%nat then None
  else
    match extractTractFeatureId feature with
    | None => None
    | Some featureId =>
        if negb (truthy (Str featureId)) then None
        else
          match List.find (λ row, strictEq (get row "GEOID") (Str featureId)) dataRows with
          | Some matchingRow => Some matchingRow
          | None => List.find (tractPartsMatch props) dataRows
          end
    end.


End ColumnSelections.

(** ** The optimized loader: filters and census matching *)

Module Loader.
Import JS IndexManager ColumnSelections.

Record StateEntry : Type := { name : string; fredCode : string }.

Definition STATES : list (string * StateEntry) :=
  List.map (λ e, (e.1.1, {| name := e.1.2; fredCode := e.2 |}))
    [ ("AL", "Alabama", "01"); ("AK", "Alaska", "02"); ("AZ", "Arizona", "04");
      ("AR", "Arkansas", "05"); ("CA", "California", "06"); ("CO", "Colorado", "08");
      ("CT", "Connecticut", "09"); ("DE", "Delaware", "10"); ("FL", "Florida", "12");
      ("GA", "Georgia", "13"); ("HI", "Hawaii", "15"); ("ID", "Idaho", "16");
      ("IL", "Illinois", "17"); ("IN", "Indiana", "18"); ("IA", "Iowa", "19");
      ("KS", "Kansas", "20"); ("KY", "Kentucky", "21"); ("LA", "Louisiana", "22");
      ("ME", "Maine", "23"); ("MD", "Maryland", "24"); ("MA", "Massachusetts", "25");
      ("MI", "Michigan", "26"); ("MN", "Minnesota", "27"); ("MS", "Mississippi", "28");
      ("MO", "Missouri", "29"); ("MT", "Montana", "30"); ("NE", "Nebraska", "31");
      ("NV", "Nevada", "32"); ("NH", "New Hampshire", "33"); ("NJ", "New Jersey", "34");
      ("NM", "New Mexico", "35"); ("NY", "New York", "36");
      ("NC", "North Carolina", "37"); ("ND", "North Dakota", "38"); ("OH", "Ohio", "39");
      ("OK", "Oklahoma", "40"); ("OR", "Oregon", "41"); ("PA", "Pennsylvania", "42");
      ("RI", "Rhode Island", "44"); ("SC", "South Carolina", "45");
      ("SD", "South Dakota", "46"); ("TN", "Tennessee", "47"); ("TX", "Texas", "48");
      ("UT", "Utah", "49"); ("VT", "Vermont", "50"); ("VA", "Virginia", "51");
      ("WA", "Washington", "53"); ("WV", "West Virginia", "54");
      ("WI", "Wisconsin", "55"); ("WY", "Wyoming", "56") ].

Fixpoint lookupState (table : list (string * StateEntry)) (stateAbbrev : string)
    : option StateEntry :=
  match table with
  | [] => None
  | (k, e) :: rest => if String.eqb k stateAbbrev then Some e else lookupState rest stateAbbrev
  end.

(** [STATES[stateAbbrev]?.fredCode]: a text, or [undefined] for an
    abbreviation that is not in the table ([None] stands for an
    argument that was not passed). *)
Definition fredCodeOf (stateAbbrev : option string) : option string :=
  match stateAbbrev with
  | Some s => fredCode <$> lookupState STATES s
  | None => None
  end.

Definition fredCodeValue (stateAbbrev : option string) : value :=
  match fredCodeOf stateAbbrev with
  | Some code => Str code
  | None => Undefined
  end.



Definition essentialTypeIds : list string := ["-1"; "6"; "13"].

Definition filterRedfinByPropertyType (rawRedfinData : list Row) : list Row :=
  List.filter
    (λ record,
       match optToString (get record "property_type_id") with
       | Some propTypeId => includesText essentialTypeIds propTypeId
       | None => false
       end)
    rawRedfinData.



(** The four strategies of [smartStateFilter], in order. *)
Definition stateStrategies (stateAbbrev : string) : list (Row → bool) :=
  let stateFips := fredCodeValue (Some stateAbbrev) in
  [ λ row, strictEq (get row "state") stateFips;
    λ row, strictEq (get row "state_code") (Str stateAbbrev);
    λ row, strictEq (get row "state") (Str stateAbbrev);
    λ row, strictEq (get row "state_fips") stateFips ].

(** The loop over the strategies: the first non-empty selection is
    returned, and all the data when every selection is empty. *)
Fixpoint firstNonEmpty (strategies : list (Row → bool)) (data : list Row) : list Row :=
  match strategies with
  | [] => data
  | keep :: rest =>
      let filtered := List.filter keep data in
      if (0 <? length filtered)%nat then filtered else firstNonEmpty rest data
  end.

Definition smartStateFilter (data : list Row) (stateAbbrev level : string) : list Row :=
  if (length data =? 0)%nat then data
  else if String.eqb level "state" then data
  else firstNonEmpty (stateStrategies stateAbbrev) data.





(** *** Addresses of the datasets *)

Module Urls.
Record t : Type := { geoJson : string; census : string; fred : string; redfin : string }.
End Urls.

(** [buildOptimizedUrls]; [selectedViewMode] is [None] when the
    argument is not passed. *)
Definition buildOptimizedUrls (stateAbbrev level : string)
    (selectedViewMode : option string) : result Urls.t :=
  match lookupState STATES stateAbbrev with
  | None => Throw
  | Some state =>
      let fredUrl := BASE_URL +:+ "/fred/" +:+ stateAbbrev +:+ "/fred_counties_"
                     +:+ fredCode state +:+ ".json" in
      if String.eqb level "tract" then
        match selectedViewMode with
        | None => Throw
        | Some viewMode =>
            if negb (truthy (Str viewMode)) then Throw
            else
              Ok {| Urls.geoJson := BASE_URL +:+ "/geojson/" +:+ stateAbbrev
                                    +:+ "/tract.geojson";
                    Urls.census := BASE_URL +:+ "/census/" +:+ stateAbbrev
                                   +:+ "/tract/Cen_" +:+ name state +:+ "_tract_"
                                   +:+ viewMode +:+ "_2023_lean.json";
                    Urls.fred := fredUrl;
                    Urls.redfin :=
                      if String.eqb viewMode "county"
                      then BASE_URL +:+ "/redfin/" +:+ stateAbbrev +:+ "/redfin_"
                           +:+ stateAbbrev +:+ "_county.json"
                      else BASE_URL +:+ "/redfin/" +:+ stateAbbrev +:+ "/redfin_"
                           +:+ stateAbbrev +:+ "_zip.json" |}
        end
      else if String.eqb level "state" then
        Ok {| Urls.geoJson := BASE_URL +:+ "/geojson/" +:+ stateAbbrev +:+ "/state.geojson";
              Urls.census := BASE_URL +:+ "/census/" +:+ stateAbbrev +:+ "/Cen_"
                             +:+ name state +:+ "_state_2023_summary.json";
              Urls.fred := fredUrl;
              Urls.redfin := BASE_URL +:+ "/redfin/" +:+ stateAbbrev +:+ "/redfin_"
                             +:+ stateAbbrev +:+ "_county.json" |}
      else
        Ok {| Urls.geoJson := BASE_URL +:+ "/geojson/" +:+ stateAbbrev +:+ "/"
                              +:+ level +:+ ".geojson";
              Urls.census := BASE_URL +:+ "/census/" +:+ stateAbbrev +:+ "/Cen_"
                             +:+ name state +:+ "_" +:+ level +:+ "_2023_summary.json";
              Urls.fred := fredUrl;
              Urls.redfin := BASE_URL +:+ "/redfin/" +:+ stateAbbrev +:+ "/redfin_"
                             +:+ stateAbbrev +:+ "_" +:+ level +:+ ".json" |}
  end.

End Loader.

(** ** The unified data service *)

Module UnifiedData.
Import JS.

Record PropertyType : Type := { name : string; table_id : string }.

(** [Record<string, T>]: the entries in the order of
    [Object.entries]. *)
Abbreviation Entries T := (list (string * T)).

Module StateInfo.
Record t : Type := {
  state_code : string;
  property_types : Entries PropertyType;
  primary_table_id : Z
}.
End StateInfo.

Module CountyInfo.
Record t : Type := {
  county_name : string;
  state_code : string;
  property_types : Entries PropertyType;
  primary_table_id : Z;
  cities : list string;
  zip_codes : list string
}.
End CountyInfo.

Module CityInfo.
Record t : Type := {
  city_name : string;
  state_code : string;
  property_types : Entries PropertyType;
  primary_table_id : Z
}.
End CityInfo.

Module ZipInfo.
Record t : Type := {
  zip_code : string;
  state_code : string;
  property_types : Entries PropertyType;
  primary_table_id : Z
}.
End ZipInfo.

(** The taxonomy; [metadata], [search_terms] and the top-level
    [property_types], which the builder does not read, are left out. *)
Module RedfInMasterIndex.
Record t : Type := {
  states : Entries StateInfo.t;
  counties : Entries CountyInfo.t;
  cities : Entries CityInfo.t;
  zip_codes : Entries ZipInfo.t
}.
End RedfInMasterIndex.

(** A flat record.  The interface declares [zipcode] a text, and the
    substitute records hold texts; the records that [initialize] loads
    come from [Papa.parse] with [dynamicTyping: true], which delivers a
    cell that reads as a number as a number.  The field is therefore a
    value; the other fields are as the interface declares them. *)
Module ZipMasterRecord.
Record t : Type := {
  zipcode : value;
  state_code : string;
  state_name : string;
  data_source : string;
  has_census_data : bool;
  has_redfin_data : bool;
  has_geometry : bool;
  geojson_file : string;
  data_file : string;
  redfin_tableid_zip : option Z;
  redfin_table_id_city : option Z;
  redfin_table_id_county : option Z;
  redfin_city : option string;
  census_city : option string;
  parent_metro_region : option string;
  parent_metro_region_metro_code : option Z;
  redfin_county_name : option string;
  region_type_id : option Z;
  INTPTLAT : float;
  INTPTLON : float;
  ALAND : float;
  AWATER : float
}.
End ZipMasterRecord.

Record HasData : Type := { census : bool; redfin : bool; geometry : bool }.

Record UnifiedLocation : Type := {
  zipCode : option string;
  stateCode : string;
  stateName : string;
  propertyTypes : Entries PropertyType;
  primaryTableId : Z;
  hierarchicalPath : string;
  coordinates : float * float;
  geoJsonFile : option string;
  dataFile : option string;
  hasData : HasData;
  landArea : option float;
  waterArea : option float;
  metroRegion : option string;
  dataSource : option string;
  parentCounty : option string;
  parentState : option string;
  childCities : option (list string);
  childZips : option (list value)
}.

(** *** A [Map] in insertion order *)

Abbreviation LocationMap := (list (string * UnifiedLocation)).

(** [Map.prototype.set]: an existing key keeps its position. *)
Fixpoint mapSet {V} (k : string) (v : V) (m : list (string * V)) : list (string * V) :=
  match m with
  | [] => [(k, v)]
  | (k', v') :: m' =>
      if String.eqb k k' then (k, v) :: m' else (k', v') :: mapSet k v m'
  end.

Fixpoint mapGet {V} (k : string) (m : list (string * V)) : option V :=
  match m with
  | [] => None
  | (k', v') :: m' => if String.eqb k k' then Some v' else mapGet k m'
  end.

Definition mapValues {V} (m : list (string * V)) : list V := List.map snd m.

(** A [Map] whose keys are values of any type; keys are compared with
    SameValueZero. *)
Fixpoint valueMapSet {V} (k : value) (v : V) (m : list (value * V)) : list (value * V) :=
  match m with
  | [] => [(k, v)]
  | (k', v') :: m' =>
      if sameValueZero k k' then (k, v) :: m' else (k', v') :: valueMapSet k v m'
  end.

Fixpoint valueMapGet {V} (k : value) (m : list (value * V)) : option V :=
  match m with
  | [] => None
  | (k', v') :: m' => if sameValueZero k k' then Some v' else valueMapGet k m'
  end.

(** [l.forEach(f)] where [f] updates the state [S]. *)
Definition forEach {A S} (l : list A) (f : A → S → S) (s : S) : S :=
  fold_left (λ acc x, f x acc) l s.

(** *** The service *)

Record Service : Type := {
  redfInIndex : option RedfInMasterIndex.t;
  zipMasterData : list ZipMasterRecord.t;
  unifiedLookup : LocationMap;
  isLoaded : bool
}.

Definition newService : Service :=
  {| redfInIndex := None; zipMasterData := []; unifiedLookup := []; isLoaded := false |}.

Fixpoint stateNameIn (entries : Entries StateInfo.t) (stateCode : string) : string :=
  match entries with
  | [] => stateCode
  | (stateName, stateInfo) :: rest =>
      if String.eqb (StateInfo.state_code stateInfo) stateCode then stateName
      else stateNameIn rest stateCode
  end.

Definition getStateName (s : Service) (stateCode : string) : string :=
  match redfInIndex s with
  | None => stateCode
  | Some idx => stateNameIn (RedfInMasterIndex.states idx) stateCode
  end.

Definition coordinatesOf (repZip : option ZipMasterRecord.t) : float * float :=
  match repZip with
  | Some z => (ZipMasterRecord.INTPTLAT z, ZipMasterRecord.INTPTLON z)
  | None => (0%float, 0%float)
  end.

(** Availability over a set of records: [some] on each flag. *)
Definition hasDataOf (zs : list ZipMasterRecord.t) : HasData :=
  {| census := existsb ZipMasterRecord.has_census_data zs;
     redfin := existsb ZipMasterRecord.has_redfin_data zs;
     geometry := existsb ZipMasterRecord.has_geometry zs |}.

(** [name.toLowerCase().split(",")[0]] *)
Definition firstSegmentLower (name : string) : string :=
  hd "" (split "," (toLowerCase name)).

(** [field?.toLowerCase().includes(needle)] as a condition. *)
Definition optIncludes (field : option string) (needle : string) : bool :=
  match field with
  | Some f => includes needle (toLowerCase f)
  | None => false
  end.

Definition processState (s : Service) (entry : string * StateInfo.t)
    (m : LocationMap) : LocationMap :=
  let '(stateName, stateInfo) := entry in
  let stateKey := "state:" +:+ StateInfo.state_code stateInfo in
  let stateZips :=
    List.filter (λ z, String.eqb (ZipMasterRecord.state_code z)
                                 (StateInfo.state_code stateInfo))
                (zipMasterData s) in
  let repZip := head stateZips in
  let unifiedState :=
    {| zipCode := None;
       stateCode := StateInfo.state_code stateInfo;
       stateName := stateName;
       propertyTypes := StateInfo.property_types stateInfo;
       primaryTableId := StateInfo.primary_table_id stateInfo;
       hierarchicalPath := stateName;
       coordinates := coordinatesOf repZip;
       geoJsonFile := None; dataFile := None;
       hasData := hasDataOf stateZips;
       landArea := None; waterArea := None; metroRegion := None;
       dataSource := None; parentCounty := None; parentState := None;
       childCities := None;
       childZips := Some (List.map ZipMasterRecord.zipcode stateZips) |} in
  mapSet stateKey unifiedState m.

Definition processCounty (s : Service) (entry : string * CountyInfo.t)
    (m : LocationMap) : LocationMap :=
  let '(countyKey, countyInfo) := entry in
  let unifiedCountyKey := "county:" +:+ countyKey in
  let countyZips :=
    List.filter
      (λ z, String.eqb (ZipMasterRecord.state_code z) (CountyInfo.state_code countyInfo)
            && match ZipMasterRecord.redfin_county_name z with
               | Some n =>
                   truthy (Str n)
                   && includes (firstSegmentLower (CountyInfo.county_name countyInfo))
                               (toLowerCase n)
               | None => false
               end)
      (zipMasterData s) in
  let repZip := head countyZips in
  let stateName := getStateName s (CountyInfo.state_code countyInfo) in
  let unifiedCounty :=
    {| zipCode := None;
       stateCode := CountyInfo.state_code countyInfo;
       stateName := stateName;
       propertyTypes := CountyInfo.property_types countyInfo;
       primaryTableId := CountyInfo.primary_table_id countyInfo;
       hierarchicalPath := stateName +:+ " > " +:+ CountyInfo.county_name countyInfo;
       coordinates := coordinatesOf repZip;
       geoJsonFile := None; dataFile := None;
       hasData := hasDataOf countyZips;
       landArea := None; waterArea := None; metroRegion := None;
       dataSource := None; parentCounty := None;
       parentState := Some stateName;
       childCities := Some (CountyInfo.cities countyInfo);
       childZips := Some (List.map ZipMasterRecord.zipcode countyZips) |} in
  mapSet unifiedCountyKey unifiedCounty m.

Definition processCity (s : Service) (entry : string * CityInfo.t)
    (m : LocationMap) : LocationMap :=
  let '(cityKey, cityInfo) := entry in
  let unifiedCityKey := "city:" +:+ cityKey in
  let needle := firstSegmentLower (CityInfo.city_name cityInfo) in
  let cityZips :=
    List.filter
      (λ z, String.eqb (ZipMasterRecord.state_code z) (CityInfo.state_code cityInfo)
            && (optIncludes (ZipMasterRecord.redfin_city z) needle
                || optIncludes (ZipMasterRecord.census_city z) needle))
      (zipMasterData s) in
  let repZip := head cityZips in
  let stateName := getStateName s (CityInfo.state_code cityInfo) in
  let unifiedCity :=
    {| zipCode := None;
       stateCode := CityInfo.state_code cityInfo;
       stateName := stateName;
       propertyTypes := CityInfo.property_types cityInfo;
       primaryTableId := CityInfo.primary_table_id cityInfo;
       hierarchicalPath := stateName +:+ " > " +:+ CityInfo.city_name cityInfo;
       coordinates := coordinatesOf repZip;
       geoJsonFile := None; dataFile := None;
       hasData := hasDataOf cityZips;
       landArea := None; waterArea := None; metroRegion := None;
       dataSource := None; parentCounty := None;
       parentState := Some stateName;
       childCities := None;
       childZips := Some (List.map ZipMasterRecord.zipcode cityZips) |} in
  mapSet unifiedCityKey unifiedCity m.

(** The location built for one zip node, given the record found for
    it in the auxiliary map. *)
Definition unifiedZipOf (s : Service) (zipCode : string) (zipInfo : ZipInfo.t)
    (zipMasterRecord : option ZipMasterRecord.t) : UnifiedLocation :=
  let stateName := getStateName s (ZipInfo.state_code zipInfo) in
  {| zipCode := Some zipCode;
     stateCode := ZipInfo.state_code zipInfo;
     stateName := stateName;
     propertyTypes := ZipInfo.property_types zipInfo;
     primaryTableId := ZipInfo.primary_table_id zipInfo;
     hierarchicalPath := stateName +:+ " > " +:+ zipCode;
     coordinates := coordinatesOf zipMasterRecord;
     geoJsonFile := ZipMasterRecord.geojson_file <$> zipMasterRecord;
     dataFile := ZipMasterRecord.data_file <$> zipMasterRecord;
     hasData :=
       {| census := from_option ZipMasterRecord.has_census_data false zipMasterRecord;
          redfin := from_option ZipMasterRecord.has_redfin_data false zipMasterRecord;
          geometry := from_option ZipMasterRecord.has_geometry false zipMasterRecord |};
     landArea := ZipMasterRecord.ALAND <$> zipMasterRecord;
     waterArea := ZipMasterRecord.AWATER <$> zipMasterRecord;
     metroRegion := zipMasterRecord ≫= ZipMasterRecord.parent_metro_region;
     dataSource := ZipMasterRecord.data_source <$> zipMasterRecord;
     parentCounty := zipMasterRecord ≫= ZipMasterRecord.redfin_county_name;
     parentState := Some stateName;
     childCities := None;
     childZips := None |}.

Definition processZip (s : Service) (zipLookup : list (value * ZipMasterRecord.t))
    (entry : string * ZipInfo.t) (m : LocationMap) : LocationMap :=
  let '(zipCode, zipInfo) := entry in
  let zipMasterRecord := valueMapGet (Str zipCode) zipLookup in
  let unifiedZipKey := "zip:" +:+ zipCode in
  mapSet unifiedZipKey (unifiedZipOf s zipCode zipInfo zipMasterRecord) m.

(** The auxiliary map, keyed by the [zipcode] of each flat record. *)
Definition buildZipLookup (records : list ZipMasterRecord.t)
    : list (value * ZipMasterRecord.t) :=
  forEach records (λ record m, valueMapSet (ZipMasterRecord.zipcode record) record m) [].

Definition buildUnifiedLookup (s : Service) : Service :=
  match redfInIndex s with
  | None => s
  | Some idx =>
      let zipLookup := buildZipLookup (zipMasterData s) in
      let m0 := unifiedLookup s in
      let m1 := forEach (RedfInMasterIndex.states idx) (processState s) m0 in
      let m2 := forEach (RedfInMasterIndex.counties idx) (processCounty s) m1 in
      let m3 := forEach (RedfInMasterIndex.cities idx) (processCity s) m2 in
      let m4 := forEach (RedfInMasterIndex.zip_codes idx) (processZip s zipLookup) m3 in
      {| redfInIndex := redfInIndex s;
         zipMasterData := zipMasterData s;
         unifiedLookup := m4;
         isLoaded := isLoaded s |}
  end.

(** *** The substitute data of [initializeMockData] *)

Definition sfr (id : string) : string * PropertyType :=
  ("SFR", {| name := "Single Family Residential"; table_id := id |}).

Definition con (id : string) : string * PropertyType :=
  ("CON", {| name := "Condominiums"; table_id := id |}).

Definition mockStates : Entries StateInfo.t :=
  [ ("California",
     {| StateInfo.state_code := "CA";
        StateInfo.property_types := [sfr "1001"; con "1002"];
        StateInfo.primary_table_id := 1001 |});
    ("Nevada",
     {| StateInfo.state_code := "NV";
        StateInfo.property_types := [sfr "2001"; con "2002"];
        StateInfo.primary_table_id := 2001 |});
    ("Massachusetts",
     {| StateInfo.state_code := "MA";
        StateInfo.property_types := [sfr "3001"; con "3002"];
        StateInfo.primary_table_id := 3001 |}) ].

Definition mockCounties : Entries CountyInfo.t :=
  [ ("Los Angeles County, CA",
     {| CountyInfo.county_name := "Los Angeles County";
        CountyInfo.state_code := "CA";
        CountyInfo.property_types := [sfr "1101"];
        CountyInfo.primary_table_id := 1101;
        CountyInfo.cities := ["Los Angeles"; "Beverly Hills"];
        CountyInfo.zip_codes := ["90210"; "90001"] |});
    ("Clark County, NV",
     {| CountyInfo.county_name := "Clark County";
        CountyInfo.state_code := "NV";
        CountyInfo.property_types := [sfr "2101"];
        CountyInfo.primary_table_id := 2101;
        CountyInfo.cities := ["Las Vegas"; "Henderson"];
        CountyInfo.zip_codes := ["89101"; "89102"] |});
    ("Suffolk County, MA",
     {| CountyInfo.county_name := "Suffolk County";
        CountyInfo.state_code := "MA";
        CountyInfo.property_types := [sfr "3101"];
        CountyInfo.primary_table_id := 3101;
        CountyInfo.cities := ["Boston"];
        CountyInfo.zip_codes := ["02101"; "02102"] |}) ].

Definition mockCities : Entries CityInfo.t :=
  [ ("Los Angeles, CA",
     {| CityInfo.city_name := "Los Angeles";
        CityInfo.state_code := "CA";
        CityInfo.property_types := [sfr "1201"];
        CityInfo.primary_table_id := 1201 |});
    ("Las Vegas, NV",
     {| CityInfo.city_name := "Las Vegas";
        CityInfo.state_code := "NV";
        CityInfo.property_types := [sfr "2201"];
        CityInfo.primary_table_id := 2201 |});
    ("Boston, MA",
     {| CityInfo.city_name := "Boston";
        CityInfo.state_code := "MA";
        CityInfo.property_types := [sfr "3201"];
        CityInfo.primary_table_id := 3201 |}) ].

(** [Object.entries] lists the integer-like keys ["89101"] and
    ["90210"] first, in ascending order, and then ["02101"], which is
    an ordinary string key because of its leading zero. *)
Definition mockZipCodes : Entries ZipInfo.t :=
  [ ("89101",
     {| ZipInfo.zip_code := "89101";
        ZipInfo.state_code := "NV";
        ZipInfo.property_types := [sfr "89101001"];
        ZipInfo.primary_table_id := 89101001 |});
    ("90210",
     {| ZipInfo.zip_code := "90210";
        ZipInfo.state_code := "CA";
        ZipInfo.property_types := [sfr "90210001"];
        ZipInfo.primary_table_id := 90210001 |});
    ("02101",
     {| ZipInfo.zip_code := "02101";
        ZipInfo.state_code := "MA";
        ZipInfo.property_types := [sfr "02101001"];
        ZipInfo.primary_table_id := 2101001 |}) ].

Definition mockIndex : RedfInMasterIndex.t :=
  {| RedfInMasterIndex.states := mockStates;
     RedfInMasterIndex.counties := mockCounties;
     RedfInMasterIndex.cities := mockCities;
     RedfInMasterIndex.zip_codes := mockZipCodes |}.

Definition mockRecord (zipcode state_code state_name city county : string)
    (lat lon aland awater : float) : ZipMasterRecord.t :=
  {| ZipMasterRecord.zipcode := Str zipcode;
     ZipMasterRecord.state_code := state_code;
     ZipMasterRecord.state_name := state_name;
     ZipMasterRecord.data_source := "mock";
     ZipMasterRecord.has_census_data := true;
     ZipMasterRecord.has_redfin_data := true;
     ZipMasterRecord.has_geometry := true;
     ZipMasterRecord.geojson_file := "/mock/" +:+ zipcode +:+ ".geojson";
     ZipMasterRecord.data_file := "/mock/" +:+ zipcode +:+ "_data.json";
     ZipMasterRecord.redfin_tableid_zip := None;
     ZipMasterRecord.redfin_table_id_city := None;
     ZipMasterRecord.redfin_table_id_county := None;
     ZipMasterRecord.redfin_city := Some city;
     ZipMasterRecord.census_city := Some city;
     ZipMasterRecord.parent_metro_region := None;
     ZipMasterRecord.parent_metro_region_metro_code := None;
     ZipMasterRecord.redfin_county_name := Some county;
     ZipMasterRecord.region_type_id := None;
     ZipMasterRecord.INTPTLAT := lat;
     ZipMasterRecord.INTPTLON := lon;
     ZipMasterRecord.ALAND := aland;
     ZipMasterRecord.AWATER := awater |}.

#[warnings="-inexact-float"]
Definition mockZipMasterData : list ZipMasterRecord.t :=
  [ mockRecord "90210" "CA" "California" "Beverly Hills" "Los Angeles County"
      34.0901%float (-118.4065)%float 14000000%float 0%float;
    mockRecord "89101" "NV" "Nevada" "Las Vegas" "Clark County"
      36.1699%float (-115.1398)%float 25000000%float 0%float;
    mockRecord "02101" "MA" "Massachusetts" "Boston" "Suffolk County"
      42.3601%float (-71.0589)%float 5000000%float 1000000%float ].

Definition initializeMockData (s : Service) : Service :=
  buildUnifiedLookup
    {| redfInIndex := Some mockIndex;
       zipMasterData := mockZipMasterData;
       unifiedLookup := unifiedLookup s;
       isLoaded := isLoaded s |}.

Definition setLoaded (s : Service) : Service :=
  {| redfInIndex := redfInIndex s;
     zipMasterData := zipMasterData s;
     unifiedLookup := unifiedLookup s;
     isLoaded := true |}.

(** [initialize]: [redfinFound] and [zipFound] are the two answers of
    [checkDataFiles]; [redfinFile] and [zipFile] are the outcomes of
    fetching and parsing each file, [Throw] standing for any failure
    inside the corresponding inner [try], which the code rethrows to
    the outer [catch]. *)
Definition initialize (redfinFound zipFound : bool)
    (redfinFile : result RedfInMasterIndex.t)
    (zipFile : result (list ZipMasterRecord.t)) (s : Service) : Service :=
  if negb redfinFound && negb zipFound then setLoaded (initializeMockData s)
  else
    let loaded :=
      bind (if redfinFound
            then bind redfinFile (λ idx,
                 Ok {| redfInIndex := Some idx;
                       zipMasterData := zipMasterData s;
                       unifiedLookup := unifiedLookup s;
                       isLoaded := isLoaded s |})
            else Ok s) (λ s1,
      bind (if zipFound
            then bind zipFile (λ data,
                 Ok {| redfInIndex := redfInIndex s1;
                       zipMasterData := data;
                       unifiedLookup := unifiedLookup s1;
                       isLoaded := isLoaded s1 |})
            else Ok s1) (λ s2,
      Ok (setLoaded (buildUnifiedLookup s2)))) in
    match loaded with
    | Ok s' => s'
    | Throw => setLoaded (initializeMockData s)
    end.

(** *** Queries *)

Definition ensureLoaded (s : Service) : result unit :=
  if isLoaded s then Ok tt else Throw.

(** [Array.prototype.sort] as a stable insertion sort; the comparator
    returns a negative, zero or positive number. *)
Fixpoint insertBy {A} (cmp : A → A → Z) (x : A) (l : list A) : list A :=
  match l with
  | [] => [x]
  | y :: l' => if cmp x y <=? 0 then x :: y :: l' else y :: insertBy cmp x l'
  end.

Definition sortBy {A} (cmp : A → A → Z) (l : list A) : list A :=
  fold_right (insertBy cmp) [] l.

Definition pathSegments (loc : UnifiedLocation) : list string :=
  split " > " (hierarchicalPath loc).

Definition zipCodeSet (loc : UnifiedLocation) : bool :=
  match zipCode loc with
  | Some z => truthy (Str z)
  | None => false
  end.

(** The [type] computed for each location by [getStats]. *)
Definition locationType (loc : UnifiedLocation) : string :=
  let parts := pathSegments loc in
  if (length parts =? 1)%nat then "state"
  else if (length parts =? 2)%nat && zipCodeSet loc then "zip"
  else if (length parts =? 2)%nat && includes "County" (nth 1 parts "")
  then "county"
  else "city".

Section Queries.
(** [String.prototype.localeCompare], supplied by the host. *)
Variable localeCompare : string → string → Z.

Definition byPath (a b : UnifiedLocation) : Z :=
  localeCompare (hierarchicalPath a) (hierarchicalPath b).

Definition getStates (s : Service) : result (list UnifiedLocation) :=
  bind (ensureLoaded s) (λ _,
  Ok (sortBy (λ a b, localeCompare (stateName a) (stateName b))
        (List.filter (λ loc, (length (pathSegments loc) =? 1)%nat)
                     (mapValues (unifiedLookup s))))).


Definition getCitiesInState (s : Service) (stateCode' : string)
    : result (list UnifiedLocation) :=
  bind (ensureLoaded s) (λ _,
  Ok (sortBy byPath
        (List.filter
           (λ loc, String.eqb (stateCode loc) stateCode'
                   && (length (pathSegments loc) =? 2)%nat
                   && negb (includes "County" (hierarchicalPath loc)))
           (mapValues (unifiedLookup s))))).

End Queries.

Definition findByZip (s : Service) (zipCode' : string) : result (option UnifiedLocation) :=
  bind (ensureLoaded s) (λ _, Ok (mapGet ("zip:" +:+ zipCode') (unifiedLookup s))).

(** [searchLocations]; [loc.zipCode?.includes(query)] is [undefined]
    for a location without zip code. *)
Definition searchLocations (localeCompare : string → string → Z) (s : Service)
    (query : string) : result (list UnifiedLocation) :=
  bind (ensureLoaded s) (λ _,
  let lowerQuery := toLowerCase query in
  Ok (take 50
        (sortBy (byPath localeCompare)
           (List.filter
              (λ loc, includes lowerQuery (toLowerCase (hierarchicalPath loc))
                      || match zipCode loc with
                         | Some z => includes query z
                         | None => false
                         end)
              (mapValues (unifiedLookup s)))))).

Record DataLoadingInfo : Type := {
  geoJsonUrl : option string;
  dataUrl : option string;
  tableId : Z;
  hasRequiredData : bool
}.

Definition getDataLoadingInfo (location : UnifiedLocation) : DataLoadingInfo :=
  {| geoJsonUrl := geoJsonFile location;
     dataUrl := dataFile location;
     tableId := primaryTableId location;
     hasRequiredData :=
       geometry (hasData location)
       && (census (hasData location) || redfin (hasData location)) |}.

(** [counts[key] = (counts[key] || 0) + 1], for a key that a plain object
    does not inherit. *)
Definition bump (key : string) (counts : gmap string nat) : gmap string nat :=
  <[key := (default O (counts !! key) + 1)%nat]> counts.

Record Stats : Type := {
  totalLocations : nat;
  byType : gmap string nat;
  byState : gmap string nat;
  withGeometry : nat;
  withCensus : nat;
  withRedfin : nat
}.

(** One iteration of the loop of [getStats]. *)
Definition countLocation (loc : UnifiedLocation) (acc : Stats) : Stats :=
  {| totalLocations := totalLocations acc;
     byType := bump (locationType loc) (byType acc);
     byState := bump (stateCode loc) (byState acc);
     withGeometry := if geometry (hasData loc) then S (withGeometry acc)
                     else withGeometry acc;
     withCensus := if census (hasData loc) then S (withCensus acc)
                   else withCensus acc;
     withRedfin := if redfin (hasData loc) then S (withRedfin acc)
                   else withRedfin acc |}.

Definition getStats (s : Service) : result Stats :=
  bind (ensureLoaded s) (λ _,
  let locations := mapValues (unifiedLookup s) in
  Ok (forEach locations countLocation
        {| totalLocations := length locations;
           byType := ∅; byState := ∅;
           withGeometry := O; withCensus := O; withRedfin := O |})).


End UnifiedData.

(** ** Vocabulary of the statements *)

Module Props.
Import JS IndexManager UnifiedData.

(** A string made of decimal digits only. *)
Fixpoint allDigits (s : string) : bool :=
  match s with
  | EmptyString => true
  | String c s' => isDigit c && allDigits s'
  end.

Definition fiveDigits (s : string) : Prop :=
  String.length s = 5%nat ∧ allDigits s = true.

(** [p] is false, without throwing, on every row of [l]. *)
Definition noMatch {A} (p : A → result bool) (l : list A) : Prop :=
  Forall (λ x, p x = Ok false) l.

(** [r] is the first row of [l], in array order, on which [p] is
    true, and [p] is false without throwing on the rows before it. *)
Definition firstMatch {A} (p : A → result bool) (l : list A) (r : A) : Prop :=
  ∃ before after, l = before ++ r :: after ∧ noMatch p before ∧ p r = Ok true.

(** The ways in which the load of one index file fails. *)
Inductive LoadFails : FetchOutcome → Prop :=
| fails_rejected : LoadFails Rejected
| fails_status r : ok r = false → LoadFails (Resolved r)
| fails_body r : text r = Throw → LoadFails (Resolved r)
| fails_parse r csvText :
    text r = Ok csvText → parseCSV csvText = Throw → LoadFails (Resolved r).

(** The writes of one run of the builder, in the order in which the
    four loops perform them. *)
Definition applyWrites {V} (ws : list (string * V)) (m : list (string * V))
    : list (string * V) :=
  fold_left (λ acc w, mapSet (fst w) (snd w) acc) ws m.

Definition stateWrite (s : Service) (e : string * StateInfo.t) :=
  processState s e [].
Definition countyWrite (s : Service) (e : string * CountyInfo.t) :=
  processCounty s e [].
Definition cityWrite (s : Service) (e : string * CityInfo.t) :=
  processCity s e [].
Definition zipWrite (s : Service) (e : string * ZipInfo.t) :=
  processZip s (buildZipLookup (zipMasterData s)) e [].

Definition writesOf (s : Service) (idx : RedfInMasterIndex.t)
    : list (string * UnifiedLocation) :=
  concat (List.map (stateWrite s) (RedfInMasterIndex.states idx))
  ++ concat (List.map (countyWrite s) (RedfInMasterIndex.counties idx))
  ++ concat (List.map (cityWrite s) (RedfInMasterIndex.cities idx))
  ++ concat (List.map (zipWrite s) (RedfInMasterIndex.zip_codes idx)).

(** The last value written for [k] by [ws], if any. *)
Fixpoint lastWrite {V} (k : string) (ws : list (string * V)) : option V :=
  match ws with
  | [] => None
  | (k', v) :: ws' =>
      match lastWrite k ws' with
      | Some v' => Some v'
      | None => if String.eqb k k' then Some v else None
      end
  end.

(** What [loadStateCSV] returns for a given outcome of its request. *)
Definition rowsOf (o : FetchOutcome) : list Row :=
  match loadStateCSV_try o with
  | Ok rows => rows
  | Throw => []
  end.

(** The three addresses requested for a state, in request order. *)
Definition indexUrls (stateAbbrev : string) : list string :=
  [csvUrl stateAbbrev "county"; csvUrl stateAbbrev "zip"; csvUrl stateAbbrev "tract"].

(** The test applied by [filterRedfinByRelevantIds] to each record. *)
Definition relevant (relevantIds : list number) (record : Row) : bool :=
  arrayIncludes relevantIds (parseInt (get record "table_id")).

(** A process that has loaded nothing yet. *)
Definition freshWorld : World :=
  {| stateIndexCache := ∅; requests := []; clockReads := O |}.

(** A county index of two rows; the first row's name holds the text
    "001", the second row's county code is "001". *)
Definition sampleCountyCsv : string :=
  "GEOID,COUNTYFP,NAME,table_id" +:+ newline
  +:+ "6003,003,Tract 001 County,111" +:+ newline
  +:+ "6001,001,Alameda County,222".

(** A host that serves the county index of California and answers 404
    to every other request; its clock advances 5 ms per reading. *)
Definition sampleHost : Host :=
  {| fetch := λ _ url,
       if String.eqb url (csvUrl "CA" "county")
       then Resolved {| ok := true; status := 200; text := Ok sampleCountyCsv |}
       else Resolved {| ok := false; status := 404; text := Ok "" |};
     performance_now := λ n, 5 * Z.of_nat n |}.

Definition sampleWorld : World :=
  snd (loadStateIndexes sampleHost "CA" None freshWorld).

Definition sampleEntry (t : Z) : StateIndexCacheEntry :=
  {| counties := []; zips := []; tracts := []; loadTime := t |}.

Definition sampleStateData : StateIndexCacheEntry :=
  default (sampleEntry 0) (stateIndexCache sampleWorld !! "CA").

Definition sampleCounties : list Row := counties sampleStateData.

(** A cache holding two states. *)
Definition twoStateWorld : World :=
  {| stateIndexCache := <["CA" := sampleEntry 7]> (<["NV" := sampleEntry 12]> ∅);
     requests := indexUrls "NV" ++ indexUrls "CA";
     clockReads := 6 |}.

(** A service holding the substitute taxonomy and records, before the
    builder runs. *)
Definition mockInputs : Service :=
  {| redfInIndex := Some mockIndex;
     zipMasterData := mockZipMasterData;
     unifiedLookup := [];
     isLoaded := false |}.

(** A flat record as the parser delivers it with dynamic typing: the
    zip code cell, which reads as a number, is the number [code]. *)
Definition parsedRecord (code : Z) (r : ZipMasterRecord.t) : ZipMasterRecord.t :=
  {| ZipMasterRecord.zipcode := Num (Int code);
     ZipMasterRecord.state_code := ZipMasterRecord.state_code r;
     ZipMasterRecord.state_name := ZipMasterRecord.state_name r;
     ZipMasterRecord.data_source := ZipMasterRecord.data_source r;
     ZipMasterRecord.has_census_data := ZipMasterRecord.has_census_data r;
     ZipMasterRecord.has_redfin_data := ZipMasterRecord.has_redfin_data r;
     ZipMasterRecord.has_geometry := ZipMasterRecord.has_geometry r;
     ZipMasterRecord.geojson_file := ZipMasterRecord.geojson_file r;
     ZipMasterRecord.data_file := ZipMasterRecord.data_file r;
     ZipMasterRecord.redfin_tableid_zip := ZipMasterRecord.redfin_tableid_zip r;
     ZipMasterRecord.redfin_table_id_city := ZipMasterRecord.redfin_table_id_city r;
     ZipMasterRecord.redfin_table_id_county := ZipMasterRecord.redfin_table_id_county r;
     ZipMasterRecord.redfin_city := ZipMasterRecord.redfin_city r;
     ZipMasterRecord.census_city := ZipMasterRecord.census_city r;
     ZipMasterRecord.parent_metro_region := ZipMasterRecord.parent_metro_region r;
     ZipMasterRecord.parent_metro_region_metro_code :=
       ZipMasterRecord.parent_metro_region_metro_code r;
     ZipMasterRecord.redfin_county_name := ZipMasterRecord.redfin_county_name r;
     ZipMasterRecord.region_type_id := ZipMasterRecord.region_type_id r;
     ZipMasterRecord.INTPTLAT := ZipMasterRecord.INTPTLAT r;
     ZipMasterRecord.INTPTLON := ZipMasterRecord.INTPTLON r;
     ZipMasterRecord.ALAND := ZipMasterRecord.ALAND r;
     ZipMasterRecord.AWATER := ZipMasterRecord.AWATER r |}.

(** The substitute taxonomy with the three substitute records as they
    come out of a parsed file: the cells 90210, 89101 and 02101 are the
    numbers 90210, 89101 and 2101. *)
Definition parsedInputs : Service :=
  {| redfInIndex := Some mockIndex;
     zipMasterData :=
       List.map (λ cr, parsedRecord cr.1 cr.2)
                (zip [90210; 89101; 2101] mockZipMasterData);
     unifiedLookup := [];
     isLoaded := false |}.


(** What a cell of an index file can hold under a given header. *)
Definition csvValue (header : string) (v : value) : Prop :=
  if isNumericHeader header then v = Null ∨ ∃ n, v = Num n
  else ∃ s, v = Str s.

Definition csvTyped (row : Row) : Prop :=
  ∀ header v, row !! header = Some v → csvValue header v.

Definition typedEntry (e : StateIndexCacheEntry) : Prop :=
  Forall csvTyped (counties e) ∧ Forall csvTyped (zips e) ∧ Forall csvTyped (tracts e).

(** The states of the module that a process can be in: it starts with
    an empty cache, and the cache changes only through
    [loadStateIndexes] and [clearStateCache]. *)
Inductive Reachable (h : Host) : World → Prop :=
| reach_fresh : Reachable h freshWorld
| reach_load stateAbbrev level w :
    Reachable h w → Reachable h (snd (loadStateIndexes h stateAbbrev level w))
| reach_clear stateAbbrev w :
    Reachable h w → Reachable h (clearStateCache stateAbbrev w).

(** The integers that a number holds exactly and prints in plain
    decimal: [Number.isSafeInteger]. *)
Definition safeInteger (z : Z) : Prop := Z.abs z ≤ 9007199254740991.

(** A result of [getRedfinId]: [null] or a number. *)
Definition nullOrNumber (v : value) : Prop := v = Null ∨ ∃ n, v = Num n.

(** An identifier that [getRelevantRedfinIds] can collect. *)
Definition goodId (n : number) : Prop := ∃ z, n = Int z ∧ z ≠ 0.

(** A county feature of Alabama and a census row for the same county:
    the feature carries the five-digit GEOID, the row the state code and
    the county number. *)
Definition autaugaFeature : Feature :=
  {| properties := <["GEOID" := Str "01001"]> (<["NAME" := Str "Autauga"]> ∅) |}.

Definition autaugaCensusRow : Row :=
  <["state" := Str "01"]>
    (<["county" := Num (Int 1)]>
       (<["population_total" := Num (Int 58805)]> (<["note" := Str "x"]> ∅))).

(** The service after [initialize] found neither data file. *)
Definition substituteService : Service :=
  initialize false false Throw Throw newService.

(** [l.filter(p).length] *)
Definition countWhere {A} (p : A → bool) (l : list A) : nat := length (List.filter p l).

(** [counts[key]], read as 0 when nothing was counted under [key]. *)
Definition countOf (counts : gmap string nat) (key : string) : nat :=
  default O (counts !! key).

(** The property names that a plain object inherits: for them
    [counts[key]] is not [undefined] although nothing was counted. *)
Definition inheritedNames : list string :=
  ["constructor"; "hasOwnProperty"; "isPrototypeOf"; "propertyIsEnumerable";
   "toLocaleString"; "toString"; "valueOf"; "__proto__";
   "__defineGetter__"; "__defineSetter__"; "__lookupGetter__"; "__lookupSetter__"].

(** A tract feature whose [GEOID] is blank, and a census row of the
    same tract. *)
Definition blankTractFeature : Feature :=
  {| properties := <["GEOID" := Str " "]>
                     (<["state" := Str "01"]>
                        (<["county" := Str "001"]> (<["tract" := Str "020100"]> ∅))) |}.

Definition tractRow : Row :=
  <["GEOID" := Num (Int 1001020100)]>
    (<["state" := Str "01"]> (<["county" := Str "001"]> (<["tract" := Str "020100"]> ∅))).

End Props.

Import JS IndexManager ColumnSelections UnifiedData Props.

(** ** Strings *)

Section StringFacts.

Lemma append_cons (c : ascii) (a b : string) :
  String c a +:+ b = String c (a +:+ b).
Proof. reflexivity. Qed.

Lemma append_nil (b : string) : "" +:+ b = b.
Proof. reflexivity. Qed.

Lemma length_append (a b : string) :
  String.length (a +:+ b) = (String.length a + String.length b)%nat.
Proof.
  induction a as [|c a IH]; [reflexivity|].
  rewrite append_cons. simpl. now rewrite IH.
Qed.

Lemma append_cancel_l (p a b : string) : p +:+ a = p +:+ b → a = b.
Proof.
  induction p as [|c p IH]; [auto|].
  rewrite !append_cons. intros [= H]. auto.
Qed.

Lemma digit_not_space (c : ascii) : isDigit c = true → isWhiteSpace c = false.
Proof.
  destruct c as [[] [] [] [] [] [] [] []]; vm_compute; congruence.
Qed.

Lemma allDigits_strip (s : string) : allDigits (stripNonDigits s) = true.
Proof.
  induction s as [|c s IH]; simpl; [reflexivity|].
  destruct (isDigit c) eqn:E; simpl; [rewrite E|]; auto.
Qed.

Lemma strip_digits (s : string) : allDigits s = true → stripNonDigits s = s.
Proof.
  induction s as [|c s IH]; simpl; [reflexivity|].
  intros [Hc Hs]%andb_prop. rewrite Hc, IH; auto.
Qed.

Lemma trimStart_digits (s : string) : allDigits s = true → trimStart s = s.
Proof.
  destruct s as [|c s]; simpl; [reflexivity|].
  intros [Hc _]%andb_prop. now rewrite (digit_not_space c Hc).
Qed.

Lemma trimEnd_digits (s : string) : allDigits s = true → trimEnd s = s.
Proof.
  induction s as [|c s IH]; simpl; [reflexivity|].
  intros [Hc Hs]%andb_prop. rewrite (IH Hs), (digit_not_space c Hc).
  now destruct s.
Qed.

Lemma trim_digits (s : string) : allDigits s = true → trim s = s.
Proof.
  intros H. unfold trim. rewrite (trimStart_digits s H). now apply trimEnd_digits.
Qed.

Lemma allDigits_append (a b : string) :
  allDigits a = true → allDigits b = true → allDigits (a +:+ b) = true.
Proof.
  induction a as [|c a IH]; [auto|].
  rewrite append_cons. simpl.
  intros [Hc Ha]%andb_prop Hb. rewrite Hc; simpl; auto.
Qed.

Lemma allDigits_zeros (n : nat) : allDigits (repeatChar "0" n) = true.
Proof. induction n; simpl; auto. Qed.

Lemma length_repeatChar (c : ascii) (n : nat) : String.length (repeatChar c n) = n.
Proof. induction n; simpl; auto. Qed.

Lemma allDigits_padStart0 (n : nat) (s : string) :
  allDigits s = true → allDigits (padStart0 n s) = true.
Proof. intros H. apply allDigits_append; [apply allDigits_zeros | exact H]. Qed.

Lemma length_padStart0 (n : nat) (s : string) :
  String.length (padStart0 n s) = Nat.max n (String.length s).
Proof. unfold padStart0. rewrite length_append, length_repeatChar. lia. Qed.

Lemma padStart0_long (n : nat) (s : string) :
  (n ≤ String.length s)%nat → padStart0 n s = s.
Proof.
  intros H. unfold padStart0.
  replace (n - String.length s)%nat with O by lia. apply append_nil.
Qed.

Lemma truthy_nonempty (s : string) : (0 < String.length s)%nat → truthy (Str s) = true.
Proof. destruct s; simpl; [lia | reflexivity]. Qed.

(** Where the method [toString] is defined it agrees with the abstract
    operation, and it is defined on every value that passes a guard of
    the form [!v && v !== 0]. *)
Lemma toString_coerce (v : value) (s : string) :
  toString v = Ok s → coerceToString v = s.
Proof. destruct v as [| |[]|n|t]; simpl; congruence. Qed.

Lemma toString_defined (v : value) :
  truthy v || strictEq v (Num (Int 0)) = true → toString v = Ok (coerceToString v).
Proof. destruct v as [| |[]|n|t]; simpl; congruence. Qed.

End StringFacts.

(** ** ZIP normalization *)

Section ZipNormalization.

(** The result of [normalizeZipCode] is empty or a run of at least
    five digits. *)
Lemma normalizeZipCode_shape (zip : value) :
  normalizeZipCode zip = ""
  ∨ (allDigits (normalizeZipCode zip) = true
     ∧ (5 ≤ String.length (normalizeZipCode zip))%nat).
Proof.
  unfold normalizeZipCode.
  destruct (negb (truthy zip) && negb (strictEq zip (Num (Int 0)))); [now left|].
  right. split.
  - apply allDigits_padStart0, allDigits_strip.
  - rewrite length_padStart0. lia.
Qed.

(** On a run of at least five digits the function is the identity. *)
Lemma normalizeZipCode_fixed (s : string) :
  allDigits s = true → (5 ≤ String.length s)%nat → normalizeZipCode (Str s) = s.
Proof.
  intros Hd Hl. unfold normalizeZipCode.
  rewrite truthy_nonempty by lia. simpl.
  rewrite (trim_digits s Hd), (strip_digits s Hd). now apply padStart0_long.
Qed.

(** C8, as the claim states it, fails: a ZIP+4 code keeps its nine
    digits, and the empty string stays empty, so the result of
    normalizing a non-null input need not be a five-digit string. *)
Lemma normalizeZipCode_not_always_five_digits :
  normalizeZipCode (Str "12345-6789") = "123456789"
  ∧ normalizeZipCode (Str (normalizeZipCode (Str "12345-6789"))) = "123456789"
  ∧ String.length (normalizeZipCode (Str "12345-6789")) = 9%nat
  ∧ normalizeZipCode (Str "") = "".
Proof. repeat split; reflexivity. Qed.

(** C8 (amended): a string of exactly five digits is returned as it
    is; for every input, normalizing the result again returns the same
    string; and the result is a five-digit string whenever the input
    passes the guard (it is truthy or the number 0) and its trimmed
    text holds at most five digits. *)
Theorem normalizeZipCode_idempotent :
  (∀ s, fiveDigits s → normalizeZipCode (Str s) = s)
  ∧ (∀ zip, normalizeZipCode (Str (normalizeZipCode zip)) = normalizeZipCode zip)
  ∧ (∀ zip,
       truthy zip || strictEq zip (Num (Int 0)) = true →
       (String.length (stripNonDigits (trim (coerceToString zip))) ≤ 5)%nat →
       fiveDigits (normalizeZipCode zip)).
Proof.
  split; [|split].
  - intros s [Hl Hd]. apply normalizeZipCode_fixed; [exact Hd | lia].
  - intros zip. destruct (normalizeZipCode_shape zip) as [-> | [Hd Hl]].
    + reflexivity.
    + now apply normalizeZipCode_fixed.
  - intros zip Hg Hn. unfold normalizeZipCode, fiveDigits.
    destruct (truthy zip); destruct (strictEq zip (Num (Int 0)));
      simpl in Hg |- *; try discriminate;
      (split; [rewrite length_padStart0; lia
              | apply allDigits_padStart0, allDigits_strip]).
Qed.

Lemma normalizeZipCode_idempotent_witness :
  normalizeZipCode (Str "90210") = "90210"
  ∧ fiveDigits (normalizeZipCode (Num (Int 2101))).
Proof.
  split.
  - apply (proj1 normalizeZipCode_idempotent). split; reflexivity.
  - apply (proj2 (proj2 normalizeZipCode_idempotent)); vm_compute; [reflexivity | lia].
Defined.

End ZipNormalization.

(** ** County identifier variations *)

Section CountyIdVariations.

Lemma uniqueInto_extends (seen l : list string) :
  ∃ t, uniqueInto seen l = seen ++ t.
Proof.
  revert seen. induction l as [|x l IH]; intros seen; simpl.
  - exists []. now rewrite app_nil_r.
  - destruct (bool_decide (x ∈ seen)); [apply IH|].
    destruct (IH (seen ++ [x])) as [t Ht]. exists (x :: t).
    now rewrite Ht, <- app_assoc.
Qed.

Lemma elem_of_uniqueInto (x : string) (seen l : list string) :
  x ∈ uniqueInto seen l ↔ x ∈ seen ∨ x ∈ l.
Proof.
  revert seen. induction l as [|y l IH]; intros seen; simpl.
  - rewrite elem_of_nil. tauto.
  - rewrite elem_of_cons. destruct (bool_decide_reflect (y ∈ seen)) as [Hy|Hy].
    + rewrite IH. split; [tauto|]. intros [H|[-> |H]]; tauto.
    + rewrite IH, elem_of_app, list_elem_of_singleton. tauto.
Qed.

Lemma NoDup_uniqueInto (seen l : list string) :
  NoDup seen → NoDup (uniqueInto seen l).
Proof.
  revert seen. induction l as [|y l IH]; intros seen Hs; simpl; [exact Hs|].
  destruct (bool_decide_reflect (y ∈ seen)) as [Hy|Hy]; apply IH; [exact Hs|].
  apply NoDup_app. split; [exact Hs|]. split.
  - intros z Hz ->%list_elem_of_singleton. contradiction.
  - apply NoDup_singleton.
Qed.

Lemma substringFrom_one (s : string) :
  String.length s = 5%nat →
  ∃ c, s = String c (substringFrom 1 s) ∧ String.length (substringFrom 1 s) = 4%nat.
Proof.
  intros H.
  destruct s as [|a [|b [|c [|d [|e [|f s]]]]]]; simpl in H; try discriminate.
  exists a. split; reflexivity.
Qed.

(** C3, as the claim states it, fails at its own example: the
    one-character identifier "1" gets no padding and no prefix; a
    five-character identifier yields its last four characters, not its
    last three; and characters other than digits are kept. *)
Lemma normalizeCountyId_no_padding :
  normalizeCountyId (Str "1") (Some "06") = ["1"]
  ∧ normalizeCountyId (Str "06001") (Some "06") = ["06001"; "6001"]
  ∧ normalizeCountyId (Str "06-001") (Some "06") = ["06-001"].
Proof. repeat split; reflexivity. Qed.

(** C3 (amended): [normalizeCountyId] returns the empty sequence for
    a falsy identifier; otherwise it trims the identifier's text
    (nothing else is removed) and returns a duplicate-free sequence that
    starts with the trimmed text, and that also holds: the text behind
    the state prefix when it has three characters and a non-empty
    prefix is supplied; the text behind "0" when it has four
    characters; the text without its first character when it has five.
    Nothing else is in the sequence. *)
Theorem normalizeCountyId_variations (id : value) (addStatePrefix : option string) :
  let idStr := trim (coerceToString id) in
  let out := normalizeCountyId id addStatePrefix in
  (truthy id = false → out = [])
  ∧ (truthy id = true →
       NoDup out
       ∧ head out = Some idStr
       ∧ (∀ p, String.length idStr = 3%nat → addStatePrefix = Some p → p ≠ "" →
               (p +:+ idStr) ∈ out)
       ∧ (String.length idStr = 4%nat → ("0" +:+ idStr) ∈ out)
       ∧ (String.length idStr = 5%nat →
            substringFrom 1 idStr ∈ out
            ∧ String.length (substringFrom 1 idStr) = 4%nat)
       ∧ (∀ x, x ∈ out →
            x = idStr
            ∨ (String.length idStr = 3%nat
               ∧ ∃ p, addStatePrefix = Some p ∧ p ≠ "" ∧ x = p +:+ idStr)
            ∨ (String.length idStr = 4%nat ∧ x = "0" +:+ idStr)
            ∨ (String.length idStr = 5%nat ∧ x = substringFrom 1 idStr))).
Proof.
  intros idStr out. subst out. unfold normalizeCountyId. fold idStr.
  split; [intros ->; reflexivity|]. intros ->. simpl negb. cbv iota.
  set (v1 := match addStatePrefix with
             | Some p => if (String.length idStr =? 3)%nat && truthy (Str p)
                         then ([idStr] ++ [p +:+ idStr])%list else [idStr]
             | None => [idStr]
             end).
  set (v2 := if (String.length idStr =? 4)%nat then (v1 ++ ["0" +:+ idStr])%list else v1).
  set (v3 := if (String.length idStr =? 5)%nat
             then (v2 ++ [substringFrom 1 idStr])%list else v2).
  assert (H1 : ∀ x, x ∈ v1 ↔
            x = idStr ∨ (String.length idStr = 3%nat
               ∧ ∃ p, addStatePrefix = Some p ∧ p ≠ "" ∧ x = p +:+ idStr)).
  { intros x. subst v1. destruct addStatePrefix as [p|].
    - destruct (Nat.eqb_spec (String.length idStr) 3) as [E|E]; simpl.
      + destruct (String.eqb_spec p "") as [->|Hp]; simpl.
        * rewrite list_elem_of_singleton. split; [tauto|].
          intros [?|(_ & q & [= <-] & Hq & _)]; [assumption | congruence].
        * rewrite elem_of_cons, list_elem_of_singleton. split.
          -- intros [? | ->]; [tauto|]. right. split; [exact E|]. now exists p.
          -- intros [?|(_ & q & [= <-] & _ & ->)]; tauto.
      + rewrite list_elem_of_singleton. split; [tauto|].
        intros [?|(? & _)]; [assumption | contradiction].
    - rewrite list_elem_of_singleton. split; [tauto|].
      intros [?|(_ & q & [=] & _)]; assumption. }
  assert (H2 : ∀ x, x ∈ v2 ↔
            x ∈ v1 ∨ (String.length idStr = 4%nat ∧ x = "0" +:+ idStr)).
  { intros x. subst v2.
    destruct (Nat.eqb_spec (String.length idStr) 4) as [E|E].
    - rewrite elem_of_app, list_elem_of_singleton. tauto.
    - tauto. }
  assert (H3 : ∀ x, x ∈ v3 ↔
            x ∈ v2 ∨ (String.length idStr = 5%nat ∧ x = substringFrom 1 idStr)).
  { intros x. subst v3.
    destruct (Nat.eqb_spec (String.length idStr) 5) as [E|E].
    - rewrite elem_of_app, list_elem_of_singleton. tauto.
    - tauto. }
  assert (Hin : ∀ x, x ∈ uniqueInto [] v3 ↔ x ∈ v3).
  { intros x. rewrite elem_of_uniqueInto, elem_of_nil. tauto. }
  assert (Hhd : ∃ t, v3 = idStr :: t).
  { assert (Hv1 : ∃ t, v1 = idStr :: t).
    { subst v1. destruct addStatePrefix as [p|]; [|now exists []].
      destruct ((String.length idStr =? 3)%nat && truthy (Str p)); eexists; reflexivity. }
    destruct Hv1 as [t1 Ht1].
    assert (Hv2 : ∃ t, v2 = idStr :: t).
    { subst v2. rewrite Ht1. destruct (String.length idStr =? 4)%nat; eexists; reflexivity. }
    destruct Hv2 as [t2 Ht2]. subst v3. rewrite Ht2.
    destruct (String.length idStr =? 5)%nat; eexists; reflexivity. }
  repeat split.
  - apply NoDup_uniqueInto, NoDup_nil_2.
  - destruct Hhd as [t ->]. simpl.
    destruct (uniqueInto_extends [idStr] t) as [t' ->]. reflexivity.
  - intros p E Hp Hne. apply Hin, H3. left. apply H2. left. apply H1.
    right. split; [exact E|]. now exists p.
  - intros E. apply Hin, H3. left. apply H2. now right.
  - apply Hin, H3. now right.
  - now destruct (substringFrom_one idStr) as (c & _ & Hl).
  - intros x Hx%Hin%H3. rewrite H2, H1 in Hx. tauto.
Qed.

Lemma normalizeCountyId_variations_witness :
  "06001" ∈ normalizeCountyId (Str "001") (Some "06")
  ∧ "06001" ∈ normalizeCountyId (Num (Int 6001)) None.
Proof.
  split.
  - destruct (normalizeCountyId_variations (Str "001") (Some "06")) as [_ H].
    destruct (H eq_refl) as (_ & _ & Hp & _).
    exact (Hp "06" eq_refl eq_refl ltac:(discriminate)).
  - destruct (normalizeCountyId_variations (Num (Int 6001)) None) as [_ H].
    destruct (H eq_refl) as (_ & _ & _ & H4 & _).
    exact (H4 eq_refl).
Defined.

End CountyIdVariations.

(** ** The state-scoped index cache *)

Section StateIndexCache.

Lemma csvUrl_inj_level (stateAbbrev a b : string) :
  csvUrl stateAbbrev a = csvUrl stateAbbrev b → a +:+ ".csv" = b +:+ ".csv".
Proof.
  unfold csvUrl. intros H.
  apply append_cancel_l in H. apply append_cancel_l in H.
  apply append_cancel_l in H. now apply append_cancel_l in H.
Qed.

Lemma indexUrls_NoDup (stateAbbrev : string) : NoDup (indexUrls stateAbbrev).
Proof.
  unfold indexUrls. repeat constructor; rewrite ?elem_of_cons, ?elem_of_nil;
    intuition; match goal with H : csvUrl _ _ = csvUrl _ _ |- _ =>
      apply csvUrl_inj_level in H; discriminate H end.
Qed.

Lemma loadStateCSV_returns (h : Host) (stateAbbrev level : string) (w : World) :
  loadStateCSV h stateAbbrev level w
  = (Ok (rowsOf (fetch h (length (requests w)) (csvUrl stateAbbrev level))),
     {| stateIndexCache := stateIndexCache w;
        requests := requests w ++ [csvUrl stateAbbrev level];
        clockReads := clockReads w |}).
Proof.
  unfold loadStateCSV, request, rowsOf, tryCatch.
  now destruct (loadStateCSV_try _).
Qed.

(** A first load: three requests, three clock readings, one new entry. *)
Lemma loadStateIndexes_miss (h : Host) (stateAbbrev : string)
    (level : option string) (w : World) :
  stateIndexCache w !! stateAbbrev = None →
  let n := length (requests w) in
  loadStateIndexes h stateAbbrev level w
  = (true,
     {| stateIndexCache :=
          <[stateAbbrev :=
              {| counties := rowsOf (fetch h n (csvUrl stateAbbrev "county"));
                 zips := rowsOf (fetch h (n + 1) (csvUrl stateAbbrev "zip"));
                 tracts := rowsOf (fetch h (n + 2) (csvUrl stateAbbrev "tract"));
                 loadTime := performance_now h (S (clockReads w))
                             - performance_now h (clockReads w) |}]>
            (stateIndexCache w);
        requests := requests w ++ indexUrls stateAbbrev;
        clockReads := S (S (S (clockReads w))) |}).
Proof.
  intros Hmiss n. unfold loadStateIndexes. rewrite Hmiss.
  unfold now. rewrite !loadStateCSV_returns. cbn -[csvUrl rowsOf].
  unfold cacheSet. cbn -[csvUrl rowsOf].
  rewrite !length_app. cbn [length]. fold n.
  replace (n + 1 + 1)%nat with (n + 2)%nat by lia.
  rewrite <- !app_assoc. reflexivity.
Qed.

Lemma loadStateIndexes_hit (h : Host) (stateAbbrev : string)
    (level : option string) (w : World) :
  is_Some (stateIndexCache w !! stateAbbrev) →
  loadStateIndexes h stateAbbrev level w = (true, w).
Proof. intros [e He]. unfold loadStateIndexes. now rewrite He. Qed.

Lemma loadStateIndexes_caches (h : Host) (stateAbbrev : string)
    (level : option string) (w : World) :
  is_Some (stateIndexCache (snd (loadStateIndexes h stateAbbrev level w)) !! stateAbbrev).
Proof.
  destruct (stateIndexCache w !! stateAbbrev) as [e|] eqn:E.
  - rewrite loadStateIndexes_hit by eauto. simpl. eauto.
  - rewrite (loadStateIndexes_miss _ _ _ _ E). simpl. rewrite lookup_insert_eq. eauto.
Qed.

(** A load never replaces an entry that is present. *)
Lemma loadStateIndexes_keeps (h : Host) (other : string) (level : option string)
    (w : World) (stateAbbrev : string) (e : StateIndexCacheEntry) :
  stateIndexCache w !! stateAbbrev = Some e →
  stateIndexCache (snd (loadStateIndexes h other level w)) !! stateAbbrev = Some e.
Proof.
  intros He. destruct (stateIndexCache w !! other) as [e'|] eqn:E.
  - rewrite loadStateIndexes_hit by eauto. exact He.
  - rewrite (loadStateIndexes_miss _ _ _ _ E). simpl.
    rewrite lookup_insert_ne; [exact He | congruence].
Qed.

Lemma rowsOf_failure (o : FetchOutcome) : LoadFails o → rowsOf o = [].
Proof.
  unfold rowsOf. intros [ | r Hr | r Hr | r t Hr Ht ]; simpl.
  - reflexivity.
  - now rewrite Hr.
  - rewrite Hr. now destruct (ok r).
  - rewrite Hr. simpl. rewrite Ht. now destruct (ok r).
Qed.

Lemma rowsOf_success (r : Response) (csvText : string) (rows : list Row) :
  ok r = true → text r = Ok csvText → parseCSV csvText = Ok rows →
  rowsOf (Resolved r) = rows.
Proof. unfold rowsOf. simpl. intros -> -> H. simpl. now rewrite H. Qed.

(** C2: a second call of [loadStateIndexes] for the same state answers
    [true] and leaves the whole state as the first call left it: no
    request, no clock reading, the same cache.  When the state was not
    cached before the first call, the two calls together issue exactly
    the three requests of the state, one per index file and pairwise
    distinct.  Loads of any state leave a present entry as it is. *)
Theorem loadStateIndexes_single_load (h : Host) (w : World)
    (stateAbbrev : string) (level1 level2 : option string) :
  let first := loadStateIndexes h stateAbbrev level1 w in
  let second := loadStateIndexes h stateAbbrev level2 (snd first) in
  fst second = true
  ∧ snd second = snd first
  ∧ (stateIndexCache w !! stateAbbrev = None →
       fst first = true
       ∧ requests (snd second) = requests w ++ indexUrls stateAbbrev
       ∧ NoDup (indexUrls stateAbbrev)
       ∧ ∀ url, url ∈ indexUrls stateAbbrev →
           length (List.filter (String.eqb url)
                     (drop (length (requests w)) (requests (snd second)))) = 1%nat)
  ∧ (∀ e other level,
       stateIndexCache (snd first) !! stateAbbrev = Some e →
       stateIndexCache (snd (loadStateIndexes h other level (snd first))) !! stateAbbrev
       = Some e).
Proof.
  intros first second.
  assert (Hsecond : second = (true, snd first)).
  { subst second. apply loadStateIndexes_hit. subst first.
    apply loadStateIndexes_caches. }
  rewrite Hsecond. simpl. repeat split.
  - subst first. now rewrite (loadStateIndexes_miss _ _ _ _ H).
  - subst first. now rewrite (loadStateIndexes_miss _ _ _ _ H).
  - apply indexUrls_NoDup.
  - intros url Hurl. subst first. rewrite (loadStateIndexes_miss _ _ _ _ H). simpl.
    rewrite drop_app_length.
    unfold indexUrls in *. rewrite !elem_of_cons, elem_of_nil in Hurl.
    cbn [List.filter].
    destruct Hurl as [-> | [-> | [-> | []]]];
      rewrite String.eqb_refl;
      repeat match goal with
        | |- context [String.eqb ?a ?b] =>
            destruct (String.eqb_spec a b) as [E|_];
            [apply csvUrl_inj_level in E; discriminate E|]
        end; reflexivity.
  - intros e other level He. now apply loadStateIndexes_keeps.
Qed.

Lemma loadStateIndexes_single_load_witness :
  requests (snd (loadStateIndexes sampleHost "CA" (Some "zip")
                   (snd (loadStateIndexes sampleHost "CA" None freshWorld))))
  = requests freshWorld ++ indexUrls "CA".
Proof.
  destruct (loadStateIndexes_single_load sampleHost freshWorld "CA" None (Some "zip"))
    as (_ & _ & H & _).
  destruct (H eq_refl) as (_ & Hr & _). exact Hr.
Defined.

(** C5: on a first load the call answers [true] and stores an entry
    whose three collections are what each file's own request yields:
    the empty collection when that file's load fails (rejected request,
    non-OK status, unreadable body, or no header line), the parsed rows
    when it succeeds, whatever happens to the other two files. *)
Theorem loadStateIndexes_partial_failure (h : Host) (w : World)
    (stateAbbrev : string) (level : option string) :
  stateIndexCache w !! stateAbbrev = None →
  let n := length (requests w) in
  let county := fetch h n (csvUrl stateAbbrev "county") in
  let zip := fetch h (n + 1) (csvUrl stateAbbrev "zip") in
  let tract := fetch h (n + 2) (csvUrl stateAbbrev "tract") in
  let after := loadStateIndexes h stateAbbrev level w in
  fst after = true
  ∧ ∃ e, stateIndexCache (snd after) !! stateAbbrev = Some e
      ∧ counties e = rowsOf county ∧ zips e = rowsOf zip ∧ tracts e = rowsOf tract
      ∧ (LoadFails county → counties e = [])
      ∧ (LoadFails zip → zips e = [])
      ∧ (LoadFails tract → tracts e = [])
      ∧ (∀ r csvText rows,
           ok r = true → text r = Ok csvText → parseCSV csvText = Ok rows →
           (county = Resolved r → counties e = rows)
           ∧ (zip = Resolved r → zips e = rows)
           ∧ (tract = Resolved r → tracts e = rows)).
Proof.
  intros Hmiss n county zip tract after. subst after.
  rewrite (loadStateIndexes_miss _ _ _ _ Hmiss). simpl. split; [reflexivity|].
  eexists. split; [apply lookup_insert_eq|]. simpl. fold n county zip tract.
  repeat split; try (intros; now apply rowsOf_failure).
  - intros ->. now apply (rowsOf_success r csvText).
  - intros ->. now apply (rowsOf_success r csvText).
  - intros ->. now apply (rowsOf_success r csvText).
Qed.

Lemma loadStateIndexes_partial_failure_witness :
  fst (loadStateIndexes sampleHost "CA" None freshWorld) = true
  ∧ ∃ e, stateIndexCache sampleWorld !! "CA" = Some e
      ∧ length (counties e) = 2%nat ∧ zips e = [] ∧ tracts e = [].
Proof.
  destruct (loadStateIndexes_partial_failure sampleHost freshWorld "CA" None eq_refl)
    as (Ht & e & He & Hc & _ & _ & _ & Hz & Htr & _).
  split; [exact Ht|]. exists e. split; [exact He|]. split; [|split].
  - rewrite Hc. vm_compute. reflexivity.
  - apply Hz. now apply fails_status.
  - apply Htr. now apply fails_status.
Defined.

End StateIndexCache.

(** ** Cache invalidation *)

Section CacheInvalidation.

(** C10, as the claim states it, fails for the empty state code: the
    guard treats it as an omitted argument, and the entry of every other
    state is removed with it. *)
Lemma clearStateCache_empty_code_clears_all :
  stateIndexCache twoStateWorld !! "NV" = Some (sampleEntry 12)
  ∧ stateIndexCache (clearStateCache (Some "") twoStateWorld) !! "NV" = None.
Proof. split; vm_compute; reflexivity. Qed.

(** C10 (amended): for a non-empty state code [s], [clearStateCache]
    removes the entry keyed [s] and leaves the entry of every other key
    as it was; called without argument, or with the empty string, it
    empties the cache.  It issues no request and reads no clock. *)
Theorem clearStateCache_frame (w : World) :
  (∀ s, s ≠ "" →
     stateIndexCache (clearStateCache (Some s) w) !! s = None
     ∧ ∀ k, k ≠ s →
         stateIndexCache (clearStateCache (Some s) w) !! k = stateIndexCache w !! k)
  ∧ stateIndexCache (clearStateCache None w) = ∅
  ∧ stateIndexCache (clearStateCache (Some "") w) = ∅
  ∧ (∀ o, requests (clearStateCache o w) = requests w
          ∧ clockReads (clearStateCache o w) = clockReads w).
Proof.
  repeat split.
  - unfold clearStateCache. simpl.
    destruct (String.eqb_spec s ""); [contradiction|]. simpl.
    apply lookup_delete_eq.
  - intros k Hk. unfold clearStateCache. simpl.
    destruct (String.eqb_spec s ""); [contradiction|]. simpl.
    now apply lookup_delete_ne.
  - destruct o as [s|]; [|reflexivity]. unfold clearStateCache.
    now destruct (truthy (Str s)).
  - destruct o as [s|]; [|reflexivity]. unfold clearStateCache.
    now destruct (truthy (Str s)).
Qed.

Lemma clearStateCache_frame_witness :
  stateIndexCache (clearStateCache (Some "NV") twoStateWorld) !! "NV" = None
  ∧ stateIndexCache (clearStateCache (Some "NV") twoStateWorld) !! "CA"
    = Some (sampleEntry 7).
Proof.
  destruct (clearStateCache_frame twoStateWorld) as (H & _).
  destruct (H "NV" ltac:(discriminate)) as [Hs Hk].
  split; [exact Hs|]. rewrite (Hk "CA" ltac:(discriminate)). reflexivity.
Defined.

End CacheInvalidation.

(** ** The payload reducer's final filter *)

Section PayloadReducer.

Lemma filter_sublist {A} (f : A → bool) (l : list A) : List.filter f l `sublist_of` l.
Proof.
  induction l as [|x l IH]; simpl; [constructor|].
  destruct (f x); now constructor.
Qed.

Lemma arrayIncludes_spec (ids : list number) (n : number) :
  arrayIncludes ids n = true ↔ ∃ id, id ∈ ids ∧ sameNumber n id = true.
Proof.
  unfold arrayIncludes. rewrite existsb_exists.
  split; intros (id & Hin & Hs); exists id; split; auto; now apply list_elem_of_In.
Qed.

(** Without index rows for the state no identifier is collected. *)
Lemma collectFeatures_no_rows (stateAbbrev level : string) (w : World)
    (stateData : StateIndexCacheEntry) (ids : list number) (features : list Feature) :
  stateIndexCache w !! stateAbbrev = Some stateData →
  counties stateData = [] → zips stateData = [] →
  collectFeatures stateAbbrev level w ids features = Ok ids.
Proof.
  intros Hc Hco Hz. induction features as [|f features IH]; [reflexivity|].
  simpl. replace (collectFeature stateAbbrev level w ids f) with (Ok ids); [exact IH|].
  unfold collectFeature, getRedfinId. rewrite Hc.
  unfold getRedfinIdZip, getRedfinIdCounty. rewrite Hco, Hz.
  destruct (String.eqb level "zip").
  - now destruct (truthy _).
  - destruct (String.eqb level "county"); [|reflexivity]. now destruct (truthy _).
Qed.

(** C4: with an empty identifier set the records come back unchanged;
    with a non-empty set the result is the input filtered, in input
    order, by the test "the record's own [table_id] parses to a member
    of the set".  When the state's index holds no county and no zip row,
    the collected set is empty and nothing is filtered out. *)
Theorem filterRedfinByRelevantIds_spec (redfinData : list Row)
    (relevantIds : list number) :
  let kept := filterRedfinByRelevantIds redfinData relevantIds in
  (relevantIds = [] → kept = redfinData ∧ length kept = length redfinData)
  ∧ (relevantIds ≠ [] →
       kept = List.filter (relevant relevantIds) redfinData
       ∧ kept `sublist_of` redfinData
       ∧ ∀ record, record ∈ kept ↔
           record ∈ redfinData
           ∧ ∃ id, id ∈ relevantIds
                   ∧ sameNumber (parseInt (get record "table_id")) id = true)
  ∧ (∀ h stateAbbrev level features w stateData,
       let collected := getRelevantRedfinIds h stateAbbrev level features w in
       stateIndexCache (snd collected) !! stateAbbrev = Some stateData →
       counties stateData = [] → zips stateData = [] →
       fst collected = Ok []
       ∧ filterRedfinByRelevantIds redfinData [] = redfinData).
Proof.
  intros kept. subst kept. unfold filterRedfinByRelevantIds. split; [|split].
  - intros ->. simpl. split; reflexivity.
  - intros Hne. destruct relevantIds as [|id ids]; [contradiction|].
    cbn [length Nat.eqb]. split; [reflexivity|]. split; [apply filter_sublist|].
    intros record. rewrite list_elem_of_In, filter_In, <- list_elem_of_In.
    now rewrite <- arrayIncludes_spec.
  - intros h stateAbbrev level features w stateData. cbv zeta.
    unfold getRelevantRedfinIds.
    destruct (loadStateIndexes h stateAbbrev None w) as [b w1]. simpl.
    intros Hc Hco Hz. split; [|reflexivity].
    now apply (collectFeatures_no_rows _ _ _ stateData).
Qed.

Lemma filterRedfinByRelevantIds_spec_witness :
  filterRedfinByRelevantIds sampleCounties [Int 222]
  = List.filter (relevant [Int 222]) sampleCounties
  ∧ filterRedfinByRelevantIds sampleCounties [] = sampleCounties.
Proof.
  destruct (filterRedfinByRelevantIds_spec sampleCounties [Int 222]) as (_ & H & _).
  destruct (H ltac:(discriminate)) as (Hk & _).
  destruct (filterRedfinByRelevantIds_spec sampleCounties []) as (H0 & _).
  destruct (H0 eq_refl) as (Hu & _).
  split; [exact Hk | exact Hu].
Defined.

End PayloadReducer.

(** ** County identifier resolution *)

Section CountyResolution.

Lemma find_noMatch {A} (p : A → result bool) (l : list A) :
  noMatch p l ↔ find p l = Ok None.
Proof.
  unfold noMatch. induction l as [|x l IH]; simpl.
  - split; [reflexivity | constructor].
  - split.
    + intros H. inversion H as [|? ? Hx Hl]; subst. rewrite Hx. now apply IH.
    + destruct (p x) as [[]|] eqn:Hx; try discriminate.
      intros H. constructor; [exact Hx | now apply IH].
Qed.

Lemma find_firstMatch {A} (p : A → result bool) (l : list A) (r : A) :
  firstMatch p l r ↔ find p l = Ok (Some r).
Proof.
  unfold firstMatch. induction l as [|x l IH]; simpl.
  - split; [|discriminate]. intros (before & after & H & _). now destruct before.
  - split.
    + intros (before & after & H & Hn & Hr). destruct before as [|y before].
      * injection H as -> ->. now rewrite Hr.
      * injection H as -> ->. inversion Hn as [|? ? Hy Hb]; subst. rewrite Hy.
        apply IH. now exists before, after.
    + destruct (p x) as [[]|] eqn:Hx; try discriminate.
      * intros [= ->]. exists [], l. repeat split; [constructor | exact Hx].
      * intros (before & after & -> & Hn & Hr)%IH.
        exists (x :: before), after. repeat split; [now constructor | exact Hr].
Qed.

(** C1, as the claim states it, fails: on the sample index no row
    matches "001" exactly, the second row matches after normalization
    (table id 222), and yet the table id of the first row (111) is
    returned, because its name holds "001" and names are tried first. *)
Lemma getRedfinId_name_before_normalized :
  find (countyByGeoid "001") sampleCounties = Ok None
  ∧ find (countyByFredFips "001") sampleCounties = Ok None
  ∧ bind (find (countyNormalized "001") sampleCounties) (λ r, Ok (tableIdOf <$> r))
    = Ok (Some (Num (Int 222)))
  ∧ getRedfinId "CA" "001" "county" sampleWorld = Ok (Num (Int 111)).
Proof. repeat split; vm_compute; reflexivity. Qed.

(** C1 (amended): at county level the strategies are tried in the
    order exact match on [GEOID], exact match on [fred_county_fips],
    name-substring match, normalized match.  The table id of the first
    row found by the earliest succeeding strategy is returned: when both
    exact strategies find no row, a row matching by name wins whether or
    not some row matches after normalization, and normalized matching is
    consulted only when name matching finds no row either; with no row
    at all the result is [null]. *)
Theorem getRedfinId_county_strategy_order (w : World) (stateAbbrev area : string)
    (stateData : StateIndexCacheEntry) :
  stateIndexCache w !! stateAbbrev = Some stateData →
  let rows := counties stateData in
  let answer := getRedfinId stateAbbrev area "county" w in
  (∀ r, firstMatch (countyByGeoid area) rows r → answer = Ok (tableIdOf r))
  ∧ (noMatch (countyByGeoid area) rows →
       (∀ r, firstMatch (countyByFredFips area) rows r → answer = Ok (tableIdOf r))
       ∧ (noMatch (countyByFredFips area) rows →
            (∀ r, firstMatch (countyByName area) rows r → answer = Ok (tableIdOf r))
            ∧ (noMatch (countyByName area) rows →
                 (∀ r, firstMatch (countyNormalized area) rows r →
                       answer = Ok (tableIdOf r))
                 ∧ (noMatch (countyNormalized area) rows → answer = Ok Null)))).
Proof.
  intros Hc rows answer. subst answer. unfold getRedfinId. rewrite Hc.
  change (String.eqb "county" "zip") with false.
  change (String.eqb "county" "county") with true.
  cbn [bind]. unfold getRedfinIdCounty. fold rows.
  split.
  { intros r ->%find_firstMatch. reflexivity. }
  intros ->%find_noMatch. cbn [bind]. split.
  { intros r ->%find_firstMatch. reflexivity. }
  intros ->%find_noMatch. cbn [bind]. split.
  { intros r ->%find_firstMatch. reflexivity. }
  intros ->%find_noMatch. cbn [bind]. split.
  { intros r ->%find_firstMatch. reflexivity. }
  intros ->%find_noMatch. reflexivity.
Qed.

Lemma getRedfinId_county_strategy_order_witness :
  getRedfinId "CA" "001" "county" sampleWorld
  = Ok (tableIdOf (hd ∅ sampleCounties)).
Proof.
  assert (Hc : stateIndexCache sampleWorld !! "CA" = Some sampleStateData)
    by (vm_compute; reflexivity).
  destruct (getRedfinId_county_strategy_order sampleWorld "CA" "001" sampleStateData Hc)
    as (_ & H).
  destruct (H ltac:(apply find_noMatch; vm_compute; reflexivity)) as (_ & H2).
  destruct (H2 ltac:(apply find_noMatch; vm_compute; reflexivity)) as (H3 & _).
  apply H3. apply find_firstMatch. vm_compute. reflexivity.
Defined.

End CountyResolution.

(** ** The insertion-ordered map *)

Section OrderedMap.
Context {V : Type}.
Implicit Types (m : list (string * V)) (ws : list (string * V)).

Lemma mapGet_mapSet_eq k (v : V) m : mapGet k (mapSet k v m) = Some v.
Proof.
  induction m as [|[k' v'] m IH]; simpl.
  - now rewrite String.eqb_refl.
  - destruct (String.eqb k k') eqn:E; simpl; rewrite ?String.eqb_refl, ?E; auto.
Qed.

Lemma mapGet_mapSet_ne k k' (v : V) m :
  k ≠ k' → mapGet k' (mapSet k v m) = mapGet k' m.
Proof.
  intros Hne. induction m as [|[k0 v0] m IH]; simpl.
  - destruct (String.eqb_spec k' k); congruence.
  - destruct (String.eqb_spec k k0) as [->|]; simpl.
    + destruct (String.eqb_spec k' k0); congruence.
    + destruct (String.eqb_spec k' k0); auto.
Qed.

Lemma applyWrites_app ws1 ws2 m :
  applyWrites (ws1 ++ ws2) m = applyWrites ws2 (applyWrites ws1 m).
Proof. unfold applyWrites. apply fold_left_app. Qed.

Lemma lastWrite_app k ws1 ws2 :
  lastWrite k (ws1 ++ ws2)
  = match lastWrite k ws2 with
    | Some v => Some v
    | None => lastWrite k ws1
    end.
Proof.
  induction ws1 as [|[k1 v1] ws1 IH]; simpl.
  - now destruct (lastWrite k ws2).
  - rewrite IH. now destruct (lastWrite k ws2).
Qed.

(** Reading a key after a run of writes: the last value written for
    it, or what the map held before. *)
Lemma mapGet_applyWrites k ws m :
  mapGet k (applyWrites ws m)
  = match lastWrite k ws with
    | Some v => Some v
    | None => mapGet k m
    end.
Proof.
  revert m. induction ws as [|[k1 v1] ws IH]; intros m; [reflexivity|].
  change (applyWrites ((k1, v1) :: ws) m) with (applyWrites ws (mapSet k1 v1 m)).
  rewrite IH. simpl. destruct (lastWrite k ws); [reflexivity|].
  destruct (String.eqb_spec k k1) as [->|Hne].
  - apply mapGet_mapSet_eq.
  - apply mapGet_mapSet_ne. congruence.
Qed.

(** A run of writes on a map that starts with key [k]: the entry
    stays in front, with the last value written for [k] if there is
    one, and the writes to other keys act on the rest. *)
Lemma applyWrites_cons k (v : V) ws m :
  applyWrites ws ((k, v) :: m)
  = (k, default v (lastWrite k ws))
    :: applyWrites (List.filter (λ w, negb (String.eqb (fst w) k)) ws) m.
Proof.
  revert v m. induction ws as [|[k1 v1] ws IH]; intros v m; [reflexivity|].
  change (applyWrites ((k1, v1) :: ws) ((k, v) :: m))
    with (applyWrites ws (mapSet k1 v1 ((k, v) :: m))).
  cbn [mapSet List.filter fst lastWrite]. rewrite (String.eqb_sym k k1).
  destruct (String.eqb k1 k) eqn:E; cbn [negb].
  - apply String.eqb_eq in E as ->. rewrite IH.
    now destruct (lastWrite k ws).
  - rewrite IH. now destruct (lastWrite k ws).
Qed.

Lemma filter_length_le (f : string * V → bool) ws :
  (length (List.filter f ws) ≤ length ws)%nat.
Proof. induction ws as [|w ws IH]; simpl; [lia|]. destruct (f w); simpl; lia. Qed.

Lemma applyWrites_twice_nil ws :
  applyWrites ws (applyWrites ws []) = applyWrites ws [].
Proof.
  remember (length ws) as n eqn:Hn. revert ws Hn.
  induction n as [n IH] using lt_wf_ind. intros [|[k v] ws] Hn; [reflexivity|].
  change (applyWrites ((k, v) :: ws) []) with (applyWrites ws [(k, v)]).
  rewrite applyWrites_cons.
  set (rest := List.filter (λ w, negb (String.eqb (fst w) k)) ws).
  change (applyWrites ((k, v) :: ws) ?m) with (applyWrites ws (mapSet k v m)).
  cbn [mapSet]. rewrite String.eqb_refl, applyWrites_cons. fold rest.
  f_equal. apply (IH (length rest)); [|reflexivity].
  subst n. simpl. pose proof (filter_length_le
    (λ w, negb (String.eqb (fst w) k)) ws) as Hle. fold rest in Hle. lia.
Qed.

(** Performing the same run of writes a second time changes nothing:
    neither the values nor the order of the keys. *)
Lemma applyWrites_twice ws m :
  applyWrites ws (applyWrites ws m) = applyWrites ws m.
Proof.
  revert ws. induction m as [|[k v] m IH]; intros ws.
  - apply applyWrites_twice_nil.
  - rewrite !applyWrites_cons. f_equal.
    + now destruct (lastWrite k ws).
    + apply IH.
Qed.

Lemma forEach_writes {A} (f : A → list (string * V) → list (string * V))
    (entries : list A) m :
  (∀ e m', f e m' = applyWrites (f e []) m') →
  forEach entries f m = applyWrites (concat (List.map (λ e, f e []) entries)) m.
Proof.
  intros Hf. revert m. induction entries as [|e entries IH]; intros m; [reflexivity|].
  change (forEach (e :: entries) f m) with (forEach entries f (f e m)).
  rewrite IH. cbn [List.map concat]. now rewrite applyWrites_app, <- Hf.
Qed.

End OrderedMap.

(** ** The unified index builder *)

Section IndexBuilder.

Lemma processState_write (s : Service) e (m : LocationMap) :
  processState s e m = applyWrites (stateWrite s e) m.
Proof. now destruct e. Qed.

Lemma processCounty_write (s : Service) e (m : LocationMap) :
  processCounty s e m = applyWrites (countyWrite s e) m.
Proof. now destruct e. Qed.

Lemma processCity_write (s : Service) e (m : LocationMap) :
  processCity s e m = applyWrites (cityWrite s e) m.
Proof. now destruct e. Qed.

Lemma processZip_write (s : Service) e (m : LocationMap) :
  processZip s (buildZipLookup (zipMasterData s)) e m = applyWrites (zipWrite s e) m.
Proof. now destruct e. Qed.

(** One run of the builder is the run of its writes on the map it
    finds. *)
Lemma buildUnifiedLookup_writes (s : Service) (idx : RedfInMasterIndex.t) :
  redfInIndex s = Some idx →
  buildUnifiedLookup s
  = {| redfInIndex := redfInIndex s;
       zipMasterData := zipMasterData s;
       unifiedLookup := applyWrites (writesOf s idx) (unifiedLookup s);
       isLoaded := isLoaded s |}.
Proof.
  intros H. unfold buildUnifiedLookup. rewrite H. f_equal.
  unfold writesOf. rewrite !applyWrites_app.
  rewrite (forEach_writes (processState s)) by apply processState_write.
  rewrite (forEach_writes (processCounty s)) by apply processCounty_write.
  rewrite (forEach_writes (processCity s)) by apply processCity_write.
  rewrite (forEach_writes (processZip s _)) by apply processZip_write.
  reflexivity.
Qed.

(** The writes depend on the taxonomy and the flat records only. *)
Lemma writesOf_inputs (s1 s2 : Service) (idx : RedfInMasterIndex.t) :
  redfInIndex s1 = redfInIndex s2 → zipMasterData s1 = zipMasterData s2 →
  writesOf s1 idx = writesOf s2 idx.
Proof.
  destruct s1 as [i1 d1 m1 l1], s2 as [i2 d2 m2 l2]. simpl.
  intros -> ->. reflexivity.
Qed.

(** C9: the build is deterministic.  Run a second time on the service
    it has just built, it leaves the service as it is: same keys, in
    the same order, with the same locations.  And two services that
    hold the same taxonomy, the same flat records and the same map
    before the build hold the same map after it. *)
Theorem buildUnifiedLookup_deterministic :
  (∀ s, buildUnifiedLookup (buildUnifiedLookup s) = buildUnifiedLookup s)
  ∧ (∀ s1 s2,
       redfInIndex s1 = redfInIndex s2 →
       zipMasterData s1 = zipMasterData s2 →
       unifiedLookup s1 = unifiedLookup s2 →
       unifiedLookup (buildUnifiedLookup s1) = unifiedLookup (buildUnifiedLookup s2)).
Proof.
  split.
  - intros s. destruct (redfInIndex s) as [idx|] eqn:E.
    + rewrite (buildUnifiedLookup_writes s idx E).
      rewrite (buildUnifiedLookup_writes _ idx) by exact E. simpl.
      rewrite (writesOf_inputs _ s idx) by reflexivity.
      now rewrite applyWrites_twice.
    + assert (H : buildUnifiedLookup s = s)
        by (unfold buildUnifiedLookup; now rewrite E).
      now rewrite !H.
  - intros s1 s2 Hi Hd Hm. destruct (redfInIndex s1) as [idx|] eqn:E.
    + rewrite (buildUnifiedLookup_writes s1 idx E).
      rewrite (buildUnifiedLookup_writes s2 idx) by congruence. simpl.
      rewrite (writesOf_inputs s1 s2 idx) by congruence. now rewrite Hm.
    + unfold buildUnifiedLookup. rewrite <- Hi, E. exact Hm.
Qed.

Lemma buildUnifiedLookup_deterministic_witness :
  unifiedLookup (buildUnifiedLookup mockInputs)
  = unifiedLookup (buildUnifiedLookup (setLoaded mockInputs))
  ∧ buildUnifiedLookup (buildUnifiedLookup mockInputs) = buildUnifiedLookup mockInputs.
Proof.
  destruct buildUnifiedLookup_deterministic as [Hidem Hsame].
  split.
  - apply Hsame; reflexivity.
  - apply Hidem.
Defined.

Lemma sameValueZero_eq (a b : value) : sameValueZero a b = true ↔ a = b.
Proof.
  split.
  - destruct a as [| |x|[|x]|x], b as [| |y|[|y]|y]; simpl;
      try discriminate; try reflexivity.
    + intros H. apply Bool.eqb_prop in H. congruence.
    + intros H. apply Z.eqb_eq in H. congruence.
    + intros H. apply String.eqb_eq in H. congruence.
  - intros <-. destruct a as [| |x|[|x]|x]; simpl;
      auto using Bool.eqb_reflx, Z.eqb_refl, String.eqb_refl.
Qed.

Lemma valueMapGet_set_eq {V} (k : value) (v : V) (m : list (value * V)) :
  valueMapGet k (valueMapSet k v m) = Some v.
Proof.
  assert (Hk : sameValueZero k k = true) by now apply sameValueZero_eq.
  induction m as [|[k' v'] m IH]; simpl.
  - now rewrite Hk.
  - destruct (sameValueZero k k') eqn:E; simpl; rewrite ?Hk, ?E; auto.
Qed.

Lemma valueMapGet_set_ne {V} (k k' : value) (v : V) (m : list (value * V)) :
  k ≠ k' → valueMapGet k' (valueMapSet k v m) = valueMapGet k' m.
Proof.
  intros Hne.
  assert (Hk : sameValueZero k' k = false).
  { destruct (sameValueZero k' k) eqn:E; [|reflexivity].
    apply sameValueZero_eq in E. congruence. }
  induction m as [|[k0 v0] m IH]; simpl.
  - now rewrite Hk.
  - destruct (sameValueZero k k0) eqn:E; simpl.
    + apply sameValueZero_eq in E as <-. now rewrite Hk.
    + now rewrite IH.
Qed.

(** The auxiliary map holds, under each key, the last flat record whose
    [zipcode] is that key: same type, same value. *)
Lemma buildZipLookup_lookup (records : list ZipMasterRecord.t) (k : value) :
  valueMapGet k (buildZipLookup records)
  = last (List.filter (λ r, sameValueZero (ZipMasterRecord.zipcode r) k) records).
Proof.
  unfold buildZipLookup, forEach.
  induction records as [|r records IH] using rev_ind; [reflexivity|].
  rewrite fold_left_app, List.filter_app. cbn [fold_left List.filter].
  destruct (sameValueZero (ZipMasterRecord.zipcode r) k) eqn:E.
  - apply sameValueZero_eq in E as <-. now rewrite valueMapGet_set_eq, last_snoc.
  - rewrite valueMapGet_set_ne, app_nil_r; [exact IH|].
    intros Heq. apply sameValueZero_eq in Heq. congruence.
Qed.

(** A record whose [zipcode] is a number is under no text key. *)
Lemma numeric_zipcode_not_found (records : list ZipMasterRecord.t) (code : string) :
  Forall (λ r, ∃ n, ZipMasterRecord.zipcode r = Num n) records →
  List.filter (λ r, sameValueZero (ZipMasterRecord.zipcode r) (Str code)) records = [].
Proof.
  induction 1 as [|r records [n Hn] _ IH]; [reflexivity|].
  cbn [List.filter]. now rewrite Hn, IH.
Qed.

Lemma zipWrites_lastWrite (s : Service) (entries : Entries ZipInfo.t)
    (z : string) (zipInfo : ZipInfo.t) :
  NoDup (List.map fst entries) → (z, zipInfo) ∈ entries →
  lastWrite ("zip:" +:+ z) (concat (List.map (zipWrite s) entries))
  = Some (unifiedZipOf s z zipInfo (valueMapGet (Str z) (buildZipLookup (zipMasterData s)))).
Proof.
  induction entries as [|[z' info'] entries IH]; intros Hnd Hin.
  - now apply elem_of_nil in Hin.
  - cbn [List.map fst] in Hnd. apply NoDup_cons in Hnd as [Hz' Hnd].
    change (concat (List.map (zipWrite s) ((z', info') :: entries)))
      with (("zip:" +:+ z', unifiedZipOf s z' info'
                              (valueMapGet (Str z') (buildZipLookup (zipMasterData s))))
            :: concat (List.map (zipWrite s) entries)).
    cbn [lastWrite]. apply elem_of_cons in Hin as [[= <- <-]|Hin].
    + assert (Hnone : ∀ es, z ∉ List.map fst es →
                lastWrite ("zip:" +:+ z) (concat (List.map (zipWrite s) es)) = None).
      { clear. induction es as [|[z1 i1] es IHes]; intros Hz; [reflexivity|].
        change (concat (List.map (zipWrite s) ((z1, i1) :: es)))
          with (("zip:" +:+ z1, unifiedZipOf s z1 i1
                                  (valueMapGet (Str z1) (buildZipLookup (zipMasterData s))))
                :: concat (List.map (zipWrite s) es)).
        cbn [lastWrite List.map fst] in *. rewrite not_elem_of_cons in Hz.
        destruct Hz as [Hne Hz]. rewrite (IHes Hz).
        destruct (String.eqb_spec ("zip:" +:+ z) ("zip:" +:+ z1)) as [E|_];
          [|reflexivity].
        apply (append_cancel_l "zip:") in E. congruence. }
      rewrite (Hnone entries Hz'). now rewrite String.eqb_refl.
    + now rewrite (IH Hnd Hin).
Qed.

(** C6 fails on the code for the records that [initialize] loads.
    For a taxonomy whose zip keys are distinct, every zip entry has a
    location under the key "zip:<code>", with the state name, " > " and
    the code as its path.  The location is built from the flat record
    found under the text [code] in the auxiliary map, that is from the
    last record whose [zipcode] is that very text: a record that carries
    the code as a number is not found.  So when the records carry
    numbers, as the parsed file does, every zip location has the
    coordinates (0,0) and three false flags, whatever the records hold
    for its code. *)
Theorem buildUnifiedLookup_zip (s : Service) (idx : RedfInMasterIndex.t)
    (code : string) (zipInfo : ZipInfo.t) :
  redfInIndex s = Some idx →
  NoDup (List.map fst (RedfInMasterIndex.zip_codes idx)) →
  (code, zipInfo) ∈ RedfInMasterIndex.zip_codes idx →
  let found :=
    last (List.filter (λ r, sameValueZero (ZipMasterRecord.zipcode r) (Str code))
                      (zipMasterData s)) in
  ∃ loc,
    mapGet ("zip:" +:+ code) (unifiedLookup (buildUnifiedLookup s)) = Some loc
    ∧ loc = unifiedZipOf s code zipInfo found
    ∧ zipCode loc = Some code
    ∧ hierarchicalPath loc
      = getStateName s (ZipInfo.state_code zipInfo) +:+ " > " +:+ code
    ∧ match found with
      | Some r =>
          ZipMasterRecord.zipcode r = Str code
          ∧ coordinates loc = (ZipMasterRecord.INTPTLAT r, ZipMasterRecord.INTPTLON r)
          ∧ hasData loc = {| census := ZipMasterRecord.has_census_data r;
                             redfin := ZipMasterRecord.has_redfin_data r;
                             geometry := ZipMasterRecord.has_geometry r |}
      | None =>
          coordinates loc = (0%float, 0%float)
          ∧ hasData loc = {| census := false; redfin := false; geometry := false |}
      end
    ∧ (Forall (λ r, ∃ n, ZipMasterRecord.zipcode r = Num n) (zipMasterData s) →
       coordinates loc = (0%float, 0%float)
       ∧ hasData loc = {| census := false; redfin := false; geometry := false |}
       ∧ geoJsonFile loc = None).
Proof.
  intros Hidx Hnd Hin found.
  exists (unifiedZipOf s code zipInfo found). split.
  - rewrite (buildUnifiedLookup_writes s idx Hidx). cbn [unifiedLookup].
    rewrite mapGet_applyWrites. unfold writesOf. rewrite !lastWrite_app.
    rewrite (zipWrites_lastWrite s _ code zipInfo Hnd Hin).
    now rewrite buildZipLookup_lookup.
  - split; [reflexivity|]. split; [reflexivity|]. split; [reflexivity|]. split.
    + destruct found as [r|] eqn:E; [|now split].
      split; [|now split]. unfold found in E. apply last_Some in E as [l' E].
      assert (Hr : In r (List.filter (λ r, sameValueZero (ZipMasterRecord.zipcode r)
                                                         (Str code)) (zipMasterData s)))
        by (rewrite E; apply in_or_app; right; now left).
      apply filter_In in Hr as [_ Hr]. now apply sameValueZero_eq.
    + intros Hnum. unfold found.
      rewrite (numeric_zipcode_not_found _ code Hnum). now repeat split.
Qed.

#[warnings="-inexact-float"]
Lemma buildUnifiedLookup_zip_witness :
  (∃ r, r ∈ zipMasterData parsedInputs
        ∧ ZipMasterRecord.zipcode r = Num (Int 90210)
        ∧ ZipMasterRecord.INTPTLAT r = 34.0901%float
        ∧ ZipMasterRecord.has_geometry r = true)
  ∧ (∃ loc,
       findByZip (initialize true true (Ok mockIndex) (Ok (zipMasterData parsedInputs))
                             newService) "90210"
       = Ok (Some loc)
       ∧ hierarchicalPath loc = "California > 90210"
       ∧ coordinates loc = (0%float, 0%float)
       ∧ geometry (hasData loc) = false)
  ∧ (∃ loc,
       mapGet "zip:90210" (unifiedLookup (buildUnifiedLookup mockInputs)) = Some loc
       ∧ coordinates loc = (34.0901%float, (-118.4065)%float)
       ∧ geometry (hasData loc) = true).
Proof.
  assert (Hnd : NoDup (List.map fst (RedfInMasterIndex.zip_codes mockIndex))).
  { vm_compute. repeat constructor; rewrite ?elem_of_cons, ?elem_of_nil;
      intuition discriminate. }
  assert (Hin : ("90210", {| ZipInfo.zip_code := "90210";
                             ZipInfo.state_code := "CA";
                             ZipInfo.property_types := [sfr "90210001"];
                             ZipInfo.primary_table_id := 90210001 |})
                ∈ RedfInMasterIndex.zip_codes mockIndex).
  { apply elem_of_cons. right. apply elem_of_cons. now left. }
  split; [|split].
  - eexists. split; [left|]. repeat split.
  - destruct (buildUnifiedLookup_zip parsedInputs mockIndex _ _ eq_refl Hnd Hin)
      as (loc & Hget & Hloc & _ & _ & _ & Hnum).
    exists loc. split.
    { change (Ok (mapGet "zip:90210" (unifiedLookup (buildUnifiedLookup parsedInputs)))
              = Ok (Some loc)).
      exact (f_equal Ok Hget). }
    split; [rewrite Hloc; reflexivity|].
    destruct Hnum as (Hc & Hd & _).
    { repeat constructor; eexists; reflexivity. }
    split; [exact Hc|]. now rewrite Hd.
  - destruct (buildUnifiedLookup_zip mockInputs mockIndex _ _ eq_refl Hnd Hin)
      as (loc & Hget & Hloc & _).
    exists loc. split; [exact Hget|]. rewrite Hloc. repeat split.
Defined.

End IndexBuilder.

(** ** The cities query *)

Section CitiesQuery.
Variable localeCompare : string → string → Z.

Lemma insertBy_Permutation {A} (cmp : A → A → Z) (x : A) (l : list A) :
  insertBy cmp x l ≡ₚ x :: l.
Proof.
  induction l as [|y l IH]; simpl; [reflexivity|].
  destruct (cmp x y <=? 0); [reflexivity|].
  rewrite IH. apply perm_swap.
Qed.

Lemma sortBy_Permutation {A} (cmp : A → A → Z) (l : list A) : sortBy cmp l ≡ₚ l.
Proof.
  induction l as [|x l IH]; simpl; [reflexivity|].
  now rewrite insertBy_Permutation, IH.
Qed.

(** What the filter of [getCitiesInState] does guarantee: the state
    code, a path of two segments, no "County" in the path. *)
Lemma getCitiesInState_filter (s : Service) (code : string)
    (locs : list UnifiedLocation) (loc : UnifiedLocation) :
  getCitiesInState localeCompare s code = Ok locs → loc ∈ locs →
  stateCode loc = code
  ∧ length (pathSegments loc) = 2%nat
  ∧ includes "County" (hierarchicalPath loc) = false.
Proof.
  unfold getCitiesInState, ensureLoaded.
  destruct (isLoaded s); [|discriminate]. cbn [bind]. intros [= <-].
  rewrite sortBy_Permutation, list_elem_of_In, filter_In.
  intros [_ H]. apply andb_prop in H as [H Hc]. apply andb_prop in H as [Hs Hp].
  repeat split.
  - now apply String.eqb_eq.
  - now apply Nat.eqb_eq.
  - now apply negb_true_iff.
Qed.

(** C7 fails on the code: on the substitute data the cities query for
    "CA" returns the location of zip 90210, whose zip code is set and
    which [getStats] counts as a zip.  The filter of the query never
    looks at the zip code. *)
Theorem getCitiesInState_returns_zip :
  ∃ locs,
    getCitiesInState localeCompare substituteService "CA" = Ok locs
    ∧ length locs = 2%nat
    ∧ Exists (λ loc, zipCode loc = Some "90210"
                     ∧ hierarchicalPath loc = "California > 90210"
                     ∧ locationType loc = "zip") locs.
Proof.
  eexists. split; [reflexivity|]. split.
  - rewrite sortBy_Permutation. vm_compute. reflexivity.
  - rewrite sortBy_Permutation.
    match goal with
    | |- Exists _ ?l => let l' := eval vm_compute in l in change l with l'
    end.
    apply Exists_cons_tl, Exists_cons_hd. repeat split.
Qed.

End CitiesQuery.

(** ** Further properties of the index files and the cache *)

Section LoadedIndexes.

Lemma parseCell_typed (header : string) (cell : option string) :
  csvValue header (parseCell header cell).
Proof.
  unfold csvValue, parseCell. destruct (isNumericHeader header).
  - destruct (negb _); [right; eauto | now left].
  - eauto.
Qed.

Lemma fillRecord_lookup (headers : list string) (index : nat)
    (values : list string) (record : Row) (k : string) :
  fillRecord headers index values record !! k
  = match last (List.filter (λ hi, String.eqb hi.1 k)
                  (zip headers (seq index (length headers)))) with
    | Some hi => Some (parseCell k (values !! hi.2))
    | None => record !! k
    end.
Proof.
  revert index record. induction headers as [|header rest IH]; intros index record;
    [reflexivity|].
  cbn [fillRecord length seq zip zip_with List.filter fst]. rewrite IH.
  fold (zip rest (seq (S index) (length rest))).
  destruct (last (List.filter _ (zip rest _))) as [hi|] eqn:E.
  - destruct (String.eqb_spec header k) as [->|_].
    + change (?x :: ?l) with ([x] ++ l). now rewrite last_app, E.
    + now rewrite E.
  - destruct (String.eqb_spec header k) as [->|Hne].
    + change (?x :: ?l) with ([x] ++ l). rewrite last_app, E.
      now rewrite lookup_insert_eq.
    + rewrite E. now rewrite lookup_insert_ne.
Qed.



Lemma parseLine_typed (headers : list string) (line : string) :
  csvTyped (parseLine headers line).
Proof.
  intros k v. unfold parseLine. rewrite fillRecord_lookup.
  destruct (last _); [|now rewrite lookup_empty].
  intros [= <-]. apply parseCell_typed.
Qed.


Lemma rowsOf_typed (o : FetchOutcome) : Forall csvTyped (rowsOf o).
Proof.
  unfold rowsOf, loadStateCSV_try. destruct o as [|r]; [constructor|].
  destruct (ok r); simpl; [|constructor].
  destruct (text r) as [t|]; simpl; [|constructor].
  unfold parseCSV. destruct (List.filter _ _) as [|first rest]; [constructor|].
  apply List.Forall_forall. intros row (line & <- & _)%in_map_iff. apply parseLine_typed.
Qed.

(** The cache of a reachable state holds rows of index files only. *)
Lemma reachable_typed (h : Host) (w : World) :
  Reachable h w →
  ∀ stateAbbrev e, stateIndexCache w !! stateAbbrev = Some e → typedEntry e.
Proof.
  induction 1 as [|s level w Hw IH|o w Hw IH]; intros k e.
  - unfold freshWorld. cbn [stateIndexCache]. now rewrite lookup_empty.
  - destruct (stateIndexCache w !! s) as [e'|] eqn:E.
    + rewrite loadStateIndexes_hit by eauto. apply IH.
    + rewrite (loadStateIndexes_miss _ _ _ _ E). simpl.
      destruct (decide (s = k)) as [->|Hne].
      * rewrite lookup_insert_eq. intros [= <-].
        repeat split; apply rowsOf_typed.
      * rewrite lookup_insert_ne by exact Hne. apply IH.
  - unfold clearStateCache. destruct o as [s|]; simpl.
    + destruct (negb _); simpl; [|now rewrite lookup_empty].
      destruct (decide (s = k)) as [->|Hne].
      * now rewrite lookup_delete_eq.
      * rewrite lookup_delete_ne by exact Hne. apply IH.
    + now rewrite lookup_empty.
Qed.

Lemma typed_get (row : Row) (header : string) :
  csvTyped row →
  if isNumericHeader header
  then get row header = Undefined ∨ get row header = Null ∨ ∃ n, get row header = Num n
  else get row header = Undefined ∨ ∃ s, get row header = Str s.
Proof.
  intros Ht. unfold get. destruct (row !! header) as [v|] eqn:E; simpl.
  - specialize (Ht header v E). unfold csvValue in Ht.
    destruct (isNumericHeader header); intuition.
  - destruct (isNumericHeader header); now left.
Qed.

Lemma find_ok {A} (p : A → result bool) (l : list A) :
  Forall (λ x, ∃ b, p x = Ok b) l → ∃ r, find p l = Ok r.
Proof.
  induction 1 as [|x l [b Hb] _ IH]; simpl; [eauto|].
  rewrite Hb. destruct b; eauto.
Qed.

Lemma countyByName_typed (area : string) (row : Row) :
  csvTyped row → ∃ b, countyByName area row = Ok b.
Proof.
  intros Ht. unfold countyByName, orElse, optNameIncludes.
  pose proof (typed_get row "NAME" Ht) as H1.
  pose proof (typed_get row "NAMELSAD" Ht) as H2.
  pose proof (typed_get row "region" Ht) as H3.
  change (isNumericHeader "NAME") with false in H1.
  change (isNumericHeader "NAMELSAD") with false in H2.
  change (isNumericHeader "region") with false in H3.
  destruct H1 as [-> | [s1 ->]], H2 as [-> | [s2 ->]], H3 as [-> | [s3 ->]];
    cbn [bind];
    repeat match goal with
      | |- context [if ?c then _ else _] => destruct c; cbn [bind]
      end; eauto.
Qed.

(** X2: in every reachable state [getRedfinId] returns normally,
    whatever the state code, the area and the level, and its result is
    [null] or a number: the name strategy, the only one that can throw,
    meets only texts in the rows of an index file. *)
Theorem getRedfinId_total (h : Host) (w : World) (stateAbbrev area level : string) :
  Reachable h w →
  ∃ v, getRedfinId stateAbbrev area level w = Ok v ∧ nullOrNumber v.
Proof.
  intros Hw. unfold getRedfinId, nullOrNumber.
  destruct (stateIndexCache w !! stateAbbrev) as [e|] eqn:E; [|eauto].
  destruct (reachable_typed h w Hw _ _ E) as (Hc & _ & _).
  assert (Hzip : ∃ r, (if String.eqb level "zip" then getRedfinIdZip e area else Ok None)
                      = Ok r ∧ ∀ v, r = Some v → ∃ n, v = Num n).
  { destruct (String.eqb level "zip"); [|exists None; split; [reflexivity | discriminate]].
    unfold getRedfinIdZip.
    destruct (find_ok (zipExact area) (zips e)) as [r1 ->];
      [apply Forall_forall; intros; unfold zipExact; eauto|]. cbn [bind].
    assert (∃ r2, match r1 with
                  | Some r => Ok (Some r)
                  | None => find (zipNormalized area) (zips e)
                  end = Ok r2) as [r2 ->].
    { destruct r1; [eauto|]. apply find_ok, Forall_forall.
      intros; unfold zipNormalized; eauto. }
    cbn [bind]. destruct r2 as [r|].
    - destruct (truthy _); eexists; (split; [reflexivity|]); intros v [= <-]; eauto.
    - eexists; split; [reflexivity | discriminate]. }
  destruct Hzip as (rz & -> & Hrz). cbn [bind].
  destruct rz as [v|]; [destruct (Hrz v eq_refl) as [n ->]; eauto|].
  destruct (String.eqb level "county"); cbn [bind]; [|eauto].
  unfold getRedfinIdCounty.
  destruct (find_ok (countyByGeoid area) (counties e)) as [r1 ->];
    [apply Forall_forall; intros; unfold countyByGeoid; eauto|]. cbn [bind].
  destruct r1; cbn [bind]; [unfold tableIdOf; eauto|].
  destruct (find_ok (countyByFredFips area) (counties e)) as [r2 ->];
    [apply Forall_forall; intros; unfold countyByFredFips; eauto|]. cbn [bind].
  destruct r2; cbn [bind]; [unfold tableIdOf; eauto|].
  destruct (find_ok (countyByName area) (counties e)) as [r3 ->].
  { eapply Forall_impl; [exact Hc|]. intros row. apply countyByName_typed. }
  cbn [bind]. destruct r3; cbn [bind]; [unfold tableIdOf; eauto|].
  destruct (find_ok (countyNormalized area) (counties e)) as [r4 ->];
    [apply Forall_forall; intros; unfold countyNormalized; eauto|]. cbn [bind].
  destruct r4; cbn [bind]; unfold tableIdOf; eauto.
Qed.

Lemma getRedfinId_total_witness :
  ∃ v, getRedfinId "CA" "001" "county" sampleWorld = Ok v ∧ nullOrNumber v.
Proof.
  apply (getRedfinId_total sampleHost). apply reach_load, reach_fresh.
Defined.

Lemma strictEq_typed_numeric (row : Row) (header area : string) :
  csvTyped row → isNumericHeader header = true →
  strictEq (get row header) (Str area) = false.
Proof.
  intros Ht Hn. pose proof (typed_get row header Ht) as H. rewrite Hn in H.
  destruct H as [-> | [-> | [n ->]]]; reflexivity.
Qed.

(** X3: on the rows of loaded index files the two exact strategies of
    county resolution never find a row: the [GEOID] and
    [fred_county_fips] columns are parsed to numbers (or [null]) and the
    area is a text, so the strict comparison is always false.  In every
    reachable state the answer is decided by name matching and, failing
    that, by normalized matching. *)
Theorem getRedfinId_exact_never_matches (h : Host) (w : World)
    (stateAbbrev area : string) (stateData : StateIndexCacheEntry) :
  Reachable h w →
  stateIndexCache w !! stateAbbrev = Some stateData →
  let rows := counties stateData in
  noMatch (countyByGeoid area) rows
  ∧ noMatch (countyByFredFips area) rows
  ∧ getRedfinId stateAbbrev area "county" w
    = bind (find (countyByName area) rows) (λ byName,
      match byName with
      | Some r => Ok (tableIdOf r)
      | None =>
          bind (find (countyNormalized area) rows) (λ normalized,
          match normalized with
          | Some r => Ok (tableIdOf r)
          | None => Ok Null
          end)
      end).
Proof.
  intros Hw Hc rows.
  destruct (reachable_typed h w Hw _ _ Hc) as (Ht & _ & _). fold rows in Ht.
  assert (H1 : noMatch (countyByGeoid area) rows).
  { eapply Forall_impl; [exact Ht|]. intros row Hrow. unfold countyByGeoid.
    now rewrite (strictEq_typed_numeric row "GEOID" area Hrow eq_refl). }
  assert (H2 : noMatch (countyByFredFips area) rows).
  { eapply Forall_impl; [exact Ht|]. intros row Hrow. unfold countyByFredFips.
    now rewrite (strictEq_typed_numeric row "fred_county_fips" area Hrow eq_refl). }
  split; [exact H1|]. split; [exact H2|].
  unfold getRedfinId. rewrite Hc.
  change (String.eqb "county" "zip") with false.
  change (String.eqb "county" "county") with true.
  cbn [bind]. unfold getRedfinIdCounty. fold rows.
  apply find_noMatch in H1 as ->. apply find_noMatch in H2 as ->. cbn [bind].
  destruct (find (countyByName area) rows) as [[r|]|]; cbn [bind]; try reflexivity.
  destruct (find (countyNormalized area) rows) as [[r|]|]; reflexivity.
Qed.

Lemma getRedfinId_exact_never_matches_witness :
  noMatch (countyByGeoid "6001") sampleCounties.
Proof.
  assert (Hc : stateIndexCache sampleWorld !! "CA" = Some sampleStateData)
    by (vm_compute; reflexivity).
  exact (proj1 (getRedfinId_exact_never_matches sampleHost sampleWorld "CA" "6001"
                  sampleStateData (reach_load _ _ _ _ (reach_fresh _)) Hc)).
Defined.

Lemma filterM_ok {A} (p : A → result bool) (l : list A) :
  Forall (λ x, ∃ b, p x = Ok b) l →
  ∃ kept, filterM p l = Ok kept ∧ kept `sublist_of` l.
Proof.
  induction 1 as [|x l [b Hb] _ (kept & IH & Hs)]; simpl.
  - exists []. split; [reflexivity | constructor].
  - rewrite Hb, IH. cbn [bind]. destruct b; eexists; split; try reflexivity;
      now constructor.
Qed.

(** X4: the two relationship queries answer with the empty list for a
    state that is not cached.  In every reachable state
    [getZipsInCounty] returns normally, with cached zip rows in their
    order, and [getTractsInZip] finds a tract through its
    [zip_code_clean] or [ZIPCODE] column only: the [zipcode] column of a
    loaded file is numeric and never equals the text asked for. *)
Theorem relationship_queries (h : Host) (w : World) (stateAbbrev key : string) :
  Reachable h w →
  (stateIndexCache w !! stateAbbrev = None →
     getTractsInZip stateAbbrev key w = [] ∧ getZipsInCounty stateAbbrev key w = Ok [])
  ∧ (∀ stateData, stateIndexCache w !! stateAbbrev = Some stateData →
       (∃ found, getZipsInCounty stateAbbrev key w = Ok found
                 ∧ found `sublist_of` zips stateData)
       ∧ getTractsInZip stateAbbrev key w
         = List.filter (λ row, strictEq (get row "zip_code_clean") (Str key)
                               || strictEq (get row "ZIPCODE") (Str key))
                       (tracts stateData)).
Proof.
  intros Hw. unfold getTractsInZip, getZipsInCounty. split.
  - intros ->. split; reflexivity.
  - intros e He. rewrite He.
    destruct (reachable_typed h w Hw _ _ He) as (_ & Hz & Ht). split.
    + apply filterM_ok. eapply Forall_impl; [exact Hz|]. intros row Hrow.
      unfold orElse, optNameIncludes.
      pose proof (typed_get row "redfin_county_name" Hrow) as H1.
      pose proof (typed_get row "county_name" Hrow) as H2.
      change (isNumericHeader "redfin_county_name") with false in H1.
      change (isNumericHeader "county_name") with false in H2.
      destruct H1 as [-> | [s1 ->]], H2 as [-> | [s2 ->]]; cbn [bind];
        repeat match goal with
          | |- context [if ?c then _ else _] => destruct c; cbn [bind]
          end; eauto.
    + induction Ht as [|row rows Hrow _ IH]; [reflexivity|].
      cbn [List.filter]. rewrite IH.
      now rewrite (strictEq_typed_numeric row "zipcode" key Hrow eq_refl), orb_false_r.
Qed.

Lemma relationship_queries_witness :
  getTractsInZip "NV" "89101" sampleWorld = []
  ∧ getZipsInCounty "NV" "89101" sampleWorld = Ok [].
Proof.
  destruct (relationship_queries sampleHost sampleWorld "NV" "89101"
              (reach_load _ _ _ _ (reach_fresh _))) as [H _].
  apply H. vm_compute. reflexivity.
Defined.

(** X5: the accounting of a reachable state.  Requests are issued three
    at a time and there are as many clock readings as requests; every
    cached state has had its three index files requested, so a state
    whose files were never requested is not cached. *)
Theorem reachable_accounting (h : Host) (w : World) :
  Reachable h w →
  clockReads w = length (requests w)
  ∧ (∃ n, length (requests w) = (3 * n)%nat)
  ∧ ∀ stateAbbrev, is_Some (stateIndexCache w !! stateAbbrev) →
      ∀ url, url ∈ indexUrls stateAbbrev → url ∈ requests w.
Proof.
  induction 1 as [|s level w Hw (IHc & [n IHn] & IHu)|o w Hw (IHc & IHn & IHu)].
  - split; [reflexivity|]. split; [now exists O|].
    intros k [e He]. unfold freshWorld in He. cbn [stateIndexCache] in He.
    now rewrite lookup_empty in He.
  - destruct (stateIndexCache w !! s) as [e'|] eqn:E.
    + rewrite loadStateIndexes_hit by eauto. cbn [snd]. eauto.
    + rewrite (loadStateIndexes_miss _ _ _ _ E). cbn [snd clockReads requests stateIndexCache].
      rewrite length_app. cbn [indexUrls length]. split; [lia|].
      split; [exists (S n); lia|]. intros k Hk url Hurl. apply elem_of_app.
      destruct (decide (s = k)) as [->|Hne]; [now right|].
      rewrite lookup_insert_ne in Hk by exact Hne. left. now apply (IHu k).
  - assert (Hr : requests (clearStateCache o w) = requests w
                 ∧ clockReads (clearStateCache o w) = clockReads w).
    { unfold clearStateCache. destruct o as [s|]; [destruct (truthy _)|]; now split. }
    destruct Hr as [-> ->]. split; [exact IHc|]. split; [exact IHn|].
    intros k Hk. apply IHu. revert Hk. unfold clearStateCache.
    destruct o as [s|]; [destruct (truthy _)|]; cbn [stateIndexCache];
      rewrite ?lookup_empty; try (intros [? ?]; discriminate).
    destruct (decide (s = k)) as [->|Hne].
    + rewrite lookup_delete_eq. intros [? ?]; discriminate.
    + now rewrite lookup_delete_ne.
Qed.

Lemma reachable_accounting_witness :
  clockReads sampleWorld = length (requests sampleWorld).
Proof.
  exact (proj1 (reachable_accounting sampleHost sampleWorld
                  (reach_load _ _ _ _ (reach_fresh _)))).
Defined.

(** X6: invalidation followed by a load fetches again.  After
    [clearStateCache] for a non-empty state code, or for the whole
    cache, the next [loadStateIndexes] of that state answers [true],
    issues the state's three requests anew and stores an entry; with a
    targeted invalidation the entries of the other states are as
    before. *)
Theorem clear_then_load_refetches (h : Host) (w : World) (stateAbbrev : string)
    (level : option string) :
  stateAbbrev ≠ "" →
  let reloaded := loadStateIndexes h stateAbbrev level
                    (clearStateCache (Some stateAbbrev) w) in
  let reloadedAll := loadStateIndexes h stateAbbrev level (clearStateCache None w) in
  fst reloaded = true
  ∧ requests (snd reloaded) = requests w ++ indexUrls stateAbbrev
  ∧ is_Some (stateIndexCache (snd reloaded) !! stateAbbrev)
  ∧ (∀ other, other ≠ stateAbbrev →
       stateIndexCache (snd reloaded) !! other = stateIndexCache w !! other)
  ∧ fst reloadedAll = true
  ∧ requests (snd reloadedAll) = requests w ++ indexUrls stateAbbrev
  ∧ (∀ other, other ≠ stateAbbrev → stateIndexCache (snd reloadedAll) !! other = None).
Proof.
  intros Hne reloaded reloadedAll.
  assert (Hc : clearStateCache (Some stateAbbrev) w
               = {| stateIndexCache := delete stateAbbrev (stateIndexCache w);
                    requests := requests w; clockReads := clockReads w |}).
  { unfold clearStateCache. simpl.
    now destruct (String.eqb_spec stateAbbrev ""). }
  subst reloaded reloadedAll. rewrite Hc.
  rewrite loadStateIndexes_miss by (cbn [stateIndexCache]; apply lookup_delete_eq).
  rewrite loadStateIndexes_miss by (cbn; apply lookup_empty).
  cbn [fst snd requests stateIndexCache clearStateCache].
  repeat split.
  - rewrite lookup_insert_eq. eauto.
  - intros other Ho. rewrite lookup_insert_ne by congruence.
    now apply lookup_delete_ne.
  - intros other Ho. rewrite lookup_insert_ne by congruence. apply lookup_empty.
Qed.

Lemma clear_then_load_refetches_witness :
  requests (snd (loadStateIndexes sampleHost "CA" None
                   (clearStateCache (Some "CA") sampleWorld)))
  = requests sampleWorld ++ indexUrls "CA".
Proof.
  destruct (clear_then_load_refetches sampleHost sampleWorld "CA" None
              ltac:(discriminate)) as (_ & H & _).
  exact H.
Defined.

End LoadedIndexes.

(** ** Further properties of normalization and identifier collection *)

Section Identifiers.

Lemma sliceLast_five (s : string) :
  String.length s = 5%nat →
  ∃ a b t, s = String a (String b t) ∧ sliceLast 3 s = t ∧ String.length t = 3%nat.
Proof.
  intros H.
  destruct s as [|a [|b [|c [|d [|e [|f s]]]]]]; simpl in H; try discriminate.
  exists a, b. eexists. repeat split.
Qed.

Lemma normalizeCountyCode_shape (county : value) :
  normalizeCountyCode county = ""
  ∨ (allDigits (normalizeCountyCode county) = true
     ∧ (3 ≤ String.length (normalizeCountyCode county))%nat
     ∧ String.length (normalizeCountyCode county) ≠ 5%nat).
Proof.
  unfold normalizeCountyCode.
  destruct (negb (truthy county) && negb (strictEq county (Num (Int 0)))); [now left|].
  right. set (clean := stripNonDigits (trim (coerceToString county))).
  assert (Hd : allDigits clean = true) by apply allDigits_strip.
  destruct (Nat.eqb_spec (String.length clean) 5) as [E|E].
  - destruct (sliceLast_five clean E) as (a & b & t & Hs & -> & Hl).
    rewrite Hs in Hd. cbn [allDigits] in Hd.
    apply andb_prop in Hd as [_ Hd]. apply andb_prop in Hd as [_ Hd].
    repeat split; [exact Hd | lia | lia].
  - repeat split.
    + now apply allDigits_padStart0.
    + rewrite length_padStart0. lia.
    + rewrite length_padStart0. lia.
Qed.

(** X7: [normalizeCountyCode] is idempotent, its result is empty or a
    run of at least three digits that never has exactly five, and a
    five-digit state-and-county code normalizes to the same text as its
    three-digit county part. *)
Theorem normalizeCountyCode_idempotent :
  (∀ county,
     normalizeCountyCode (Str (normalizeCountyCode county)) = normalizeCountyCode county)
  ∧ (∀ county,
       normalizeCountyCode county = ""
       ∨ (allDigits (normalizeCountyCode county) = true
          ∧ (3 ≤ String.length (normalizeCountyCode county))%nat
          ∧ String.length (normalizeCountyCode county) ≠ 5%nat))
  ∧ (∀ st c,
       String.length st = 2%nat → allDigits st = true →
       String.length c = 3%nat → allDigits c = true →
       normalizeCountyCode (Str (st +:+ c)) = c
       ∧ normalizeCountyCode (Str c) = c).
Proof.
  split; [|split; [apply normalizeCountyCode_shape|]].
  - intros county.
    destruct (normalizeCountyCode_shape county) as [-> | (Hd & Hl & H5)]; [reflexivity|].
    set (out := normalizeCountyCode county) in *.
    unfold normalizeCountyCode. rewrite truthy_nonempty by lia. simpl.
    rewrite (trim_digits out Hd), (strip_digits out Hd).
    destruct (Nat.eqb_spec (String.length out) 5); [contradiction|].
    apply padStart0_long. lia.
  - intros st c Hst Hdst Hc Hdc.
    assert (Hd : allDigits (st +:+ c) = true) by now apply allDigits_append.
    assert (Hl : String.length (st +:+ c) = 5%nat) by (rewrite length_append; lia).
    split.
    + unfold normalizeCountyCode. rewrite truthy_nonempty by lia. simpl.
      rewrite (trim_digits _ Hd), (strip_digits _ Hd), Hl. simpl.
      destruct st as [|a [|b [|x st]]]; simpl in Hst; try discriminate.
      destruct c as [|c1 [|c2 [|c3 [|y c]]]]; simpl in Hc; try discriminate.
      reflexivity.
    + unfold normalizeCountyCode. rewrite truthy_nonempty by lia. simpl.
      rewrite (trim_digits _ Hdc), (strip_digits _ Hdc), Hc. simpl.
      apply padStart0_long. lia.
Qed.

Lemma normalizeCountyCode_idempotent_witness :
  normalizeCountyCode (Str ("06" +:+ "001")) = "001"
  ∧ normalizeCountyCode (Str "001") = "001".
Proof.
  apply (proj2 (proj2 normalizeCountyCode_idempotent)); reflexivity.
Defined.

(** *** Printing and reading integers *)

Ltac digit_step :=
  cbn [NilEmpty.string_of_uint readDigits Pos.of_uint_acc Pos.of_uint];
  match goal with
  | |- context [digitValue 10 ?c] =>
      let v := eval vm_compute in (digitValue 10 c) in
      change (digitValue 10 c) with v
  end;
  cbn [from_option id].

Lemma readDigits_acc (d : Decimal.uint) (acc : positive) :
  readDigits 10 (NilEmpty.string_of_uint d) (Some (Z.pos acc))
  = Some (Z.pos (Pos.of_uint_acc d acc)).
Proof.
  revert acc.
  induction d as [|d IH|d IH|d IH|d IH|d IH|d IH|d IH|d IH|d IH|d IH]; intros acc;
    [reflexivity|..]; digit_step; rewrite <- IH; f_equal; f_equal; lia.
Qed.

Lemma readDigits_zero (d : Decimal.uint) :
  readDigits 10 (NilEmpty.string_of_uint d) (Some 0) = Some (Z.of_N (Pos.of_uint d)).
Proof.
  induction d as [|d IH|d IH|d IH|d IH|d IH|d IH|d IH|d IH|d IH|d IH];
    [reflexivity|..]; digit_step;
    [exact IH | apply readDigits_acc ..].
Qed.

Lemma readDigits_start (d : Decimal.uint) :
  d ≠ Decimal.Nil →
  readDigits 10 (NilEmpty.string_of_uint d) None = Some (Z.of_N (Pos.of_uint d)).
Proof.
  intros Hd. rewrite <- readDigits_zero. destruct d; [contradiction|..]; reflexivity.
Qed.


Lemma allDigits_string_of_uint (d : Decimal.uint) :
  allDigits (NilEmpty.string_of_uint d) = true.
Proof. induction d; cbn [NilEmpty.string_of_uint allDigits]; auto. Qed.

Lemma parseIntString_digits (s : string) :
  allDigits s = true → s ≠ "" →
  parseIntString s
  = match readDigits 10 s None with Some v => Int (1 * v) | None => NaN end
  ∧ parseIntString (String "-" s)
    = match readDigits 10 s None with Some v => Int (-1 * v) | None => NaN end.
Proof.
  intros H Hne. destruct s as [|c r]; [contradiction|]. clear Hne.
  cbn [allDigits] in H. apply andb_prop in H as [Hc Hr].
  destruct c as [[] [] [] [] [] [] [] []]; try discriminate Hc; clear Hc;
    try (split; reflexivity).
  destruct r as [|c2 r]; [split; reflexivity|].
  cbn [allDigits] in Hr. apply andb_prop in Hr as [Hc2 _].
  destruct c2 as [[] [] [] [] [] [] [] []]; try discriminate Hc2;
    split; reflexivity.
Qed.

Lemma parseInt_roundtrip (z : Z) : parseInt (Num (Int z)) = Int z.
Proof.
  unfold parseInt, coerceToString, numberToString.
  destruct z as [|p|p]; [reflexivity|..]; unfold Z.to_int, NilZero.string_of_int.
  - assert (Hn : Pos.to_uint p ≠ Decimal.Nil) by apply Unsigned.to_uint_nonnil.
    assert (Hs : NilZero.string_of_uint (Pos.to_uint p)
                 = NilEmpty.string_of_uint (Pos.to_uint p))
      by (unfold NilZero.string_of_uint; now destruct (Pos.to_uint p)).
    rewrite Hs.
    destruct (parseIntString_digits (NilEmpty.string_of_uint (Pos.to_uint p))) as [-> _].
    { apply allDigits_string_of_uint. }
    { destruct (Pos.to_uint p); [contradiction|..]; discriminate. }
    rewrite (readDigits_start _ Hn), DecimalPos.Unsigned.of_to. reflexivity.
  - assert (Hn : Pos.to_uint p ≠ Decimal.Nil) by apply Unsigned.to_uint_nonnil.
    assert (Hs : NilZero.string_of_uint (Pos.to_uint p)
                 = NilEmpty.string_of_uint (Pos.to_uint p))
      by (unfold NilZero.string_of_uint; now destruct (Pos.to_uint p)).
    rewrite Hs.
    destruct (parseIntString_digits (NilEmpty.string_of_uint (Pos.to_uint p))) as [_ ->].
    { apply allDigits_string_of_uint. }
    { destruct (Pos.to_uint p); [contradiction|..]; discriminate. }
    rewrite (readDigits_start _ Hn), DecimalPos.Unsigned.of_to. reflexivity.
Qed.

(** X8: for a safe integer, [parseInt] reads back the integer that
    [toString] printed, so the identifier returned for a matched row is
    the row's own [table_id]: the same number when the cell holds a safe
    integer, and [NaN] when a row of a loaded index has the cell empty
    or lacks the column.  Beyond the safe integers the statement is not
    made: from 1e21 the printed text has an exponent and [parseInt]
    stops at its first digits. *)
Theorem tableIdOf_loaded (row : Row) :
  (∀ z, safeInteger z →
        get row "table_id" = Num (Int z) → tableIdOf row = Num (Int z))
  ∧ (csvTyped row →
     (∀ z, get row "table_id" = Num (Int z) → safeInteger z) →
       tableIdOf row = match get row "table_id" with
                       | Num n => Num n
                       | _ => Num NaN
                       end).
Proof.
  unfold tableIdOf. split.
  - intros z _ ->. now rewrite parseInt_roundtrip.
  - intros Ht _. pose proof (typed_get row "table_id" Ht) as H.
    change (isNumericHeader "table_id") with true in H.
    destruct H as [-> | [-> | [[|z] ->]]]; try reflexivity.
    now rewrite parseInt_roundtrip.
Qed.

Lemma tableIdOf_loaded_witness :
  safeInteger 111 ∧ tableIdOf (hd ∅ sampleCounties) = Num (Int 111).
Proof.
  assert (Hs : safeInteger 111) by (unfold safeInteger; lia).
  split; [exact Hs|].
  apply (proj1 (tableIdOf_loaded (hd ∅ sampleCounties)) 111 Hs). vm_compute. reflexivity.
Defined.

(** *** The collected identifiers *)

Lemma sameNumber_refl (n : number) : sameNumber n n = true.
Proof. destruct n; simpl; [reflexivity | apply Z.eqb_refl]. Qed.

Lemma setAdd_good (n : number) (ids : list number) :
  goodId n → NoDup ids → Forall goodId ids →
  NoDup (setAdd n ids) ∧ Forall goodId (setAdd n ids)
  ∧ (length (setAdd n ids) ≤ S (length ids))%nat.
Proof.
  intros Hn Hnd Hg. unfold setAdd, arrayIncludes.
  destruct (existsb (sameNumber n) ids) eqn:E; [repeat split; auto|].
  repeat split.
  - apply NoDup_app. split; [exact Hnd|]. split; [|apply NoDup_singleton].
    intros x Hx ->%list_elem_of_singleton.
    assert (existsb (sameNumber n) ids = true); [|congruence].
    apply existsb_exists. exists n. split; [now apply list_elem_of_In|].
    apply sameNumber_refl.
  - apply Forall_app. split; [exact Hg | now constructor].
  - rewrite length_app. simpl. lia.
Qed.

Lemma collectFeature_good (stateAbbrev level : string) (w : World)
    (ids ids' : list number) (feature : Feature) :
  collectFeature stateAbbrev level w ids feature = Ok ids' →
  NoDup ids → Forall goodId ids →
  NoDup ids' ∧ Forall goodId ids' ∧ (length ids' ≤ S (length ids))%nat
  ∧ (String.eqb level "zip" || String.eqb level "county" = false → ids' = ids).
Proof.
  intros H Hnd Hg. unfold collectFeature in H.
  assert (Hlookup : ∀ key lvl,
    (if truthy key
     then bind (getRedfinId stateAbbrev (coerceToString key) lvl w) (λ redfinId,
          match redfinId with
          | Num n => if truthy redfinId then Ok (setAdd n ids) else Ok ids
          | _ => Ok ids
          end)
     else Ok ids) = Ok ids' →
    NoDup ids' ∧ Forall goodId ids' ∧ (length ids' ≤ S (length ids))%nat).
  { intros key lvl Hk. destruct (truthy key); cbn [bind] in Hk;
      [|injection Hk as <-; auto].
    destruct (getRedfinId stateAbbrev (coerceToString key) lvl w) as [v|];
      cbn [bind] in Hk; [|discriminate Hk].
    destruct v as [| |b|n|t]; try (injection Hk as <-; auto).
    destruct n as [|z]; simpl in Hk; [injection Hk as <-; auto|].
    destruct (Z.eqb_spec z 0); simpl in Hk; injection Hk as <-; auto.
    apply setAdd_good; auto. now exists z. }
  destruct (String.eqb level "zip").
  - destruct (Hlookup _ _ H) as (? & ? & ?). repeat split; auto. discriminate.
  - destruct (String.eqb level "county").
    + destruct (Hlookup _ _ H) as (? & ? & ?). repeat split; auto. discriminate.
    + injection H as <-. repeat split; auto.
Qed.

Lemma collectFeatures_good (stateAbbrev level : string) (w : World)
    (features : list Feature) (ids ids' : list number) :
  collectFeatures stateAbbrev level w ids features = Ok ids' →
  NoDup ids → Forall goodId ids →
  NoDup ids' ∧ Forall goodId ids'
  ∧ (length ids' ≤ length ids + length features)%nat
  ∧ (String.eqb level "zip" || String.eqb level "county" = false → ids' = ids).
Proof.
  revert ids. induction features as [|f features IH]; intros ids H Hnd Hg.
  - injection H as <-. repeat split; auto. simpl. lia.
  - cbn [collectFeatures] in H.
    destruct (collectFeature stateAbbrev level w ids f) as [ids1|] eqn:E; [|discriminate].
    cbn [bind] in H.
    destruct (collectFeature_good _ _ _ _ _ _ E Hnd Hg) as (Hnd1 & Hg1 & Hl1 & He1).
    destruct (IH ids1 H Hnd1 Hg1) as (Hnd2 & Hg2 & Hl2 & He2).
    repeat split; auto; [simpl; lia|]. intros Hlv. now rewrite (He2 Hlv), (He1 Hlv).
Qed.

(** X9: the identifiers that [getRelevantRedfinIds] collects are
    pairwise distinct non-zero integers ([NaN] and 0 are never
    collected), there are at most 50 of them and no more than there are
    features, and for a level other than "zip" and "county" there is
    none. *)
Theorem getRelevantRedfinIds_collected (h : Host) (stateAbbrev level : string)
    (geoJsonFeatures : list Feature) (w : World) (ids : list number) :
  fst (getRelevantRedfinIds h stateAbbrev level geoJsonFeatures w) = Ok ids →
  NoDup ids
  ∧ Forall (λ n, ∃ z, n = Int z ∧ z ≠ 0) ids
  ∧ (length ids ≤ 50)%nat
  ∧ (length ids ≤ length geoJsonFeatures)%nat
  ∧ (level ≠ "zip" → level ≠ "county" → ids = []).
Proof.
  unfold getRelevantRedfinIds.
  destruct (loadStateIndexes h stateAbbrev None w) as [b w1]. cbn [fst].
  intros H.
  destruct (collectFeatures_good _ _ _ _ _ _ H NoDup_nil_2 (Forall_nil_2 _))
    as (Hnd & Hg & Hl & He).
  rewrite length_take in Hl. cbn [length] in Hl.
  repeat split; auto; try lia.
  intros Hz Hc. apply He.
  destruct (String.eqb_spec level "zip"); [contradiction|].
  destruct (String.eqb_spec level "county"); [contradiction|]. reflexivity.
Qed.

Lemma getRelevantRedfinIds_collected_witness :
  NoDup [Int 111].
Proof.
  refine (proj1 (getRelevantRedfinIds_collected sampleHost "CA" "county"
            [ {| properties := <["GEOID" := Str "001"]> ∅ |} ] freshWorld [Int 111] _)).
  vm_compute. reflexivity.
Defined.

End Identifiers.

(** ** Further properties of the loader's filters *)

Import Loader.

Section LoaderFilters.

Lemma includesText_spec (l : list string) (x : string) :
  includesText l x = true ↔ x ∈ l.
Proof.
  unfold includesText. rewrite existsb_exists. split.
  - intros (y & Hy & ->%String.eqb_eq). now apply list_elem_of_In.
  - intros H. exists x. split; [now apply list_elem_of_In | apply String.eqb_refl].
Qed.






(** X12: [filterRedfinByPropertyType] keeps, in order, exactly the
    records whose [property_type_id] is one of the numbers -1, 6 and 13
    or one of the texts "-1", "6" and "13"; a record without the
    property is dropped. *)
Theorem filterRedfinByPropertyType_kept (data : list Row) (record : Row) :
  filterRedfinByPropertyType data `sublist_of` data
  ∧ (record ∈ filterRedfinByPropertyType data ↔
       record ∈ data
       ∧ ∃ z, z ∈ [-1; 6; 13]
              ∧ (get record "property_type_id" = Num (Int z)
                 ∨ get record "property_type_id" = Str (numberToString (Int z)))).
Proof.
  unfold filterRedfinByPropertyType. split; [apply filter_sublist|].
  rewrite list_elem_of_In, filter_In, <- list_elem_of_In.
  apply and_iff_compat_l. unfold optToString.
  destruct (get record "property_type_id") as [| |b|n|t]; cbn [notNullish coerceToString].
  - split; [discriminate|]. intros (z & _ & [|]); discriminate.
  - split; [discriminate|]. intros (z & _ & [|]); discriminate.
  - split; [destruct b; discriminate|]. intros (z & _ & [|]); discriminate.
  - rewrite includesText_spec. unfold essentialTypeIds.
    rewrite !elem_of_cons, elem_of_nil. split.
    + intros H. destruct n as [|z]; [cbn in H; intuition discriminate|].
      exists z. split; [|now left]. rewrite !elem_of_cons.
      pose proof (parseInt_roundtrip z) as Hz. unfold parseInt in Hz.
      cbn [coerceToString] in Hz.
      destruct H as [H|[H|[H|[]]]]; rewrite H in Hz;
        vm_compute in Hz; injection Hz as <-; auto.
    + intros (z & Hz & [[= ->]|]); [|discriminate].
      rewrite !elem_of_cons, elem_of_nil in Hz.
      destruct Hz as [->|[->|[->|[]]]]; vm_compute; auto.
  - rewrite includesText_spec. unfold essentialTypeIds.
    rewrite !elem_of_cons, elem_of_nil. split.
    + intros [->|[->|[->|[]]]]; [exists (-1) | exists 6 | exists 13];
        (split; [rewrite !elem_of_cons; auto | now right]).
    + intros (z & Hz & [|[= ->]]); [discriminate|].
      rewrite !elem_of_cons, elem_of_nil in Hz.
      destruct Hz as [->|[->|[->|[]]]]; vm_compute; auto.
Qed.

Lemma filter_nil_sublist {A} (p : A → bool) (l k : list A) :
  k `sublist_of` l → List.filter p l = [] → List.filter p k = [].
Proof.
  induction 1 as [|x k l _ IH|x k l _ IH]; cbn [List.filter]; [auto|..].
  - destruct (p x); [discriminate | exact IH].
  - destruct (p x); [discriminate | exact IH].
Qed.

Lemma filter_filter_same {A} (p : A → bool) (l : list A) :
  List.filter p (List.filter p l) = List.filter p l.
Proof.
  induction l as [|x l IH]; [reflexivity|]. cbn [List.filter].
  destruct (p x) eqn:E; [|exact IH]. cbn [List.filter]. now rewrite E, IH.
Qed.

Lemma firstNonEmpty_facts (strategies : list (Row → bool)) (data : list Row) :
  firstNonEmpty strategies data `sublist_of` data
  ∧ (firstNonEmpty strategies data = [] → data = [])
  ∧ firstNonEmpty strategies (firstNonEmpty strategies data)
    = firstNonEmpty strategies data.
Proof.
  induction strategies as [|keep rest (IHs & IHe & IHi)]; cbn [firstNonEmpty].
  - repeat split; auto.
  - destruct (List.filter keep data) as [|x kept] eqn:E; cbn [length Nat.ltb Nat.leb].
    + repeat split; auto.
      rewrite (filter_nil_sublist keep data _ IHs E). cbn [length Nat.ltb Nat.leb].
      exact IHi.
    + repeat split.
      * rewrite <- E. apply filter_sublist.
      * discriminate.
      * rewrite <- E, filter_filter_same, E. reflexivity.
Qed.

(** X13: [smartStateFilter] returns a selection of its input in input
    order, never an empty one unless the input is empty, and the input
    itself at level "state"; applied to its own result it changes
    nothing. *)
Theorem smartStateFilter_selection (data : list Row) (stateAbbrev level : string) :
  let kept := smartStateFilter data stateAbbrev level in
  kept `sublist_of` data
  ∧ (kept = [] ↔ data = [])
  ∧ smartStateFilter kept stateAbbrev level = kept
  ∧ smartStateFilter data stateAbbrev "state" = data.
Proof.
  unfold smartStateFilter.
  destruct (firstNonEmpty_facts (stateStrategies stateAbbrev) data) as (Hs & He & Hi).
  destruct data as [|row data]; [repeat split; auto|].
  cbn [length Nat.eqb]. repeat split.
  - destruct (String.eqb level "state"); [reflexivity | exact Hs].
  - destruct (String.eqb level "state"); [discriminate | exact He].
  - discriminate.
  - destruct (String.eqb level "state"); [reflexivity|].
    destruct (firstNonEmpty _ (row :: data)) as [|r kept] eqn:E; [reflexivity|].
    cbn [length Nat.eqb]. exact Hi.
Qed.

End LoaderFilters.

(** ** Further properties of the record matchers *)

Section Matchers.

Lemma find_first {A} (p : A → bool) (l : list A) (x : A) :
  List.find p l = Some x →
  ∃ before after,
    l = before ++ x :: after ∧ Forall (λ y, p y = false) before ∧ p x = true.
Proof.
  induction l as [|y l IH]; [discriminate|]. cbn [List.find].
  destruct (p y) eqn:E.
  - intros [= <-]. exists [], l. repeat split; [constructor | exact E].
  - intros (before & after & -> & Hb & Hx)%IH.
    exists (y :: before), after. repeat split; [now constructor | exact Hx].
Qed.

Lemma find_absent {A} (p : A → bool) (l : list A) :
  List.find p l = None → Forall (λ y, p y = false) l.
Proof.
  intros H. apply List.Forall_forall. intros y Hy.
  exact (find_none p l H y Hy).
Qed.

Lemma featureIdsOf_absent (fields : list string) (props : gmap string value) :
  Forall (λ f, present (get props f) = false) fields → featureIdsOf fields props = [].
Proof.
  unfold featureIdsOf. induction 1 as [|f fields Hf _ IH]; [reflexivity|].
  cbn [List.map List.filter]. rewrite Hf. exact IH.
Qed.

(** X14: for a level and a source that are not names inherited by the
    rule tables, [matchFeatureToData] is first-match-wins.  A returned
    record is the first record of the candidates, in array order, on
    which some identifier of the feature equals some data field under
    the rule of the level and source; nothing is returned when the
    feature carries none of the rule's fields, and nothing for a level
    outside zip, county, state and tract or a source outside census,
    redfin and fred. *)
Theorem matchFeatureToData_first_match (feature : Feature) (dataRecords : list Row)
    (level database : string) :
  level ∉ inheritedNames → database ∉ inheritedNames →
  let rules := getDatabaseMatchingFields level database in
  let ids := featureIdsOf (featureFields rules) (properties feature) in
  match matchFeatureToData feature dataRecords level database with
  | Some row =>
      ∃ before after,
        dataRecords = before ++ row :: after
        ∧ Forall (λ r, rowMatches level database rules ids r = false) before
        ∧ ∃ featureId dataField,
            featureId ∈ ids ∧ dataField ∈ dataFields rules
            ∧ pairMatches level database row featureId dataField = true
  | None =>
      ids = [] ∨ Forall (λ r, rowMatches level database rules ids r = false) dataRecords
  end
  ∧ (Forall (λ f, present (get (properties feature) f) = false) (featureFields rules) →
     matchFeatureToData feature dataRecords level database = None)
  ∧ (¬ (level ∈ ["zip"; "county"; "state"; "tract"]
        ∧ database ∈ ["census"; "redfin"; "fred"]) →
     matchFeatureToData feature dataRecords level database = None).
Proof.
  intros _ _ rules ids. unfold matchFeatureToData. fold rules. fold ids. split; [|split].
  - destruct ids as [|id ids'] eqn:Eids; [now left|]. cbn [length Nat.eqb].
    destruct (List.find _ dataRecords) as [row|] eqn:E.
    + destruct (find_first _ _ _ E) as (before & after & -> & Hb & Hrow).
      exists before, after. repeat split; [exact Hb|].
      unfold rowMatches in Hrow. apply existsb_exists in Hrow as (fid & Hfid & Hrow).
      apply existsb_exists in Hrow as (df & Hdf & Hrow).
      exists fid, df. repeat split; auto; now apply list_elem_of_In.
    + right. now apply find_absent.
  - intros Hf. subst ids. now rewrite (featureIdsOf_absent _ _ Hf).
  - intros Hno.
    assert (Hr : rules = {| featureFields := []; dataFields := [] |}).
    { subst rules. unfold getDatabaseMatchingFields, zipRules, countyRules,
        stateRules, tractRules, rule.
      rewrite !elem_of_cons, !elem_of_nil in Hno.
      destruct (String.eqb_spec level "zip"), (String.eqb_spec level "county"),
        (String.eqb_spec level "state"), (String.eqb_spec level "tract"),
        (String.eqb_spec database "census"), (String.eqb_spec database "redfin"),
        (String.eqb_spec database "fred"); try reflexivity; exfalso; tauto. }
    subst ids. rewrite Hr. reflexivity.
Qed.

(** X15: a county census row is matched through the GEOID built from
    its state and its county number padded to three digits: when the
    feature's trimmed [GEOID] is that text for some candidate row, a
    record is found, namely the first one any pair accepts. *)
Theorem matchFeatureToData_county_geoid (feature : Feature) (dataRecords : list Row)
    (row : Row) :
  present (get (properties feature) "GEOID") = true →
  row ∈ dataRecords →
  notNullish (get row "county") = true →
  coerceToString (get row "state") +:+ padStart0 3 (coerceToString (get row "county"))
  = trim (coerceToString (get (properties feature) "GEOID")) →
  is_Some (matchFeatureToData feature dataRecords "county" "census").
Proof.
  intros Hp Hin Hn Hg. unfold matchFeatureToData.
  change (getDatabaseMatchingFields "county" "census")
    with {| featureFields := ["GEOID"; "COUNTYFP"; "NAMELSAD"];
            dataFields := ["county"; "county_name"] |}.
  cbn [featureFields dataFields]. unfold featureIdsOf.
  cbn [List.map List.filter]. rewrite Hp. cbn [List.map length Nat.eqb].
  match goal with
  | |- is_Some (List.find ?p _) => destruct (List.find p dataRecords) eqn:E; [eauto|]
  end.
  exfalso. apply list_elem_of_In in Hin.
  pose proof (find_none _ _ E row Hin) as Hrow. cbv beta in Hrow.
  unfold rowMatches in Hrow. cbn [existsb dataFields] in Hrow.
  unfold pairMatches at 1 in Hrow. rewrite Hn in Hrow.
  change (String.eqb "county" "county" && String.eqb "census" "census"
          && String.eqb "county" "county") with true in Hrow.
  cbv iota in Hrow. rewrite Hg, String.eqb_refl in Hrow. discriminate Hrow.
Qed.

Lemma matchFeatureToData_county_geoid_witness :
  is_Some (matchFeatureToData autaugaFeature [autaugaCensusRow] "county" "census").
Proof.
  apply (matchFeatureToData_county_geoid autaugaFeature [autaugaCensusRow]
           autaugaCensusRow); try reflexivity.
  apply list_elem_of_singleton. reflexivity.
Defined.

Lemma matchFeatureToData_first_match_witness :
  matchFeatureToData autaugaFeature [autaugaCensusRow] "parcel" "census" = None
  ∧ matchFeatureToData {| properties := ∅ |} [autaugaCensusRow] "county" "census" = None.
Proof.
  assert (Hp : "parcel" ∉ inheritedNames).
  { apply (bool_decide_unpack _). vm_compute. exact I. }
  assert (Hy : "county" ∉ inheritedNames).
  { apply (bool_decide_unpack _). vm_compute. exact I. }
  assert (Hc : "census" ∉ inheritedNames).
  { apply (bool_decide_unpack _). vm_compute. exact I. }
  split.
  - destruct (matchFeatureToData_first_match autaugaFeature [autaugaCensusRow]
                "parcel" "census" Hp Hc) as (_ & _ & H).
    apply H. rewrite !elem_of_cons, elem_of_nil.
    intros [[H1|[H1|[H1|[H1|[]]]]] _]; discriminate H1.
  - destruct (matchFeatureToData_first_match {| properties := ∅ |} [autaugaCensusRow]
                "county" "census" Hy Hc) as (_ & H & _).
    apply H. repeat constructor.
Defined.






End Matchers.

(** ** Further properties of the unified data service *)

Section ServiceLifecycle.
Variable localeCompare : string → string → Z.




Lemma includes_empty (s : string) : includes "" s = true.
Proof. destruct s; reflexivity. Qed.

Lemma filter_all {A} (p : A → bool) (l : list A) :
  (∀ x, p x = true) → List.filter p l = l.
Proof.
  intros H. induction l as [|x l IH]; [reflexivity|].
  cbn [List.filter]. now rewrite H, IH.
Qed.

(** X19: [searchLocations] returns at most 50 locations, each of them a
    location of the index whose lower-cased path holds the lower-cased
    query or whose zip code holds the query; the empty query matches
    every location, so it returns 50 of them or all. *)
Theorem searchLocations_capped (s : Service) (query : string)
    (found : list UnifiedLocation) :
  searchLocations localeCompare s query = Ok found →
  (length found ≤ 50)%nat
  ∧ (∀ loc, loc ∈ found →
       loc ∈ mapValues (unifiedLookup s)
       ∧ (includes (toLowerCase query) (toLowerCase (hierarchicalPath loc)) = true
          ∨ ∃ z, zipCode loc = Some z ∧ includes query z = true))
  ∧ (query = "" → length found = Nat.min 50 (length (unifiedLookup s))).
Proof.
  unfold searchLocations, ensureLoaded. destruct (isLoaded s); [|discriminate].
  cbn [bind]. intros [= <-]. split; [|split].
  - rewrite length_take. lia.
  - intros loc Hloc. apply elem_of_take in Hloc as (i & Hloc & _).
    apply list_elem_of_lookup_2 in Hloc.
    rewrite sortBy_Permutation, list_elem_of_In, filter_In in Hloc.
    destruct Hloc as [Hin H]. split; [now apply list_elem_of_In|].
    apply orb_prop in H as [H|H]; [now left|]. right.
    destruct (zipCode loc) as [z|]; [eauto | discriminate].
  - intros ->. rewrite length_take, sortBy_Permutation.
    rewrite filter_all; [unfold mapValues; now rewrite length_map|].
    intros loc. cbn [toLowerCase]. now rewrite includes_empty.
Qed.

End ServiceLifecycle.



Lemma searchLocations_capped_witness :
  ∃ found, searchLocations (λ _ _, 0) substituteService "" = Ok found
           ∧ length found = 12%nat.
Proof.
  eexists. split; [reflexivity|].
  destruct (searchLocations_capped (λ _ _, 0) substituteService "" _ eq_refl) as (_ & _ & H).
  rewrite (H eq_refl). vm_compute. reflexivity.
Defined.

(** ** The coverage summary *)

Section Coverage.

Lemma hasRedfinId_typed (row : Row) :
  csvTyped row →
  hasRedfinId (get row "table_id")
  = match get row "table_id" with
    | Num (Int z) => negb (z =? 0)
    | _ => false
    end.
Proof.
  intros Ht. unfold get. destruct (row !! "table_id") as [v|] eqn:E; [|reflexivity].
  specialize (Ht _ _ E). unfold csvValue in Ht.
  change (isNumericHeader "table_id") with true in Ht. cbn iota in Ht.
  destruct Ht as [->|[n ->]]; [reflexivity|]. destruct n as [|z]; [reflexivity|].
  unfold hasRedfinId. simpl. now destruct (z =? 0).
Qed.

Lemma ltb_length_nonempty {A} (l : list A) : (0 <? length l)%nat = true ↔ l ≠ [].
Proof. destruct l; simpl; split; intros; try congruence; try discriminate. reflexivity. Qed.

(** X20: the coverage summary in a reachable state.  A state that is
    not cached is reported as not loaded.  For a cached state the
    summary counts the rows of the level asked for, is available exactly
    when there is at least one row, and never counts more rows with an
    identifier than there are rows; with no row the percentage is 0 and
    the zip quality is "limited".  The county count is the number of
    rows whose [table_id] is a number other than 0 and [NaN]: the column
    is numeric in a loaded file, so the comparisons with [''] and
    ['null'] never decide.  Any level other than "zip" and "county" gets
    the tract summary. *)
Theorem checkStateCoverage_summary (h : Host) (w : World) (stateAbbrev level : string) :
  Reachable h w →
  match checkStateCoverage stateAbbrev level w with
  | NotLoaded _ => stateIndexCache w !! stateAbbrev = None
  | ZipCoverage available total withRedfin redfinPercent quality =>
      level = "zip"
      ∧ ∃ stateData,
          stateIndexCache w !! stateAbbrev = Some stateData
          ∧ total = length (zips stateData)
          ∧ (withRedfin ≤ total)%nat
          ∧ (available = true ↔ zips stateData ≠ [])
          ∧ (zips stateData = [] → redfinPercent = 0%float ∧ quality = "limited")
  | CountyCoverage available total withRedfin redfinPercent =>
      level = "county"
      ∧ ∃ stateData,
          stateIndexCache w !! stateAbbrev = Some stateData
          ∧ total = length (counties stateData)
          ∧ withRedfin
            = length (List.filter (λ row, match get row "table_id" with
                                          | Num (Int z) => negb (z =? 0)
                                          | _ => false
                                          end) (counties stateData))
          ∧ (withRedfin ≤ total)%nat
          ∧ (available = true ↔ counties stateData ≠ [])
          ∧ (counties stateData = [] → redfinPercent = 0%float)
  | TractCoverage available total =>
      level ≠ "zip" ∧ level ≠ "county"
      ∧ ∃ stateData,
          stateIndexCache w !! stateAbbrev = Some stateData
          ∧ total = length (tracts stateData)
          ∧ (available = true ↔ tracts stateData ≠ [])
  end.
Proof.
  intros Hr. unfold checkStateCoverage.
  destruct (stateIndexCache w !! stateAbbrev) as [stateData|] eqn:E; [|reflexivity].
  destruct (String.eqb_spec level "zip") as [->|Hz].
  - split; [reflexivity|]. exists stateData. split; [reflexivity|].
    split; [reflexivity|]. split; [apply List.filter_length_le|].
    split; [apply ltb_length_nonempty|]. intros ->. split; reflexivity.
  - destruct (String.eqb_spec level "county") as [->|Hc].
    + split; [reflexivity|]. exists stateData. split; [reflexivity|].
      split; [reflexivity|].
      assert (Hf : List.filter (λ row, hasRedfinId (get row "table_id")) (counties stateData)
                   = List.filter (λ row, match get row "table_id" with
                                         | Num (Int z) => negb (z =? 0)
                                         | _ => false
                                         end) (counties stateData)).
      { apply List.filter_ext_in. intros row Hin. apply hasRedfinId_typed.
        destruct (reachable_typed h w Hr _ _ E) as (Hc & _ & _).
        rewrite List.Forall_forall in Hc. now apply Hc. }
      split; [now rewrite Hf|]. split; [apply List.filter_length_le|].
      split; [apply ltb_length_nonempty|]. now intros ->.
    + split; [exact Hz|]. split; [exact Hc|]. exists stateData.
      split; [reflexivity|]. split; [reflexivity|]. apply ltb_length_nonempty.
Qed.

Lemma checkStateCoverage_summary_witness :
  match checkStateCoverage "CA" "county" sampleWorld with
  | CountyCoverage available total withRedfin _ =>
      available = true ∧ total = 2%nat ∧ (withRedfin ≤ 2)%nat
  | _ => False
  end.
Proof.
  pose proof (checkStateCoverage_summary sampleHost sampleWorld "CA" "county"
                (reach_load sampleHost "CA" None freshWorld (reach_fresh sampleHost))) as H.
  destruct (checkStateCoverage "CA" "county" sampleWorld) eqn:E;
    try (vm_compute in E; discriminate E).
  destruct H as (_ & stateData & H1 & H2 & _ & H3 & H4 & _).
  vm_compute in H1. injection H1 as <-. subst total.
  split; [|split; [reflexivity|exact H3]].
  apply H4. discriminate.
Defined.

End Coverage.

(** ** The built index *)

Section BuiltIndex.

Lemma lastWrite_None {V} (k : string) (ws : list (string * V)) :
  k ∉ List.map fst ws → lastWrite k ws = None.
Proof.
  induction ws as [|[k' v] ws IH]; [reflexivity|].
  cbn [List.map fst lastWrite]. rewrite not_elem_of_cons. intros [Hne Hk].
  rewrite (IH Hk). now destruct (String.eqb_spec k k').
Qed.

Lemma lastWrite_Some {V} (k : string) (ws : list (string * V)) (v : V) :
  lastWrite k ws = Some v → (k, v) ∈ ws.
Proof.
  induction ws as [|[k' v'] ws IH]; [discriminate|].
  cbn [lastWrite]. destruct (lastWrite k ws) as [v0|].
  - intros [= <-]. right. now apply IH.
  - destruct (String.eqb_spec k k') as [<-|]; [|discriminate].
    intros [= <-]. left.
Qed.

Lemma lastWrite_key {V} (k : string) (ws : list (string * V)) :
  k ∈ List.map fst ws → is_Some (lastWrite k ws).
Proof.
  induction ws as [|[k' v'] ws IH]; cbn [List.map fst lastWrite].
  - intros H. now apply elem_of_nil in H.
  - intros H. destruct (lastWrite k ws) as [v0|] eqn:E; [eauto|].
    apply elem_of_cons in H as [->|H]; [rewrite String.eqb_refl; eauto|].
    destruct (IH H) as [? [=]].
Qed.

(** The keys written by each of the four loops. *)
Lemma stateWrites_keys (s : Service) (es : Entries StateInfo.t) :
  List.map fst (concat (List.map (stateWrite s) es))
  = List.map (λ e, "state:" +:+ StateInfo.state_code (snd e)) es.
Proof. induction es as [|[n i] es IH]; [reflexivity|]. cbn. now rewrite <- IH. Qed.

Lemma countyWrites_keys (s : Service) (es : Entries CountyInfo.t) :
  List.map fst (concat (List.map (countyWrite s) es))
  = List.map (λ e, "county:" +:+ fst e) es.
Proof. induction es as [|[n i] es IH]; [reflexivity|]. cbn. now rewrite <- IH. Qed.

Lemma cityWrites_keys (s : Service) (es : Entries CityInfo.t) :
  List.map fst (concat (List.map (cityWrite s) es))
  = List.map (λ e, "city:" +:+ fst e) es.
Proof. induction es as [|[n i] es IH]; [reflexivity|]. cbn. now rewrite <- IH. Qed.

Lemma zipWrites_keys (s : Service) (es : Entries ZipInfo.t) :
  List.map fst (concat (List.map (zipWrite s) es))
  = List.map (λ e, "zip:" +:+ fst e) es.
Proof. induction es as [|[n i] es IH]; [reflexivity|]. cbn. now rewrite <- IH. Qed.

Lemma zipWrites_elem (s : Service) (es : Entries ZipInfo.t) (k : string)
    (loc : UnifiedLocation) :
  (k, loc) ∈ concat (List.map (zipWrite s) es) →
  ∃ z zipInfo, (z, zipInfo) ∈ es ∧ k = "zip:" +:+ z
               ∧ loc = unifiedZipOf s z zipInfo (valueMapGet (Str z) (buildZipLookup (zipMasterData s))).
Proof.
  induction es as [|[z i] es IH].
  - intros H. now apply elem_of_nil in H.
  - change (concat (List.map (zipWrite s) ((z, i) :: es)))
      with (("zip:" +:+ z, unifiedZipOf s z i (valueMapGet (Str z) (buildZipLookup (zipMasterData s))))
            :: concat (List.map (zipWrite s) es)).
    intros [[= -> ->]|H]%elem_of_cons.
    + exists z, i. split; [left|]. auto.
    + destruct (IH H) as (z' & i' & Hin & Hk & Hl). exists z', i'.
      split; [now right|]. auto.
Qed.

Lemma prefix_keys_disjoint (p q : string) (a : string) (l : list string) :
  (∀ b, p +:+ a ≠ q +:+ b) → p +:+ a ∉ List.map (λ b, q +:+ b) l.
Proof.
  intros H Hin. apply list_elem_of_In, in_map_iff in Hin as (b & Hb & _).
  now apply (H b).
Qed.

Lemma zip_not_state (a b : string) : "zip:" +:+ a ≠ "state:" +:+ b.
Proof. rewrite !append_cons. discriminate. Qed.
Lemma zip_not_county (a b : string) : "zip:" +:+ a ≠ "county:" +:+ b.
Proof. rewrite !append_cons. discriminate. Qed.
Lemma zip_not_city (a b : string) : "zip:" +:+ a ≠ "city:" +:+ b.
Proof. rewrite !append_cons. discriminate. Qed.
Lemma state_not_county (a b : string) : "state:" +:+ a ≠ "county:" +:+ b.
Proof. rewrite !append_cons. discriminate. Qed.
Lemma state_not_city (a b : string) : "state:" +:+ a ≠ "city:" +:+ b.
Proof. rewrite !append_cons. discriminate. Qed.
Lemma state_not_zip (a b : string) : "state:" +:+ a ≠ "zip:" +:+ b.
Proof. rewrite !append_cons. discriminate. Qed.

(** Reading a zip key after the build: only the zip loop writes it. *)
Lemma built_zip_key (s : Service) (idx : RedfInMasterIndex.t) (code : string) :
  redfInIndex s = Some idx →
  mapGet ("zip:" +:+ code) (unifiedLookup (buildUnifiedLookup s))
  = match lastWrite ("zip:" +:+ code)
            (concat (List.map (zipWrite s) (RedfInMasterIndex.zip_codes idx))) with
    | Some loc => Some loc
    | None => mapGet ("zip:" +:+ code) (unifiedLookup s)
    end.
Proof.
  intros Hidx. rewrite (buildUnifiedLookup_writes s idx Hidx). cbn [unifiedLookup].
  rewrite mapGet_applyWrites. unfold writesOf. rewrite !lastWrite_app.
  destruct (lastWrite _ (concat (List.map (zipWrite s) _))); [reflexivity|].
  rewrite (lastWrite_None _ (concat (List.map (cityWrite s) _))).
  2:{ rewrite cityWrites_keys.
      rewrite <- (map_map fst (λ b, "city:" +:+ b)).
      apply prefix_keys_disjoint, zip_not_city. }
  rewrite (lastWrite_None _ (concat (List.map (countyWrite s) _))).
  2:{ rewrite countyWrites_keys.
      rewrite <- (map_map fst (λ b, "county:" +:+ b)).
      apply prefix_keys_disjoint, zip_not_county. }
  rewrite (lastWrite_None _ (concat (List.map (stateWrite s) _))).
  2:{ rewrite stateWrites_keys.
      rewrite <- (map_map (λ e, StateInfo.state_code (snd e)) (λ b, "state:" +:+ b)).
      apply prefix_keys_disjoint, zip_not_state. }
  reflexivity.
Qed.

Lemma last_filter_In {A} (p : A → bool) (l : list A) (x : A) :
  last (List.filter p l) = Some x → x ∈ l ∧ p x = true.
Proof.
  intros H. apply last_Some in H as [l' H].
  assert (Hin : In x (List.filter p l)) by (rewrite H; apply in_or_app; right; now left).
  apply filter_In in Hin as [Hin Hp]. split; [now apply list_elem_of_In|exact Hp].
Qed.

(** X21: [findByZip] after a build.  For a key that the map did not
    hold before, the built service finds a location exactly for the zip
    codes of the taxonomy, whatever the flat records hold; the location
    carries the code, the state and the table id of its taxonomy entry,
    and it has its required data only if a flat record with that exact
    code has geometry, whose file is then the one to load. *)
Theorem findByZip_built (s : Service) (idx : RedfInMasterIndex.t) (code : string) :
  redfInIndex s = Some idx →
  mapGet ("zip:" +:+ code) (unifiedLookup s) = None →
  ∃ found,
    findByZip (setLoaded (buildUnifiedLookup s)) code = Ok found
    ∧ (is_Some found ↔ code ∈ List.map fst (RedfInMasterIndex.zip_codes idx))
    ∧ ∀ loc, found = Some loc →
        zipCode loc = Some code
        ∧ (∃ zipInfo, (code, zipInfo) ∈ RedfInMasterIndex.zip_codes idx
                      ∧ stateCode loc = ZipInfo.state_code zipInfo
                      ∧ tableId (getDataLoadingInfo loc) = ZipInfo.primary_table_id zipInfo)
        ∧ (hasRequiredData (getDataLoadingInfo loc) = true →
             ∃ r, r ∈ zipMasterData s
                  ∧ ZipMasterRecord.zipcode r = Str code
                  ∧ ZipMasterRecord.has_geometry r = true
                  ∧ geoJsonUrl (getDataLoadingInfo loc) = Some (ZipMasterRecord.geojson_file r)).
Proof.
  intros Hidx Hfresh.
  exists (mapGet ("zip:" +:+ code) (unifiedLookup (buildUnifiedLookup s))).
  split; [reflexivity|].
  rewrite (built_zip_key s idx code Hidx), Hfresh.
  set (ws := concat (List.map (zipWrite s) (RedfInMasterIndex.zip_codes idx))).
  split.
  - split.
    + intros [loc Hloc]. destruct (lastWrite _ ws) as [loc'|] eqn:E; [|discriminate].
      apply lastWrite_Some, zipWrites_elem in E as (z & zipInfo & Hin & Hk & _).
      apply append_cancel_l in Hk as ->.
      apply list_elem_of_In, in_map_iff. exists (z, zipInfo).
      split; [reflexivity|now apply list_elem_of_In].
    + intros Hin.
      assert (Hk : "zip:" +:+ code ∈ List.map fst ws).
      { unfold ws. rewrite zipWrites_keys.
        apply list_elem_of_In, in_map_iff in Hin as ([z i] & <- & Hin).
        apply list_elem_of_In, in_map_iff. exists (z, i). split; [reflexivity|exact Hin]. }
      destruct (lastWrite_key _ _ Hk) as [loc ->]. eauto.
  - intros loc Hloc. destruct (lastWrite _ ws) as [loc'|] eqn:E; [|discriminate].
    injection Hloc as ->.
    apply lastWrite_Some, zipWrites_elem in E as (z & zipInfo & Hin & Hk & ->).
    apply append_cancel_l in Hk as <-.
    split; [reflexivity|].
    split; [exists zipInfo; repeat split; exact Hin|].
    rewrite buildZipLookup_lookup.
    destruct (last _) as [r|] eqn:El; cbn; [|discriminate].
    intros [Hg _]%andb_prop. apply last_filter_In in El as [Hr Hz].
    exists r. repeat split; [exact Hr|now apply sameValueZero_eq|exact Hg].
Qed.


Lemma findByZip_built_witness :
  ∃ loc,
    findByZip (setLoaded (buildUnifiedLookup mockInputs)) "90210" = Ok (Some loc)
    ∧ zipCode loc = Some "90210".
Proof.
  destruct (findByZip_built mockInputs mockIndex "90210" eq_refl eq_refl)
    as (found & Hf & Hs & Hl).
  destruct found as [loc|].
  - exists loc. split; [exact Hf|]. exact (proj1 (Hl loc eq_refl)).
  - exfalso. destruct (proj2 Hs) as [? [=]].
    apply list_elem_of_In. right. left. reflexivity.
Defined.

(** *** State locations *)

Lemma stateWrites_lastWrite (s : Service) (es : Entries StateInfo.t) (code : string) :
  lastWrite ("state:" +:+ code) (concat (List.map (stateWrite s) es))
  = last (List.filter (λ e, String.eqb (StateInfo.state_code (snd e)) code) es)
    ≫= λ e, snd <$> head (stateWrite s e).
Proof.
  induction es as [|[n i] es IH]; [reflexivity|].
  change (concat (List.map (stateWrite s) ((n, i) :: es)))
    with (stateWrite s (n, i) ++ concat (List.map (stateWrite s) es)).
  rewrite lastWrite_app, IH. cbn [List.filter snd].
  destruct (String.eqb_spec (StateInfo.state_code i) code) as [<-|Hne].
  - rewrite last_cons. destruct (last _) as [[n' i']|]; [reflexivity|].
    cbn. now rewrite String.eqb_refl.
  - destruct (last _) as [[n' i']|]; [reflexivity|]. cbn.
    destruct (String.eqb_spec ("state:" +:+ code) ("state:" +:+ StateInfo.state_code i))
      as [E|_]; [|reflexivity].
    apply append_cancel_l in E. congruence.
Qed.

Lemma stateNameIn_head (entries : Entries StateInfo.t) (code : string) :
  stateNameIn entries code
  = from_option fst code
      (head (List.filter (λ e, String.eqb (StateInfo.state_code (snd e)) code) entries)).
Proof.
  induction entries as [|[n i] entries IH]; [reflexivity|].
  cbn [stateNameIn List.filter snd].
  destruct (String.eqb (StateInfo.state_code i) code); [reflexivity|exact IH].
Qed.

Lemma existsb_elem_of {A} (p : A → bool) (l : list A) :
  existsb p l = true ↔ ∃ x, x ∈ l ∧ p x = true.
Proof.
  rewrite existsb_exists. split; intros (x & Hin & Hp); exists x;
    (split; [now apply list_elem_of_In|exact Hp]).
Qed.

(** X22: the location of a state.  [getStateName] answers with the
    name of the first taxonomy entry that has the code, and with the
    code itself when there is none.  The location under "state:<code>"
    is built from the last such entry: its name and path are that
    entry's name, its child zips are the codes of the flat records of
    the state in file order, its coordinates those of the first such
    record ((0,0) without one), and each availability flag is set
    exactly when some record of the state has it.  Without an entry the
    key is left as it was. *)
Theorem buildUnifiedLookup_state (s : Service) (idx : RedfInMasterIndex.t)
    (code : string) :
  redfInIndex s = Some idx →
  let entries :=
    List.filter (λ e, String.eqb (StateInfo.state_code (snd e)) code)
                (RedfInMasterIndex.states idx) in
  let stateZips :=
    List.filter (λ z, String.eqb (ZipMasterRecord.state_code z) code)
                (zipMasterData s) in
  let built := mapGet ("state:" +:+ code) (unifiedLookup (buildUnifiedLookup s)) in
  getStateName s code = from_option fst code (head entries)
  ∧ match last entries with
    | Some (name, info) =>
        ∃ loc,
          built = Some loc
          ∧ stateName loc = name ∧ hierarchicalPath loc = name
          ∧ stateCode loc = code ∧ zipCode loc = None
          ∧ primaryTableId loc = StateInfo.primary_table_id info
          ∧ childZips loc = Some (List.map ZipMasterRecord.zipcode stateZips)
          ∧ coordinates loc = coordinatesOf (head stateZips)
          ∧ (census (hasData loc) = true
             ↔ ∃ z, z ∈ stateZips ∧ ZipMasterRecord.has_census_data z = true)
          ∧ (redfin (hasData loc) = true
             ↔ ∃ z, z ∈ stateZips ∧ ZipMasterRecord.has_redfin_data z = true)
          ∧ (geometry (hasData loc) = true
             ↔ ∃ z, z ∈ stateZips ∧ ZipMasterRecord.has_geometry z = true)
    | None => built = mapGet ("state:" +:+ code) (unifiedLookup s)
    end.
Proof.
  intros Hidx entries stateZips built. split.
  - unfold getStateName. rewrite Hidx. apply stateNameIn_head.
  - unfold built. rewrite (buildUnifiedLookup_writes s idx Hidx). cbn [unifiedLookup].
    rewrite mapGet_applyWrites. unfold writesOf. rewrite !lastWrite_app.
    rewrite (lastWrite_None _ (concat (List.map (zipWrite s) _))).
    2:{ rewrite zipWrites_keys. rewrite <- (map_map fst (λ b, "zip:" +:+ b)).
        apply prefix_keys_disjoint, state_not_zip. }
    rewrite (lastWrite_None _ (concat (List.map (cityWrite s) _))).
    2:{ rewrite cityWrites_keys. rewrite <- (map_map fst (λ b, "city:" +:+ b)).
        apply prefix_keys_disjoint, state_not_city. }
    rewrite (lastWrite_None _ (concat (List.map (countyWrite s) _))).
    2:{ rewrite countyWrites_keys. rewrite <- (map_map fst (λ b, "county:" +:+ b)).
        apply prefix_keys_disjoint, state_not_county. }
    rewrite stateWrites_lastWrite. fold entries.
    destruct (last entries) as [[name info]|] eqn:El; [|reflexivity].
    apply last_filter_In in El as [_ Hc]. apply String.eqb_eq in Hc. cbn [snd] in Hc.
    cbn [mbind option_bind stateWrite processState mapSet head fmap option_fmap option_map snd].
    rewrite Hc. fold stateZips. eexists. split; [reflexivity|].
    cbn [stateName hierarchicalPath stateCode zipCode primaryTableId childZips
         coordinates hasData hasDataOf census redfin geometry].
    repeat (split; [reflexivity|]).
    split; [apply existsb_elem_of|]. split; apply existsb_elem_of.
Qed.

#[warnings="-inexact-float"]
Lemma buildUnifiedLookup_state_witness :
  getStateName mockInputs "CA" = "California"
  ∧ ∃ loc,
      mapGet "state:CA" (unifiedLookup (buildUnifiedLookup mockInputs)) = Some loc
      ∧ childZips loc = Some [Str "90210"]
      ∧ coordinates loc = (34.0901%float, (-118.4065)%float).
Proof.
  pose proof (buildUnifiedLookup_state mockInputs mockIndex "CA" eq_refl) as [Hn Hl].
  split; [exact Hn|].
  destruct Hl as (loc & Hb & _ & _ & _ & _ & _ & Hz & Hc & _).
  exists loc. split; [exact Hb|]. split; [exact Hz|exact Hc].
Defined.

(** *** What the build leaves in place *)

Lemma mapSet_keys {V} (k : string) (v : V) (m : list (string * V)) :
  List.map fst (mapSet k v m)
  = List.map fst m ++ match mapGet k m with Some _ => [] | None => [k] end.
Proof.
  induction m as [|[k' v'] m IH]; [reflexivity|]. cbn [mapSet mapGet].
  destruct (String.eqb_spec k k') as [->|Hne]; cbn [List.map fst].
  - now rewrite app_nil_r.
  - now rewrite IH.
Qed.

Lemma mapGet_None {V} (k : string) (m : list (string * V)) :
  mapGet k m = None → k ∉ List.map fst m.
Proof.
  induction m as [|[k' v'] m IH]; cbn [mapGet List.map fst].
  - intros _ H. now apply elem_of_nil in H.
  - destruct (String.eqb_spec k k') as [->|Hne]; [discriminate|].
    intros H. rewrite not_elem_of_cons. split; auto.
Qed.

Lemma applyWrites_keys {V} (ws m : list (string * V)) :
  List.map fst m `prefix_of` List.map fst (applyWrites ws m)
  ∧ (NoDup (List.map fst m) → NoDup (List.map fst (applyWrites ws m)))
  ∧ (length (applyWrites ws m) ≤ length m + length ws)%nat.
Proof.
  revert m. induction ws as [|[k v] ws IH]; intros m.
  - cbn. repeat split; [reflexivity|auto|lia].
  - change (applyWrites ((k, v) :: ws) m) with (applyWrites ws (mapSet k v m)).
    destruct (IH (mapSet k v m)) as (Hp & Hn & Hl).
    pose proof (mapSet_keys k v m) as Hk.
    assert (Hlen : (length (mapSet k v m) ≤ S (length m))%nat).
    { rewrite <- (length_map fst), Hk, length_app, length_map.
      destruct (mapGet k m); simpl; lia. }
    split; [|split].
    + etransitivity; [|exact Hp]. rewrite Hk. now apply prefix_app_r.
    + intros Hnd. apply Hn. rewrite Hk.
      destruct (mapGet k m) eqn:E; [now rewrite app_nil_r|].
      apply NoDup_app. split; [exact Hnd|]. split.
      * intros x Hx [->|H]%elem_of_cons; [|now apply elem_of_nil in H].
        now apply (mapGet_None _ _ E).
      * apply NoDup_singleton.
    + cbn [length]. lia.
Qed.

Lemma length_writes {A V} (f : A → list (string * V)) (es : list A) :
  (∀ e, length (f e) = 1%nat) → length (concat (List.map f es)) = length es.
Proof.
  intros Hf. induction es as [|e es IH]; [reflexivity|].
  cbn [List.map concat length]. rewrite length_app, Hf, IH. reflexivity.
Qed.

(** X23: the build only adds.  It changes neither the taxonomy, nor
    the flat records, nor the loaded flag; the keys held before stay
    where they are, in front and in their order; distinct keys stay
    distinct; and at most one location is added per taxonomy entry. *)
Theorem buildUnifiedLookup_grows (s : Service) :
  let s' := buildUnifiedLookup s in
  redfInIndex s' = redfInIndex s
  ∧ zipMasterData s' = zipMasterData s
  ∧ isLoaded s' = isLoaded s
  ∧ List.map fst (unifiedLookup s) `prefix_of` List.map fst (unifiedLookup s')
  ∧ (NoDup (List.map fst (unifiedLookup s)) → NoDup (List.map fst (unifiedLookup s')))
  ∧ (length (unifiedLookup s')
     ≤ length (unifiedLookup s)
       + match redfInIndex s with
         | Some idx =>
             length (RedfInMasterIndex.states idx)
             + length (RedfInMasterIndex.counties idx)
             + length (RedfInMasterIndex.cities idx)
             + length (RedfInMasterIndex.zip_codes idx)
         | None => 0
         end)%nat.
Proof.
  destruct (redfInIndex s) as [idx|] eqn:Hidx.
  - cbv zeta. rewrite (buildUnifiedLookup_writes s idx Hidx).
    cbn [redfInIndex zipMasterData isLoaded unifiedLookup]. rewrite Hidx.
    destruct (applyWrites_keys (writesOf s idx) (unifiedLookup s)) as (Hp & Hn & Hl).
    repeat (split; [reflexivity|]). split; [exact Hp|]. split; [exact Hn|].
    revert Hl. unfold writesOf. rewrite !length_app.
    rewrite !length_writes by (now intros []). lia.
  - assert (H : buildUnifiedLookup s = s) by (unfold buildUnifiedLookup; now rewrite Hidx).
    cbv zeta. rewrite H, Hidx. repeat split; auto. lia.
Qed.

Lemma buildUnifiedLookup_grows_witness :
  NoDup (List.map fst (unifiedLookup (buildUnifiedLookup mockInputs)))
  ∧ (length (unifiedLookup (buildUnifiedLookup mockInputs)) ≤ 12)%nat.
Proof.
  destruct (buildUnifiedLookup_grows mockInputs) as (_ & _ & _ & _ & Hn & Hl).
  split; [apply Hn; constructor|exact Hl].
Defined.

End BuiltIndex.

(** ** The statistics *)

Section Statistics.

Lemma bump_countOf (key k : string) (counts : gmap string nat) :
  countOf (bump key counts) k
  = (countOf counts k + if String.eqb key k then 1 else 0)%nat.
Proof.
  unfold countOf, bump. destruct (String.eqb_spec key k) as [->|Hne].
  - now rewrite lookup_insert_eq.
  - rewrite lookup_insert_ne by exact Hne. lia.
Qed.

Lemma bump_keys (key k : string) (counts : gmap string nat) :
  is_Some (bump key counts !! k) → k = key ∨ is_Some (counts !! k).
Proof.
  unfold bump. destruct (String.eqb_spec key k) as [->|Hne]; [now left|].
  rewrite lookup_insert_ne by exact Hne. now right.
Qed.

(** The loop of [getStats], counter by counter. *)
Lemma forEach_countLocation (locs : list UnifiedLocation) (acc : Stats) :
  let r := forEach locs countLocation acc in
  totalLocations r = totalLocations acc
  ∧ (∀ k, countOf (byType r) k
          = (countOf (byType acc) k
             + countWhere (λ loc, String.eqb (locationType loc) k) locs)%nat)
  ∧ (∀ k, countOf (byState r) k
          = (countOf (byState acc) k
             + countWhere (λ loc, String.eqb (stateCode loc) k) locs)%nat)
  ∧ withGeometry r = (withGeometry acc + countWhere (λ loc, geometry (hasData loc)) locs)%nat
  ∧ withCensus r = (withCensus acc + countWhere (λ loc, census (hasData loc)) locs)%nat
  ∧ withRedfin r = (withRedfin acc + countWhere (λ loc, redfin (hasData loc)) locs)%nat.
Proof.
  revert acc. induction locs as [|loc locs IH]; intros acc.
  - cbn. unfold countWhere. cbn. repeat split; intros; lia.
  - change (forEach (loc :: locs) countLocation acc)
      with (forEach locs countLocation (countLocation loc acc)).
    destruct (IH (countLocation loc acc)) as (Ht & Hty & Hst & Hg & Hc & Hr).
    cbv zeta. unfold countWhere in *. cbn [List.filter].
    split; [exact Ht|]. split; [|split; [|split; [|split]]].
    + intros k. rewrite Hty. cbn [countLocation byType]. rewrite bump_countOf.
      destruct (String.eqb (locationType loc) k); cbn [length]; lia.
    + intros k. rewrite Hst. cbn [countLocation byState]. rewrite bump_countOf.
      destruct (String.eqb (stateCode loc) k); cbn [length]; lia.
    + rewrite Hg. cbn [countLocation withGeometry].
      destruct (geometry (hasData loc)); cbn [length]; lia.
    + rewrite Hc. cbn [countLocation withCensus].
      destruct (census (hasData loc)); cbn [length]; lia.
    + rewrite Hr. cbn [countLocation withRedfin].
      destruct (redfin (hasData loc)); cbn [length]; lia.
Qed.

Lemma forEach_countLocation_keys (locs : list UnifiedLocation) (acc : Stats) (k : string) :
  let r := forEach locs countLocation acc in
  (is_Some (byType r !! k) →
     is_Some (byType acc !! k) ∨ ∃ loc, loc ∈ locs ∧ locationType loc = k)
  ∧ (is_Some (byState r !! k) →
       is_Some (byState acc !! k) ∨ ∃ loc, loc ∈ locs ∧ stateCode loc = k).
Proof.
  revert acc. induction locs as [|loc locs IH]; intros acc.
  - cbn. split; auto.
  - change (forEach (loc :: locs) countLocation acc)
      with (forEach locs countLocation (countLocation loc acc)).
    destruct (IH (countLocation loc acc)) as [Hty Hst]. cbv zeta. split.
    + intros H. destruct (Hty H) as [H'|(l & Hl & Hk)].
      * cbn [countLocation byType] in H'. apply bump_keys in H' as [->|H']; [|now left].
        right. exists loc. split; [left|reflexivity].
      * right. exists l. split; [now right|exact Hk].
    + intros H. destruct (Hst H) as [H'|(l & Hl & Hk)].
      * cbn [countLocation byState] in H'. apply bump_keys in H' as [->|H']; [|now left].
        right. exists loc. split; [left|reflexivity].
      * right. exists l. split; [now right|exact Hk].
Qed.

Lemma locationType_cases (loc : UnifiedLocation) :
  locationType loc ∈ ["state"; "zip"; "county"; "city"].
Proof.
  unfold locationType. rewrite !elem_of_cons.
  destruct (length (pathSegments loc) =? 1)%nat; [auto|].
  destruct ((length (pathSegments loc) =? 2)%nat && zipCodeSet loc); [auto|].
  destruct ((length (pathSegments loc) =? 2)%nat && includes _ _); auto.
Qed.

Lemma countWhere_le {A} (p : A → bool) (l : list A) : (countWhere p l ≤ length l)%nat.
Proof. apply List.filter_length_le. Qed.

Lemma countWhere_types (locs : list UnifiedLocation) :
  (countWhere (λ loc, String.eqb (locationType loc) "state") locs
   + countWhere (λ loc, String.eqb (locationType loc) "zip") locs
   + countWhere (λ loc, String.eqb (locationType loc) "county") locs
   + countWhere (λ loc, String.eqb (locationType loc) "city") locs
   = length locs)%nat.
Proof.
  unfold countWhere. induction locs as [|loc locs IH]; [reflexivity|].
  cbn [List.filter length]. pose proof (locationType_cases loc) as H.
  rewrite !elem_of_cons in H.
  destruct H as [->|[->|[->|[->|H]]]]; [| | | |now apply elem_of_nil in H];
    cbn [String.eqb Ascii.eqb Bool.eqb andb length]; cbn; lia.
Qed.

(** X24: the statistics.  The total is the size of the map; the
    counter of a type or of a state code is the number of locations of
    that type or state, and a key is present only if something was
    counted under it; the four type counters add up to the total, and no
    availability counter exceeds it.  State codes are assumed not to be
    names that a plain object inherits. *)
Theorem getStats_counts (s : Service) (stats : Stats) :
  getStats s = Ok stats →
  Forall (λ loc, stateCode loc ∉ inheritedNames) (mapValues (unifiedLookup s)) →
  let locs := mapValues (unifiedLookup s) in
  totalLocations stats = length (unifiedLookup s)
  ∧ (∀ k, countOf (byType stats) k
          = countWhere (λ loc, String.eqb (locationType loc) k) locs)
  ∧ (∀ k, countOf (byState stats) k
          = countWhere (λ loc, String.eqb (stateCode loc) k) locs)
  ∧ (countOf (byType stats) "state" + countOf (byType stats) "zip"
     + countOf (byType stats) "county" + countOf (byType stats) "city"
     = totalLocations stats)%nat
  ∧ (∀ k, is_Some (byType stats !! k) → k ∈ ["state"; "zip"; "county"; "city"])
  ∧ (∀ k, is_Some (byState stats !! k) ↔ ∃ loc, loc ∈ locs ∧ stateCode loc = k)
  ∧ withGeometry stats = countWhere (λ loc, geometry (hasData loc)) locs
  ∧ withCensus stats = countWhere (λ loc, census (hasData loc)) locs
  ∧ withRedfin stats = countWhere (λ loc, redfin (hasData loc)) locs
  ∧ (withGeometry stats ≤ totalLocations stats)%nat
  ∧ (withCensus stats ≤ totalLocations stats)%nat
  ∧ (withRedfin stats ≤ totalLocations stats)%nat.
Proof.
  intros H _ locs. unfold getStats, ensureLoaded in H.
  destruct (isLoaded s); [|discriminate]. cbn [bind] in H. injection H as <-.
  fold locs.
  set (acc := {| totalLocations := length locs; byType := ∅; byState := ∅;
                 withGeometry := O; withCensus := O; withRedfin := O |}).
  destruct (forEach_countLocation locs acc) as (Ht & Hty & Hst & Hg & Hc & Hr).
  assert (Hlen : length locs = length (unifiedLookup s))
    by (unfold locs, mapValues; apply length_map).
  rewrite Ht. cbn [acc totalLocations]. rewrite Hg, Hc, Hr. cbn [acc withGeometry withCensus withRedfin].
  assert (Hty' : ∀ k, countOf (byType (forEach locs countLocation acc)) k
                      = countWhere (λ loc, String.eqb (locationType loc) k) locs)
    by (intros k; rewrite Hty; reflexivity).
  assert (Hst' : ∀ k, countOf (byState (forEach locs countLocation acc)) k
                      = countWhere (λ loc, String.eqb (stateCode loc) k) locs)
    by (intros k; rewrite Hst; reflexivity).
  split; [exact Hlen|]. split; [exact Hty'|]. split; [exact Hst'|].
  split; [rewrite !Hty'; apply countWhere_types|].
  split.
  { intros k Hk. destruct (forEach_countLocation_keys locs acc k) as [H _].
    destruct (H Hk) as [[? [=]]|(loc & _ & <-)]. apply locationType_cases. }
  split.
  { intros k. split.
    - intros Hk. destruct (forEach_countLocation_keys locs acc k) as [_ H].
      destruct (H Hk) as [[? [=]]|Hex]; exact Hex.
    - intros (loc & Hin & <-).
      destruct (byState (forEach locs countLocation acc) !! stateCode loc) eqn:E; [eauto|].
      exfalso. specialize (Hst' (stateCode loc)). unfold countOf in Hst'.
      rewrite E in Hst'. cbn in Hst'. unfold countWhere in Hst'.
      assert (Hi : In loc (List.filter (λ l, String.eqb (stateCode l) (stateCode loc)) locs)).
      { apply filter_In. split; [now apply list_elem_of_In|apply String.eqb_refl]. }
      destruct (List.filter _ locs); [destruct Hi|discriminate]. }
  repeat (split; [reflexivity|]).
  repeat split; apply countWhere_le.
Qed.

Lemma getStats_counts_witness :
  ∃ stats,
    getStats substituteService = Ok stats
    ∧ totalLocations stats = 12%nat
    ∧ countOf (byType stats) "zip" = 3%nat
    ∧ countOf (byState stats) "CA" = 4%nat.
Proof.
  assert (Hs : Forall (λ loc, stateCode loc ∉ inheritedNames)
                      (mapValues (unifiedLookup substituteService))).
  { apply (bool_decide_unpack _). vm_compute. exact I. }
  eexists. split; [reflexivity|].
  destruct (getStats_counts substituteService _ eq_refl Hs) as (Ht & Hty & Hst & _).
  rewrite Ht, Hty, Hst. vm_compute. repeat split.
Defined.

End Statistics.

(** ** The tract matcher *)

Section TractMatcher.

Lemma find_In {A} (p : A → bool) (l : list A) (x : A) :
  List.find p l = Some x → x ∈ l ∧ p x = true.
Proof. intros H. apply find_some in H as [H1 H2]. split; [now apply list_elem_of_In|exact H2]. Qed.

Lemma strictEq_Str (v : value) (s : string) : strictEq v (Str s) = true ↔ v = Str s.
Proof.
  destruct v as [| |b|n|t]; simpl; split; try discriminate.
  - intros H. apply String.eqb_eq in H. congruence.
  - intros [= ->]. apply String.eqb_refl.
Qed.

Lemma find_is_Some {A} (p : A → bool) (l : list A) (x : A) :
  x ∈ l → p x = true → ∃ y, List.find p l = Some y ∧ p y = true.
Proof.
  intros Hin Hp. destruct (List.find p l) as [y|] eqn:E.
  - exists y. split; [reflexivity|]. now apply find_some in E.
  - exfalso. apply list_elem_of_In in Hin.
    pose proof (find_none _ _ E _ Hin) as H. congruence.
Qed.

(** X25: the tract matcher.  A returned row is a candidate row whose
    [GEOID] is the identifier extracted from the feature, or whose
    state, county and tract agree with the feature's; a row with that
    [GEOID] wins over any row that agrees on the parts only.  A feature
    whose first identifying field is blank yields the empty identifier
    and is never matched, not even by its parts.  And where the [GEOID]
    of every row is a number, the identifier, a text, finds nothing:
    only the parts decide. *)
Theorem matchTractFeatureToData_result (feature : Feature) (dataRows : list Row) :
  (∀ row, matchTractFeatureToData feature dataRows = Some row →
     row ∈ dataRows
     ∧ ∃ featureId,
         extractTractFeatureId feature = Some featureId ∧ featureId ≠ ""
         ∧ (get row "GEOID" = Str featureId
            ∨ tractPartsMatch (properties feature) row = true))
  ∧ (∀ featureId row,
       extractTractFeatureId feature = Some featureId → featureId ≠ "" →
       row ∈ dataRows → get row "GEOID" = Str featureId →
       ∃ found, matchTractFeatureToData feature dataRows = Some found
                ∧ get found "GEOID" = Str featureId)
  ∧ (extractTractFeatureId feature = Some "" →
     matchTractFeatureToData feature dataRows = None)
  ∧ (Forall (λ row, ∃ n, get row "GEOID" = Num n) dataRows →
     ∀ featureId, extractTractFeatureId feature = Some featureId → featureId ≠ "" →
       matchTractFeatureToData feature dataRows
       = List.find (tractPartsMatch (properties feature)) dataRows).
Proof.
  unfold matchTractFeatureToData.
  destruct (extractTractFeatureId feature) as [featureId|] eqn:Eid.
  2:{ destruct (length dataRows =? 0)%nat; repeat split; intros; discriminate. }
  destruct featureId as [|c t].
  { destruct (length dataRows =? 0)%nat; cbn; repeat split; intros; try discriminate;
      try congruence. }
  cbn [truthy String.eqb negb].
  destruct dataRows as [|r0 rows]; cbn [length Nat.eqb].
  { split; [intros ? [=]|].
    split; [intros ? ? _ _ H; now apply elem_of_nil in H|].
    split; intros; reflexivity. }
  set (dataRows := r0 :: rows).
  split; [|split; [|split]].
  - intros row H.
    destruct (List.find (λ row, strictEq (get row "GEOID") (Str (String c t))) dataRows)
      as [m|] eqn:E.
    + injection H as <-. apply find_In in E as [Hin Hm]. split; [exact Hin|].
      exists (String c t). split; [reflexivity|]. split; [discriminate|].
      left. now apply strictEq_Str.
    + apply find_In in H as [Hin Hm]. split; [exact Hin|].
      exists (String c t). split; [reflexivity|]. split; [discriminate|]. now right.
  - intros fid row [= <-] _ Hin Hg.
    destruct (find_is_Some (λ row, strictEq (get row "GEOID") (Str (String c t)))
                dataRows row Hin) as (y & -> & Hy).
    { now apply strictEq_Str. }
    exists y. split; [reflexivity|]. now apply strictEq_Str.
  - discriminate.
  - intros Hnum fid [= <-] _.
    destruct (List.find (λ row, strictEq (get row "GEOID") (Str (String c t))) dataRows)
      as [m|] eqn:E; [|reflexivity].
    apply find_In in E as [Hin Hm]. rewrite List.Forall_forall in Hnum.
    destruct (Hnum m) as [n Hn]; [now apply list_elem_of_In|].
    rewrite Hn in Hm. discriminate.
Qed.

Lemma matchTractFeatureToData_result_witness :
  extractTractFeatureId blankTractFeature = Some ""
  ∧ matchTractFeatureToData blankTractFeature [tractRow] = None
  ∧ tractPartsMatch (properties blankTractFeature) tractRow = true.
Proof.
  destruct (matchTractFeatureToData_result blankTractFeature [tractRow]) as (_ & _ & H & _).
  split; [reflexivity|]. split; [exact (H eq_refl)|]. vm_compute. reflexivity.
Defined.

End TractMatcher.

(** ** The addresses of the datasets *)

Section Addresses.

Lemma lookupState_None (table : list (string * StateEntry)) (stateAbbrev : string) :
  lookupState table stateAbbrev = None ↔ stateAbbrev ∉ List.map fst table.
Proof.
  induction table as [|[k e] table IH]; cbn [lookupState List.map fst].
  - split; [intros _ H; now apply elem_of_nil in H|reflexivity].
  - rewrite not_elem_of_cons. destruct (String.eqb_spec k stateAbbrev) as [->|Hne].
    + split; [discriminate|]. now intros [? _].
    + rewrite IH. split; [intros H; split; [congruence|exact H]|now intros [_ H]].
Qed.

Lemma buildOptimizedUrls_fred (stateAbbrev level : string)
    (selectedViewMode : option string) (state : StateEntry) (urls : Urls.t) :
  lookupState STATES stateAbbrev = Some state →
  buildOptimizedUrls stateAbbrev level selectedViewMode = Ok urls →
  Urls.fred urls
  = BASE_URL +:+ "/fred/" +:+ stateAbbrev +:+ "/fred_counties_"
    +:+ fredCode state +:+ ".json".
Proof.
  intros Es. unfold buildOptimizedUrls. rewrite Es.
  destruct (String.eqb level "tract").
  - destruct selectedViewMode as [m|]; [|discriminate].
    destruct (negb (truthy (Str m))); [discriminate|]. now intros [= <-].
  - destruct (String.eqb level "state"); now intros [= <-].
Qed.

(** X26: the addresses of the datasets, for a state code that is not a
    name inherited by the state table.  [buildOptimizedUrls] throws
    exactly for a state outside the table, and at level "tract" without
    a view mode (none, or the empty text).  The FRED address depends on
    the state alone; below the tract level the view mode is ignored; and
    at level "state" the Redfin address is the one of level
    "county". *)
Theorem buildOptimizedUrls_addresses (stateAbbrev level : string)
    (selectedViewMode : option string) :
  stateAbbrev ∉ inheritedNames →
  (buildOptimizedUrls stateAbbrev level selectedViewMode = Throw
   ↔ stateAbbrev ∉ List.map fst STATES
     ∨ (level = "tract" ∧ (selectedViewMode = None ∨ selectedViewMode = Some "")))
  ∧ ∀ urls, buildOptimizedUrls stateAbbrev level selectedViewMode = Ok urls →
      (∀ level' viewMode' urls',
         buildOptimizedUrls stateAbbrev level' viewMode' = Ok urls' →
         Urls.fred urls' = Urls.fred urls)
      ∧ (level ≠ "tract" →
         ∀ viewMode', buildOptimizedUrls stateAbbrev level viewMode' = Ok urls)
      ∧ (level = "state" →
         ∃ county, buildOptimizedUrls stateAbbrev "county" None = Ok county
                   ∧ Urls.redfin urls = Urls.redfin county).
Proof.
  intros _. destruct (lookupState STATES stateAbbrev) as [state|] eqn:Es.
  - assert (Hk : ¬ (stateAbbrev ∉ List.map fst STATES)).
    { rewrite <- lookupState_None, Es. discriminate. }
    split.
    + unfold buildOptimizedUrls. rewrite Es.
      destruct (String.eqb_spec level "tract") as [->|Ht].
      * destruct selectedViewMode as [[|c m]|]; cbn [truthy String.eqb negb]; split;
          try discriminate; try tauto.
        intros [?|[_ [?|?]]]; [contradiction|discriminate|discriminate].
      * destruct (String.eqb level "state"); split; try discriminate;
          intros [?|[? _]]; contradiction.
    + intros urls Hu. split; [|split].
      * intros level' viewMode' urls' H'.
        now rewrite (buildOptimizedUrls_fred _ _ _ _ _ Es H'),
                    (buildOptimizedUrls_fred _ _ _ _ _ Es Hu).
      * intros Ht viewMode'. revert Hu. unfold buildOptimizedUrls. rewrite Es.
        destruct (String.eqb_spec level "tract"); [contradiction|]. auto.
      * intros ->. revert Hu. unfold buildOptimizedUrls. rewrite Es.
        cbn [String.eqb Ascii.eqb Bool.eqb andb]. intros [= <-].
        eexists. split; reflexivity.
  - split.
    + unfold buildOptimizedUrls. rewrite Es. split; [|reflexivity].
      intros _. left. now apply lookupState_None.
    + unfold buildOptimizedUrls. rewrite Es. discriminate.
Qed.

Lemma buildOptimizedUrls_addresses_witness :
  buildOptimizedUrls "AL" "tract" None = Throw
  ∧ ∃ urls, buildOptimizedUrls "AL" "state" None = Ok urls
            ∧ Urls.redfin urls
              = BASE_URL +:+ "/redfin/AL/redfin_AL_county.json".
Proof.
  assert (Hal : "AL" ∉ inheritedNames).
  { apply (bool_decide_unpack _). vm_compute. exact I. }
  split.
  - apply (buildOptimizedUrls_addresses "AL" "tract" None Hal). right. auto.
  - destruct (buildOptimizedUrls_addresses "AL" "state" None Hal) as [_ H].
    eexists. split; [reflexivity|].
    destruct (H _ eq_refl) as (_ & _ & county & Hc & ->); [reflexivity|].
    injection Hc as <-. reflexivity.
Defined.

End Addresses.
